(** * Reconciliation engine of the vehicle catalog: a shallow embedding

    The development follows [services/vehicle-filters.ts] (the filter
    evaluator), [services/sync-service.ts] (fingerprint, reconciler, image
    pipeline, orchestrator phases) and [services/asofix-api.ts] (the record
    type and the point lookup), against the tables of
    [database/final_schema.sql].

    Conventions of the model:
    - a JS string is a [string] (a sequence of bytes); [toUpperCase],
      [toLowerCase] and [trim] act on the ASCII letters and the ASCII white
      space, as the JS functions do on ASCII text;
    - a JS [number] read from the feed is an integer ([Z]); timestamps are
      integers in milliseconds;
    - an optional field [f?: T] is an [option T]; JS truthiness is written
      out at every use ([x || d], [if (x)], [x && y]);
    - a table is the list of its rows in insertion order, primary keys come
      from a per-table counter (AUTO_INCREMENT); the statements sent through
      the pool are functions on the tables and are assumed to be accepted by
      the server (every text fits its column), except where the schema
      itself rejects them (the foreign keys of [vehicle_images],
      [pending_images] and [vehicle_taxonomies], the unique key on
      [vehicles.asofix_id]); the image storage accepts every write;
    - the collaborators that the code does not define (the digest, the JSON
      printer, the joined storage path, the HTTP client, the catalog lookup,
      the Unicode decomposition used to strip accents) are parameters;
    - on the taxonomy tables the server compares texts under the collation
      of the columns, given by its weight function ([collationKey]); ids,
      URLs and license plates are compared as the strings they are;
    - a loop that the code bounds only by the answers of the catalog (the
      page loops) takes a bound on its rounds ([fuel]); what is proved of
      such a loop holds for every bound.

    Besides the three services the development covers the endpoint of
    [controllers/asofix.controller.ts] that looks a plate up, the log table
    of [services/sync-logger.ts] and three normalizers of
    [services/meta-feed-normalizers.ts]. *)

From Stdlib Require Import ZArith String Ascii DecimalString Lia.
From stdpp Require Import base tactics option list sorting gmap sets strings.

Open Scope string_scope.
Open Scope Z_scope.

(** ** JS string primitives *)

Definition isUpperAscii (c : ascii) : bool :=
  ((65 <=? nat_of_ascii c) && (nat_of_ascii c <=? 90))%nat.

Definition isLowerAscii (c : ascii) : bool :=
  ((97 <=? nat_of_ascii c) && (nat_of_ascii c <=? 122))%nat.

Definition charToLower (c : ascii) : ascii :=
  if isUpperAscii c then ascii_of_nat (nat_of_ascii c + 32) else c.

Definition charToUpper (c : ascii) : ascii :=
  if isLowerAscii c then ascii_of_nat (nat_of_ascii c - 32) else c.

Fixpoint mapString (f : ascii -> ascii) (s : string) : string :=
  match s with
  | EmptyString => EmptyString
  | String c rest => String (f c) (mapString f rest)
  end.

Definition toLowerCase (s : string) : string := mapString charToLower s.
Definition toUpperCase (s : string) : string := mapString charToUpper s.

(** [haystack.includes(needle)] *)
Fixpoint includes (haystack needle : string) : bool :=
  String.prefix needle haystack ||
  match haystack with
  | EmptyString => false
  | String _ rest => includes rest needle
  end.

(** White space removed by [trim]: tab, line feed, vertical tab, form feed,
    carriage return and space. *)
Definition isSpace (c : ascii) : bool :=
  let n := nat_of_ascii c in
  ((9 <=? n) && (n <=? 13) || (n =? 32))%nat.

Fixpoint trimStart (s : string) : string :=
  match s with
  | EmptyString => EmptyString
  | String c rest => if isSpace c then trimStart rest else s
  end.

Fixpoint trimEnd (s : string) : string :=
  match s with
  | EmptyString => EmptyString
  | String c rest =>
      match trimEnd rest with
      | EmptyString => if isSpace c then EmptyString else String c EmptyString
      | t => String c t
      end
  end.

Definition trim (s : string) : string := trimEnd (trimStart s).

(** [s.trim().length === 0] *)
Definition isBlank (s : string) : bool := String.eqb (trim s) "".

(** [s.replace(pat, by)] with a string pattern: the first occurrence only. *)
Fixpoint replaceFirst (s pat by_ : string) : string :=
  if String.prefix pat s
  then by_ +:+ String.substring (String.length pat) (String.length s - String.length pat) s
  else match s with
       | EmptyString => EmptyString
       | String c rest => String c (replaceFirst rest pat by_)
       end.

(** Template literal interpolation of an integer-valued number. *)
Definition showNumber (z : Z) : string := NilZero.string_of_int (Z.to_int z).

(** [x || d] on an optional string: the default replaces both [undefined]
    and the empty string. *)
Definition strOr (x : option string) (d : string) : string :=
  match x with
  | Some s => if String.eqb s "" then d else s
  | None => d
  end.

(** Truthiness of an optional string. *)
Definition truthyStr (x : option string) : bool :=
  match x with
  | Some s => negb (String.eqb s "")
  | None => false
  end.

(** [x || 0] on an optional number. *)
Definition numOr0 (x : option Z) : Z := default 0 x.

(** ** The external record ([AsofixVehicle] of asofix-api.ts) *)

Record Stock := mkStock {
  stock_status : option string;
  branch_office_name : option string;
  location_name : option string
}.

Record Price := mkPrice {
  list_price : option Z;
  currency_name : option string
}.

Record Color := mkColor { color_name : option string }.

Record Image := mkImage { url : option string }.

Inductive CarCondition := cond_new | cond_used.

Record AsofixVehicle := mkAsofixVehicle {
  api_id : string;                      (* id *)
  brand_name : option string;
  model_name : option string;
  version : option string;
  description : option string;
  year : option Z;
  kilometres : option Z;
  license_plate : option string;
  origin : option string;
  car_condition : option CarCondition;
  car_transmission : option string;
  car_fuel_type : option string;
  car_segment : option string;
  price : option Price;
  colors : option (list Color);
  stocks : option (list Stock);
  images : option (list Image);
  brand_id : option Z;                  (* read through [vehicle as any] *)
  model_id : option Z
}.

(** ** Filter configuration ([filterConfig] of config/filters, taken as a
    value) *)

Record FilterConfig := mkFilterConfig {
  blockedBranchOffices : list string;
  minPrice : Z;
  blockedStatuses : list string;
  requireImages : bool
}.

(** ** VehicleFilters.shouldOmitVehicle *)

Record OmitResult := mkOmit { omit : bool; reason : option string }.

(** [stock.status && stock.status.toUpperCase() === 'ACTIVO'] *)
Definition isActiveStock (s : Stock) : bool :=
  match stock_status s with
  | Some st => negb (String.eqb st "") && String.eqb (toUpperCase st) "ACTIVO"
  | None => false
  end.

(** [vehicle.stocks?.find(...)] *)
Definition findActiveStock (vehicle : AsofixVehicle) : option Stock :=
  match stocks vehicle with
  | Some l => List.find isActiveStock l
  | None => None
  end.

Definition reasonLocation (activeStock : Stock) (blockedOffice : string) : string :=
  "Concesionaria bloqueada: " +:+ strOr (location_name activeStock) "N/A" +:+
  " (filtro: " +:+ blockedOffice +:+ ", campo: location_name)".

Definition reasonBranch (activeStock : Stock) (blockedOffice : string) : string :=
  "Concesionaria bloqueada: " +:+ strOr (branch_office_name activeStock) "N/A" +:+
  " (filtro: " +:+ blockedOffice +:+ ", campo: branch_office_name)".

(** The loop over [filterConfig.blockedBranchOffices]: [Some r] is the early
    return with reason [r], [None] is falling out of the loop. *)
Fixpoint blockedOfficeLoop (activeStock : Stock) (locationName branchName : string)
    (offices : list string) : option string :=
  match offices with
  | [] => None
  | blockedOffice :: rest =>
      let blockedLower := toLowerCase blockedOffice in
      if includes locationName blockedLower then
        Some (reasonLocation activeStock blockedOffice)
      else if includes branchName blockedLower then
        Some (reasonBranch activeStock blockedOffice)
      else blockedOfficeLoop activeStock locationName branchName rest
  end.

Definition reasonPrice (price_ minimum : Z) : string :=
  "Precio (" +:+ showNumber price_ +:+ ") menor o igual al mínimo permitido (" +:+
  showNumber minimum +:+ ")".

Definition reasonStatus (activeStock : Stock) (blockedStatus : string) : string :=
  "Estado bloqueado: " +:+ default "undefined" (stock_status activeStock) +:+
  " (filtro: " +:+ blockedStatus +:+ ")".

(** The loop over [filterConfig.blockedStatuses]. *)
Fixpoint blockedStatusLoop (activeStock : Stock) (stockStatus : string)
    (statuses : list string) : option string :=
  match statuses with
  | [] => None
  | blockedStatus :: rest =>
      if String.eqb stockStatus (toLowerCase blockedStatus) then
        Some (reasonStatus activeStock blockedStatus)
      else blockedStatusLoop activeStock stockStatus rest
  end.

Definition listPrice (vehicle : AsofixVehicle) : Z :=
  match price vehicle with
  | Some p => numOr0 (list_price p)
  | None => 0
  end.

(** [img.url && img.url.trim().length > 0] *)
Definition imageHasUrl (img : Image) : bool :=
  match url img with
  | Some u => negb (String.eqb u "") && negb (isBlank u)
  | None => false
  end.

(** [vehicle.images && vehicle.images.length > 0 && vehicle.images.some(...)] *)
Definition hasImages (vehicle : AsofixVehicle) : bool :=
  match images vehicle with
  | Some l => negb (Nat.eqb (List.length l) 0) && existsb imageHasUrl l
  | None => false
  end.

(** [!licensePlate || licensePlate.trim().length === 0] *)
Definition plateMissing (licensePlate : option string) : bool :=
  match licensePlate with
  | Some p => String.eqb p "" || isBlank p
  | None => true
  end.

Definition reasonNoStock : string := "No tiene stock activo".
Definition reasonNoPlate : string := "License plate es NULL o vacío".
Definition reasonNoImages : string :=
  "No tiene imágenes asociadas (REQUIRE_IMAGES=true)".

Definition shouldOmitVehicle (filterConfig : FilterConfig) (vehicle : AsofixVehicle)
    : OmitResult :=
  match findActiveStock vehicle with
  | None => mkOmit true (Some reasonNoStock)
  | Some activeStock =>
      let locationName := toLowerCase (strOr (location_name activeStock) "") in
      let branchName := toLowerCase (strOr (branch_office_name activeStock) "") in
      match blockedOfficeLoop activeStock locationName branchName
              (blockedBranchOffices filterConfig) with
      | Some r => mkOmit true (Some r)
      | None =>
          let price_ := listPrice vehicle in
          if price_ <=? minPrice filterConfig then
            mkOmit true (Some (reasonPrice price_ (minPrice filterConfig)))
          else
            let stockStatus := toLowerCase (strOr (stock_status activeStock) "") in
            match blockedStatusLoop activeStock stockStatus
                    (blockedStatuses filterConfig) with
            | Some r => mkOmit true (Some r)
            | None =>
                if plateMissing (license_plate vehicle) then
                  mkOmit true (Some reasonNoPlate)
                else if requireImages filterConfig && negb (hasImages vehicle) then
                  mkOmit true (Some reasonNoImages)
                else mkOmit false None
            end
      end
  end.

(** Sample data. *)
Definition cfgDefault : FilterConfig :=
  mkFilterConfig ["Dakota"] 1 ["reservado"] true.

Definition stockCentral : Stock := mkStock (Some "ACTIVO") (Some "Casa Central") (Some "Central Branch").

Definition vehicleOk : AsofixVehicle :=
  mkAsofixVehicle "A-100" (Some "Toyota") (Some "Corolla") (Some "XEI") (Some "Impecable")
    (Some 2019) (Some 45000) (Some "ABC123") None (Some cond_used) (Some "Manual")
    (Some "Nafta") (Some "Sedan") (Some (mkPrice (Some 5000) (Some "USD")))
    (Some [mkColor (Some "Blanco")]) (Some [stockCentral])
    (Some [mkImage (Some "https://cdn.example/th-b.jpg"); mkImage (Some "https://cdn.example/th-a.jpg")])
    None None.

(** ** Collaborators taken as parameters

    [JSON_stringify] and [sha256] are the printer and the digest used by
    generateVersionHash; [storagePath vehicleId highResUrl] is the joined
    path under IMAGES_PATH; [httpGet] is the outcome of [axios.get] on a URL
    (the body, or the message of the error it throws); [toISOString] prints
    a date. *)

Record RelevantData := mkRelevantData {
  rd_id : string;
  rd_title : string;
  rd_description : string;
  rd_year : option Z;
  rd_kilometres : option Z;
  rd_price : Z;
  rd_currency : string;
  rd_condition : option CarCondition;
  rd_transmission : option string;
  rd_fuel_type : option string;
  rd_segment : option string;
  rd_color : string;
  rd_license_plate : option string;
  rd_images_urls : list string;
  rd_images_count : nat;
  rd_stock_status : string
}.

Inductive HttpOutcome :=
| http_ok (body : string)
| http_error (msg : string).

Record Env := mkEnv {
  filterConfig : FilterConfig;
  JSON_stringify : RelevantData -> string;
  sha256 : string -> string;
  storagePath : Z -> string -> string;
  httpGet : string -> HttpOutcome;
  toISOString : Z -> string;
  collationKey : string -> string
}.

(** [a = b] as the server decides it on a column of collation
    [utf8mb4_unicode_ci] (the taxonomy tables): [collationKey] is the weight
    string of the collation, two texts are equal when their keys are. *)
Definition sameText (env : Env) (a b : string) : bool :=
  String.eqb (collationKey env a) (collationKey env b).

(** ** SyncService.generateVersionHash *)

(** The order of [Array.prototype.sort] without comparator on strings. *)
Definition strLe (a b : string) : Prop := String.leb a b = true.

#[global] Instance strLe_dec : RelDecision strLe.
Proof. intros a b. unfold strLe. apply _. Defined.

(** [list.sort()] *)
Definition sortStrings (l : list string) : list string := merge_sort strLe l.

(** [(vehicle.images || []).map(img => img.url || '').filter(url => url)] *)
Definition imageUrlsOf (vehicle : AsofixVehicle) : list string :=
  List.filter (fun u => negb (String.eqb u ""))
    (List.map (fun img => strOr (url img) "") (default [] (images vehicle))).

(** [`${brand_name || ''} ${model_name || ''} ${version || ''}`.trim()] *)
Definition titleOf (vehicle : AsofixVehicle) : string :=
  trim (strOr (brand_name vehicle) "" +:+ " " +:+ strOr (model_name vehicle) "" +:+ " " +:+
        strOr (version vehicle) "").

(** [vehicle.colors?.[0]?.name || ''] *)
Definition firstColorName (vehicle : AsofixVehicle) : string :=
  match colors vehicle with
  | Some (c :: _) => strOr (color_name c) ""
  | _ => ""
  end.

(** [vehicle.stocks?.find(s => s.status?.toUpperCase() === 'ACTIVO')?.status || ''] *)
Definition activeStockStatus (vehicle : AsofixVehicle) : string :=
  match stocks vehicle with
  | Some l =>
      match List.find (fun s => match stock_status s with
                                | Some st => String.eqb (toUpperCase st) "ACTIVO"
                                | None => false
                                end) l with
      | Some s => strOr (stock_status s) ""
      | None => ""
      end
  | None => ""
  end.

Definition relevantData (vehicle : AsofixVehicle) : RelevantData :=
  let imageUrls := sortStrings (imageUrlsOf vehicle) in
  {| rd_id := api_id vehicle;
     rd_title := titleOf vehicle;
     rd_description := strOr (description vehicle) "";
     rd_year := year vehicle;
     rd_kilometres := kilometres vehicle;
     rd_price := listPrice vehicle;
     rd_currency := match price vehicle with
                    | Some p => strOr (currency_name p) ""
                    | None => ""
                    end;
     rd_condition := car_condition vehicle;
     rd_transmission := car_transmission vehicle;
     rd_fuel_type := car_fuel_type vehicle;
     rd_segment := car_segment vehicle;
     rd_color := firstColorName vehicle;
     rd_license_plate := license_plate vehicle;
     rd_images_urls := imageUrls;
     rd_images_count := List.length imageUrls;
     rd_stock_status := activeStockStatus vehicle |}.

Definition generateVersionHash (env : Env) (vehicle : AsofixVehicle) : string :=
  sha256 env (JSON_stringify env (relevantData vehicle)).

(** The same record with another [images] array. *)
Definition withImages (vehicle : AsofixVehicle) (imgs : option (list Image)) : AsofixVehicle :=
  mkAsofixVehicle (api_id vehicle) (brand_name vehicle) (model_name vehicle) (version vehicle)
    (description vehicle) (year vehicle) (kilometres vehicle) (license_plate vehicle)
    (origin vehicle) (car_condition vehicle) (car_transmission vehicle)
    (car_fuel_type vehicle) (car_segment vehicle) (price vehicle) (colors vehicle)
    (stocks vehicle) imgs (brand_id vehicle) (model_id vehicle).

(** ** JSON documents ([additional_data]) *)

#[local] Unset Elimination Schemes.
Inductive json :=
| JNull
| JBool (b : bool)
| JNum (n : Z)
| JStr (s : string)
| JArr (items : list json)
| JObj (fields : list (string * json)).
#[local] Set Elimination Schemes.

Definition JsObject := list (string * json).

Definition truthy (j : json) : bool :=
  match j with
  | JNull => false
  | JBool b => b
  | JNum n => negb (n =? 0)
  | JStr s => negb (String.eqb s "")
  | JArr _ | JObj _ => true
  end.

(** [o[k]] *)
Fixpoint objGet (o : JsObject) (k : string) : option json :=
  match o with
  | [] => None
  | (k', v) :: rest => if String.eqb k' k then Some v else objGet rest k
  end.

(** [o[k] = v]: an existing key keeps its place, a new key goes last. *)
Fixpoint objSet (o : JsObject) (k : string) (v : json) : JsObject :=
  match o with
  | [] => [(k, v)]
  | (k', v') :: rest =>
      if String.eqb k' k then (k', v) :: rest else (k', v') :: objSet rest k v
  end.

(** [delete o[k]] *)
Definition objDelete (o : JsObject) (k : string) : JsObject :=
  List.filter (fun kv => negb (String.eqb (fst kv) k)) o.

(** [if (o[k]) delete o[k]] *)
Definition objDeleteIfTruthy (o : JsObject) (k : string) : JsObject :=
  match objGet o k with
  | Some v => if truthy v then objDelete o k else o
  | None => o
  end.

(** Content of a JSON column: NULL, a text that [JSON.parse] rejects, or an
    object (every writer of [additional_data] stringifies an object). *)
Inductive JsonColumn :=
| col_null
| col_invalid (raw : string)
| col_object (o : JsObject).

(** [col ? JSON.parse(col) : {}] inside [try { } catch { }] with [{}] kept
    on failure. *)
Definition parseAdditionalData (c : JsonColumn) : JsObject :=
  match c with
  | col_object o => o
  | col_null | col_invalid _ => []
  end.

(** ** The local store *)

Inductive Status := draft | published | archived.

#[global] Instance Status_eq_dec : EqDecision Status.
Proof. solve_decision. Defined.

Record VehicleRow := mkVehicleRow {
  veh_id : Z;
  veh_asofix_id : string;
  veh_title : string;
  veh_content : option string;
  veh_status : Status;
  veh_year : option Z;
  veh_kilometres : option Z;
  veh_license_plate : option string;
  veh_price_usd : option Z;
  veh_price_ars : option Z;
  veh_featured_image_id : option Z;
  veh_created_at : option Z;
  veh_updated_at : option Z;
  veh_last_synced_at : option Z;
  veh_asofix_updated_at : option Z;
  veh_version_hash : option string;
  veh_additional_data : JsonColumn
}.

Record ImageRow := mkImageRow {
  img_id : Z;
  img_vehicle_id : Z;
  img_image_url : string;
  img_file_path : option string;
  img_is_featured : bool;
  img_sort_order : Z
}.

Record PendingRow := mkPendingRow {
  pend_id : Z;
  pend_vehicle_id : Z;
  pend_image_url : string
}.

Record TermRow := mkTermRow {
  term_id : Z;
  term_taxonomy : string;
  term_name : string
}.

Record VehicleTaxonomyRow := mkVehicleTaxonomyRow {
  vt_id : Z;
  vt_vehicle_id : Z;
  vt_taxonomy : string;
  vt_term_id : Z
}.

(** Tables, AUTO_INCREMENT counters, the image storage ([files]: path and
    content, newest first) and the log of the HTTP downloads performed
    ([requests]: the vehicle and the image URL each GET was issued for). *)
Record World := mkWorld {
  vehicles : list VehicleRow;
  vehicle_images : list ImageRow;
  pending_images : list PendingRow;
  taxonomy_terms : list TermRow;
  vehicle_taxonomies : list VehicleTaxonomyRow;
  next_vehicle_id : Z;
  next_image_id : Z;
  next_pending_id : Z;
  next_term_id : Z;
  next_vt_id : Z;
  files : list (string * string);
  requests : list (Z * string)
}.

Definition setVehicles (w : World) (l : list VehicleRow) : World :=
  mkWorld l (vehicle_images w) (pending_images w) (taxonomy_terms w) (vehicle_taxonomies w)
    (next_vehicle_id w) (next_image_id w) (next_pending_id w) (next_term_id w) (next_vt_id w)
    (files w) (requests w).

Definition setImages (w : World) (l : list ImageRow) : World :=
  mkWorld (vehicles w) l (pending_images w) (taxonomy_terms w) (vehicle_taxonomies w)
    (next_vehicle_id w) (next_image_id w) (next_pending_id w) (next_term_id w) (next_vt_id w)
    (files w) (requests w).

Definition setPending (w : World) (l : list PendingRow) : World :=
  mkWorld (vehicles w) (vehicle_images w) l (taxonomy_terms w) (vehicle_taxonomies w)
    (next_vehicle_id w) (next_image_id w) (next_pending_id w) (next_term_id w) (next_vt_id w)
    (files w) (requests w).

Definition setTerms (w : World) (l : list TermRow) (next : Z) : World :=
  mkWorld (vehicles w) (vehicle_images w) (pending_images w) l (vehicle_taxonomies w)
    (next_vehicle_id w) (next_image_id w) (next_pending_id w) next (next_vt_id w)
    (files w) (requests w).

Definition setVehicleTaxonomies (w : World) (l : list VehicleTaxonomyRow) (next : Z) : World :=
  mkWorld (vehicles w) (vehicle_images w) (pending_images w) (taxonomy_terms w) l
    (next_vehicle_id w) (next_image_id w) (next_pending_id w) (next_term_id w) next
    (files w) (requests w).

(** *** Statements on [vehicles] *)

(** [UPDATE vehicles SET ... WHERE cond] *)
Definition updateVehicles (cond : VehicleRow -> bool) (f : VehicleRow -> VehicleRow)
    (w : World) : World :=
  setVehicles w (List.map (fun r => if cond r then f r else r) (vehicles w)).

Definition whereId (i : Z) (r : VehicleRow) : bool := veh_id r =? i.
Definition whereAsofixId (a : string) (r : VehicleRow) : bool := String.eqb (veh_asofix_id r) a.

(** [SET status = ?, additional_data = ?, updated_at = NOW()] *)
Definition setStatusData (st : Status) (ad : JsObject) (now : Z) (r : VehicleRow) : VehicleRow :=
  mkVehicleRow (veh_id r) (veh_asofix_id r) (veh_title r) (veh_content r) st (veh_year r)
    (veh_kilometres r) (veh_license_plate r) (veh_price_usd r) (veh_price_ars r)
    (veh_featured_image_id r) (veh_created_at r) (Some now) (veh_last_synced_at r)
    (veh_asofix_updated_at r) (veh_version_hash r) (col_object ad).

(** [SET last_synced_at = NOW()]; the column [updated_at] is declared
    ON UPDATE CURRENT_TIMESTAMP, so it follows when the row changes. *)
Definition setLastSynced (now : Z) (r : VehicleRow) : VehicleRow :=
  mkVehicleRow (veh_id r) (veh_asofix_id r) (veh_title r) (veh_content r) (veh_status r)
    (veh_year r) (veh_kilometres r) (veh_license_plate r) (veh_price_usd r) (veh_price_ars r)
    (veh_featured_image_id r) (veh_created_at r)
    (if decide (veh_last_synced_at r = Some now) then veh_updated_at r else Some now)
    (Some now) (veh_asofix_updated_at r) (veh_version_hash r) (veh_additional_data r).

(** The UPDATE of the upsert path. *)
Definition setListing (title_ content_ hash : string) (ad : JsObject) (now : Z)
    (r : VehicleRow) : VehicleRow :=
  mkVehicleRow (veh_id r) (veh_asofix_id r) title_ (Some content_) published (veh_year r)
    (veh_kilometres r) (veh_license_plate r) (veh_price_usd r) (veh_price_ars r)
    (veh_featured_image_id r) (veh_created_at r) (Some now) (Some now) (Some now)
    (Some hash) (col_object ad).

(** The UPDATE of setVehicleMetadata. *)
Definition setMetadata (km : Z) (yr : option Z) (plate : option string)
    (usd ars : option Z) (now : Z) (r : VehicleRow) : VehicleRow :=
  mkVehicleRow (veh_id r) (veh_asofix_id r) (veh_title r) (veh_content r) (veh_status r) yr
    (Some km) plate usd ars (veh_featured_image_id r) (veh_created_at r) (Some now)
    (veh_last_synced_at r) (veh_asofix_updated_at r) (veh_version_hash r)
    (veh_additional_data r).

(** [SET featured_image_id = ?] (with the automatic [updated_at]). *)
Definition setFeatured (imageId now : Z) (r : VehicleRow) : VehicleRow :=
  mkVehicleRow (veh_id r) (veh_asofix_id r) (veh_title r) (veh_content r) (veh_status r)
    (veh_year r) (veh_kilometres r) (veh_license_plate r) (veh_price_usd r) (veh_price_ars r)
    (Some imageId) (veh_created_at r)
    (if decide (veh_featured_image_id r = Some imageId) then veh_updated_at r else Some now)
    (veh_last_synced_at r) (veh_asofix_updated_at r) (veh_version_hash r)
    (veh_additional_data r).

(** Effect of [fk_featured_image ... ON DELETE SET NULL]. *)
Definition clearFeatured (r : VehicleRow) : VehicleRow :=
  mkVehicleRow (veh_id r) (veh_asofix_id r) (veh_title r) (veh_content r) (veh_status r)
    (veh_year r) (veh_kilometres r) (veh_license_plate r) (veh_price_usd r) (veh_price_ars r)
    None (veh_created_at r) (veh_updated_at r) (veh_last_synced_at r)
    (veh_asofix_updated_at r) (veh_version_hash r) (veh_additional_data r).

(** [SELECT ... FROM vehicles WHERE id = ?], first row. *)
Definition selectVehicleById (w : World) (i : Z) : option VehicleRow :=
  List.find (whereId i) (vehicles w).

(** SyncService.findVehicleByAsofixId *)
Definition findVehicleByAsofixId (w : World) (asofixId : string) : option Z :=
  veh_id <$> List.find (whereAsofixId asofixId) (vehicles w).

(** [if (existingId)] *)
Definition truthyId (x : option Z) : bool :=
  match x with
  | Some i => negb (i =? 0)
  | None => false
  end.

(** *** Statements on [vehicle_images] and [pending_images] *)

Definition imageOf (vehicleId : Z) (imageUrl : string) (r : ImageRow) : bool :=
  (img_vehicle_id r =? vehicleId) && String.eqb (img_image_url r) imageUrl.

Definition pendingOf (vehicleId : Z) (imageUrl : string) (r : PendingRow) : bool :=
  (pend_vehicle_id r =? vehicleId) && String.eqb (pend_image_url r) imageUrl.

Definition inStrings (u : string) (l : list string) : bool :=
  existsb (String.eqb u) l.

(** [DELETE FROM vehicle_images WHERE vehicle_id = ? AND image_url IN (...)],
    with the cascade on [vehicles.featured_image_id]. *)
Definition deleteImages (vehicleId : Z) (urls : list string) (w : World) : World :=
  let gone (r : ImageRow) := (img_vehicle_id r =? vehicleId) && inStrings (img_image_url r) urls in
  let removed := List.map img_id (List.filter gone (vehicle_images w)) in
  let w1 := setImages w (List.filter (fun r => negb (gone r)) (vehicle_images w)) in
  updateVehicles
    (fun r => match veh_featured_image_id r with
              | Some i => existsb (Z.eqb i) removed
              | None => false
              end)
    clearFeatured w1.

(** [DELETE FROM pending_images WHERE vehicle_id = ?] *)
Definition deletePendingOfVehicle (vehicleId : Z) (w : World) : World :=
  setPending w (List.filter (fun r => negb (pend_vehicle_id r =? vehicleId)) (pending_images w)).

(** [DELETE FROM pending_images WHERE vehicle_id = ? AND image_url = ?] *)
Definition deletePending (vehicleId : Z) (imageUrl : string) (w : World) : World :=
  setPending w (List.filter (fun r => negb (pendingOf vehicleId imageUrl r)) (pending_images w)).

(** [INSERT INTO pending_images (vehicle_id, image_url) VALUES (?, ?)]; the
    foreign key [pending_images_ibfk_1] rejects it ([None]) when no vehicle
    has the id. *)
Definition insertPending (vehicleId : Z) (imageUrl : string) (w : World) : option World :=
  if existsb (whereId vehicleId) (vehicles w) then
    Some (mkWorld (vehicles w) (vehicle_images w)
            (pending_images w ++ [mkPendingRow (next_pending_id w) vehicleId imageUrl])
            (taxonomy_terms w) (vehicle_taxonomies w)
            (next_vehicle_id w) (next_image_id w) (next_pending_id w + 1) (next_term_id w)
            (next_vt_id w) (files w) (requests w))
  else None.

(** [for (const url of imageUrls)] inside the [try] of savePendingImages: a
    rejected INSERT throws, the catch block logs it and the URLs left are
    skipped. *)
Fixpoint insertPendingLoop (vehicleId : Z) (imageUrls : list string) (w : World) : World :=
  match imageUrls with
  | [] => w
  | url_ :: rest =>
      match insertPending vehicleId url_ w with
      | Some w1 => insertPendingLoop vehicleId rest w1
      | None => w
      end
  end.

(** SyncService.savePendingImages *)
Definition savePendingImages (vehicleId : Z) (imageUrls : list string) (w : World) : World :=
  match imageUrls with
  | [] => w
  | _ => insertPendingLoop vehicleId imageUrls (deletePendingOfVehicle vehicleId w)
  end.

(** *** Taxonomies *)

(** SyncService.getOrCreateTerm; the SELECT compares both columns under
    their collation, so the INSERT that follows an empty answer cannot meet
    the unique key [unique_taxonomy_name]. *)
Definition getOrCreateTerm (env : Env) (taxonomy termName : string) (w : World)
    : option Z * World :=
  if String.eqb termName "" || String.eqb (trim termName) "" then (None, w)
  else
    match List.find (fun t => sameText env (term_taxonomy t) taxonomy &&
                              sameText env (term_name t) (trim termName))
                    (taxonomy_terms w) with
    | Some t => (Some (term_id t), w)
    | None =>
        let insertId := next_term_id w in
        (Some insertId,
         setTerms w (taxonomy_terms w ++ [mkTermRow insertId taxonomy (trim termName)])
                  (insertId + 1))
    end.

(** The entries of [taxonomyMap], in the order of [Object.entries]. *)
Definition taxonomyMap (vehicle : AsofixVehicle) : list (string * option string) :=
  let orNull (x : option string) := if truthyStr x then x else None in
  [ ("brand", orNull (brand_name vehicle));
    ("model", orNull (model_name vehicle));
    ("condition", Some (match car_condition vehicle with
                        | Some cond_new => "0KM"
                        | _ => "Usado"
                        end));
    ("transmission", orNull (car_transmission vehicle));
    ("fuel_type", orNull (car_fuel_type vehicle));
    ("color", match colors vehicle with
              | Some (c :: _) => orNull (color_name c)
              | _ => None
              end);
    ("segment", orNull (car_segment vehicle)) ].

(** One round of the loop of assignTaxonomies: the DELETE (its [taxonomy]
    column compared under the collation), then the INSERT, which the foreign
    keys reject when no vehicle has the id ([vehicle_taxonomies_ibfk_1]) or
    no term has the term id ([vehicle_taxonomies_ibfk_2]); the catch block
    logs the rejection and the loop goes on. After the DELETE the vehicle
    has no row in the taxonomy, so the INSERT cannot meet the unique key
    [unique_vehicle_taxonomy]. *)
Definition assignTaxonomy (env : Env) (vehicleId : Z) (entry : string * option string)
    (w : World) : World :=
  match snd entry with
  | None => w
  | Some termName =>
      let '(termId, w1) := getOrCreateTerm env (fst entry) termName w in
      if truthyId termId then
        let kept := List.filter
                      (fun r => negb ((vt_vehicle_id r =? vehicleId) &&
                                      sameText env (vt_taxonomy r) (fst entry)))
                      (vehicle_taxonomies w1) in
        if existsb (whereId vehicleId) (vehicles w1) &&
           existsb (fun t => term_id t =? default 0 termId) (taxonomy_terms w1) then
          setVehicleTaxonomies w1
            (kept ++ [mkVehicleTaxonomyRow (next_vt_id w1) vehicleId (fst entry)
                        (default 0 termId)])
            (next_vt_id w1 + 1)
        else setVehicleTaxonomies w1 kept (next_vt_id w1)
      else w1
  end.

(** SyncService.assignTaxonomies *)
Definition assignTaxonomies (env : Env) (vehicleId : Z) (vehicle : AsofixVehicle) (w : World)
    : World :=
  List.fold_left (fun acc e => assignTaxonomy env vehicleId e acc) (taxonomyMap vehicle) w.

(** SyncService.setVehicleMetadata *)
Definition setVehicleMetadata (now vehicleId : Z) (vehicle : AsofixVehicle) (w : World) : World :=
  let km := numOr0 (kilometres vehicle) in
  let finalKilometres := if km <? 100 then 0 else km in
  let price_ := listPrice vehicle in
  let currency := toLowerCase (match price vehicle with
                               | Some p => strOr (currency_name p) ""
                               | None => ""
                               end) in
  let '(priceUsd, priceArs) :=
    if includes currency "dolar" || includes currency "usd" then
      (if 1000 <=? price_ then Some price_ else None, None)
    else if 901000 <? price_ then (None, Some price_)
    else if (1000 <=? price_) && (price_ <=? 900000) then (Some price_, None)
    else (None, None) in
  let yr := match year vehicle with
            | Some y => if y =? 0 then None else Some y
            | None => None
            end in
  let plate := if truthyStr (license_plate vehicle) then license_plate vehicle else None in
  updateVehicles (whereId vehicleId)
    (setMetadata finalKilometres yr plate priceUsd priceArs now) w.

(** ** SyncService.needsUpdate *)
Definition needsUpdate (w : World) (asofixId newHash : string) : bool :=
  match List.find (whereAsofixId asofixId) (vehicles w) with
  | None => true
  | Some r =>
      match veh_version_hash r with
      | Some currentHash => negb (String.eqb currentHash newHash)
      | None => true
      end
  end.

(** ** SyncService.processVehicle *)

Record ProcessResult := mkProcessResult {
  success : bool;
  message : string;
  vehicleId : option Z;
  wasNew : option bool;
  wasUpdated : option bool;
  filtered : option bool
}.

(** The bucket written to [additional_data.filter_reason] on archival. *)
Definition filterReasonOf (reason_ : option string) : string :=
  let has (needle : string) :=
    match reason_ with
    | Some r => includes (toLowerCase r) needle
    | None => false
    end in
  if has "dakota" || has "location_name" then "dakota_location"
  else if has "precio" then "min_price"
  else if has "estado" then "blocked_status"
  else if has "imagen" then "no_images"
  else if has "stock" then "no_active_stock"
  else "unknown".

(** The archive branch: the SELECT of [additional_data] and the UPDATE. *)
Definition archiveFiltered (now existingId : Z) (reason_ : option string) (w : World) : World :=
  let additionalData :=
    parseAdditionalData
      (match selectVehicleById w existingId with
       | Some r => veh_additional_data r
       | None => col_null
       end) in
  let additionalData := objSet additionalData "filter_reason" (JStr (filterReasonOf reason_)) in
  updateVehicles (whereId existingId) (setStatusData archived additionalData now) w.

(** The reactivation of an archived vehicle that passes the filters. *)
Definition reactivateIfArchived (now existingId : Z) (w : World) : World :=
  match selectVehicleById w existingId with
  | Some r =>
      if decide (veh_status r = archived) then
        let additionalData :=
          objDeleteIfTruthy (parseAdditionalData (veh_additional_data r)) "filter_reason" in
        updateVehicles (whereId existingId) (setStatusData published additionalData now) w
      else w
  | None => w
  end.

Definition jsonOfOptStr (x : option string) : json :=
  if truthyStr x then JStr (default "" x) else JNull.

Definition jsonOfOptNum (x : option Z) : json :=
  match x with
  | Some n => if n =? 0 then JNull else JNum n
  | None => JNull
  end.

(** A field that [JSON.stringify] prints only when it is defined. *)
Definition optField (k : string) (x : option string) : JsObject :=
  match x with
  | Some s => [(k, JStr s)]
  | None => []
  end.

Definition stockInfo (s : Stock) : json :=
  JObj (optField "status" (stock_status s) ++
        optField "branch_office_name" (branch_office_name s) ++
        optField "location_name" (location_name s)).

(** The [additionalData] object written by the upsert. *)
Definition newAdditionalData (vehicle : AsofixVehicle) : JsObject :=
  [ ("version", jsonOfOptStr (version vehicle));
    ("brand_id", jsonOfOptNum (brand_id vehicle));
    ("model_id", jsonOfOptNum (model_id vehicle));
    ("stock_info", JArr (List.map stockInfo (default [] (stocks vehicle))));
    ("colors", JArr (List.map (fun c => JObj (optField "name" (color_name c)))
                       (default [] (colors vehicle))));
    ("original_price",
       match price vehicle with
       | Some p => JObj (match list_price p with
                         | Some n => [("list_price", JNum n)]
                         | None => []
                         end ++ optField "currency_name" (currency_name p))
       | None => JNull
       end) ].

(** [SELECT image_url FROM vehicle_images WHERE vehicle_id = ?], truthy URLs. *)
Definition existingImageUrls (w : World) (vehicleId_ : Z) : list string :=
  List.filter (fun u => negb (String.eqb u ""))
    (List.map img_image_url
       (List.filter (fun r => img_vehicle_id r =? vehicleId_) (vehicle_images w))).

(** [INSERT INTO vehicles (asofix_id, title, content, status, version_hash,
    last_synced_at, asofix_updated_at, additional_data, created_at, updated_at)] *)
Definition insertVehicle (now : Z) (asofixId title_ content_ hash : string) (ad : JsObject)
    (w : World) : Z * World :=
  let insertId := next_vehicle_id w in
  (insertId,
   mkWorld (vehicles w ++ [mkVehicleRow insertId asofixId title_ (Some content_) published
                             None (Some 0) None None None None (Some now) (Some now)
                             (Some now) (Some now) (Some hash) (col_object ad)])
     (vehicle_images w) (pending_images w) (taxonomy_terms w) (vehicle_taxonomies w)
     (insertId + 1) (next_image_id w) (next_pending_id w) (next_term_id w) (next_vt_id w)
     (files w) (requests w)).

Definition processVehicle (env : Env) (now : Z) (vehicle : AsofixVehicle) (incremental : bool)
    (w : World) : ProcessResult * World :=
  let asofixId := api_id vehicle in
  if String.eqb asofixId "" then
    (mkProcessResult false "Falta Asofix ID" None None None None, w)
  else
    let verdict := shouldOmitVehicle (filterConfig env) vehicle in
    let existingId := findVehicleByAsofixId w asofixId in
    if omit verdict then
      let w1 := if truthyId existingId
                then archiveFiltered now (default 0 existingId) (reason verdict) w
                else w in
      (mkProcessResult true ("FILTRADO: " +:+ default "undefined" (reason verdict))
         None None None (Some true), w1)
    else
      let w1 := if truthyId existingId
                then reactivateIfArchived now (default 0 existingId) w
                else w in
      let versionHash := generateVersionHash env vehicle in
      if incremental && negb (needsUpdate w1 asofixId versionHash) then
        (mkProcessResult true ("Sin cambios para " +:+ asofixId) None (Some false) (Some false) None,
         updateVehicles (whereAsofixId asofixId) (setLastSynced now) w1)
      else
        let title_ :=
          if String.eqb (titleOf vehicle) ""
          then "Vehículo Asofix ID: " +:+ asofixId
          else titleOf vehicle in
        let content_ := strOr (description vehicle) "" in
        let additionalData := newAdditionalData vehicle in
        let existingId := findVehicleByAsofixId w1 asofixId in
        let wasNew_ := negb (truthyId existingId) in
        let wasUpdated_ := truthyId existingId in
        let finish (vehicleId_ : Z) (w2 : World) :=
          let w3 := assignTaxonomies env vehicleId_ vehicle w2 in
          let w4 := setVehicleMetadata now vehicleId_ vehicle w3 in
          let w5 := if wasNew_ then savePendingImages vehicleId_ (imageUrlsOf vehicle) w4 else w4 in
          (mkProcessResult true
             (if wasNew_
              then "NUEVO: " +:+ asofixId +:+ " creado (Vehicle ID: " +:+ showNumber vehicleId_ +:+ ")"
              else "ACTUALIZADO: " +:+ asofixId +:+ " (Vehicle ID: " +:+ showNumber vehicleId_ +:+ ")")
             (Some vehicleId_) (Some wasNew_) (Some wasUpdated_) None, w5) in
        if truthyId existingId then
          let vehicleId_ := default 0 existingId in
          let w2 := updateVehicles (whereId vehicleId_)
                      (setListing title_ content_ versionHash additionalData now) w1 in
          let newImageUrls := imageUrlsOf vehicle in
          let existingUrls := existingImageUrls w2 vehicleId_ in
          let urlsToDelete := List.filter (fun u => negb (inStrings u newImageUrls)) existingUrls in
          let urlsToAdd := List.filter (fun u => negb (inStrings u existingUrls)) newImageUrls in
          let w3 := match urlsToDelete with
                    | [] => w2
                    | _ => deleteImages vehicleId_ urlsToDelete w2
                    end in
          let w4 := match urlsToAdd with
                    | [] => deletePendingOfVehicle vehicleId_ w3
                    | _ => savePendingImages vehicleId_ urlsToAdd w3
                    end in
          finish vehicleId_ w4
        else
          match existingId with
          | Some _ =>
              (* the unique key on asofix_id rejects the INSERT; the catch
                 block reports the failure *)
              (mkProcessResult false
                 ("Error: Duplicate entry '" +:+ asofixId +:+ "' for key 'vehicles.asofix_id'")
                 None None None None, w1)
          | None =>
              let '(vehicleId_, w2) :=
                insertVehicle now asofixId title_ content_ versionHash additionalData w1 in
              finish vehicleId_ w2
          end.

(** ** The image pipeline *)

Record DownloadResult := mkDownloadResult {
  d_success : bool;
  d_message : string;
  d_imageId : option Z
}.

(** SyncService.getPendingImages: [SELECT vehicle_id, image_url FROM
    pending_images ORDER BY id]. *)
Definition pendLe (a b : PendingRow) : Prop := pend_id a <= pend_id b.

#[global] Instance pendLe_dec : RelDecision pendLe.
Proof. intros a b. unfold pendLe. apply _. Defined.

Definition getPendingImages (w : World) : list (Z * string) :=
  List.map (fun r => (pend_vehicle_id r, pend_image_url r))
    (merge_sort pendLe (pending_images w)).

(** [INSERT INTO vehicle_images (vehicle_id, image_url, file_path)]; the other
    columns take their defaults ([is_featured] 0, [sort_order] 0). *)
Definition insertImage (vehicleId_ : Z) (imageUrl filePath : string) (w : World) : Z * World :=
  let insertId := next_image_id w in
  (insertId,
   mkWorld (vehicles w)
     (vehicle_images w ++ [mkImageRow insertId vehicleId_ imageUrl (Some filePath) false 0])
     (pending_images w) (taxonomy_terms w) (vehicle_taxonomies w)
     (next_vehicle_id w) (insertId + 1) (next_pending_id w) (next_term_id w) (next_vt_id w)
     (files w) (requests w)).

(** [axios.get(highResUrl, ...)]: the request is logged. *)
Definition logRequest (u : Z * string) (w : World) : World :=
  mkWorld (vehicles w) (vehicle_images w) (pending_images w) (taxonomy_terms w)
    (vehicle_taxonomies w) (next_vehicle_id w) (next_image_id w) (next_pending_id w)
    (next_term_id w) (next_vt_id w) (files w) (requests w ++ [u]).

(** [fs.writeFileSync(filePath, response.data)] *)
Definition writeFile (filePath body : string) (w : World) : World :=
  mkWorld (vehicles w) (vehicle_images w) (pending_images w) (taxonomy_terms w)
    (vehicle_taxonomies w) (next_vehicle_id w) (next_image_id w) (next_pending_id w)
    (next_term_id w) (next_vt_id w) ((filePath, body) :: files w) (requests w).

(** [SELECT COUNT( * ) FROM vehicle_images WHERE vehicle_id = ?] *)
Definition countImages (w : World) (vehicleId_ : Z) : nat :=
  List.length (List.filter (fun r => img_vehicle_id r =? vehicleId_) (vehicle_images w)).

Definition downloadImage (env : Env) (now : Z) (imageUrl : string) (vehicleId_ : Z) (w : World) : DownloadResult * World :=
  match List.find (imageOf vehicleId_ imageUrl) (vehicle_images w) with
  | Some existingImage =>
      (mkDownloadResult true ("Imagen ya existe para vehículo " +:+ showNumber vehicleId_)
         (Some (img_id existingImage)),
       deletePending vehicleId_ imageUrl w)
  | None =>
      let highResUrl := replaceFirst imageUrl "/th-" "/" in
      let w1 := logRequest (vehicleId_, imageUrl) w in
      match httpGet env highResUrl with
      | http_error msg => (mkDownloadResult false ("Error: " +:+ msg) None, w1)
      | http_ok body =>
          let filePath := storagePath env vehicleId_ highResUrl in
          let w2 := writeFile filePath body w1 in
          if existsb (whereId vehicleId_) (vehicles w2) then
            let '(imageId, w3) := insertImage vehicleId_ imageUrl filePath w2 in
            let w4 := if Nat.eqb (countImages w3 vehicleId_) 1
                      then updateVehicles (whereId vehicleId_) (setFeatured imageId now) w3
                      else w3 in
            (mkDownloadResult true ("Imagen descargada para vehículo " +:+ showNumber vehicleId_)
               (Some imageId),
             deletePending vehicleId_ imageUrl w4)
          else
            (* vehicle_images_ibfk_1 rejects the INSERT; the catch block
               reports the failure *)
            (mkDownloadResult false
               "Error: Cannot add or update a child row: a foreign key constraint fails" None,
             w2)
      end
  end.

Record ImageCounters := mkImageCounters {
  ic_processed : Z;
  ic_created : Z;
  ic_errors : Z
}.

(** The loop of downloadAllImages over the jobs read at its start. *)
Fixpoint downloadLoop (env : Env) (now : Z)
    (jobs : list (Z * string)) (c : ImageCounters) (w : World) : ImageCounters * World :=
  match jobs with
  | [] => (c, w)
  | (vehicle_id, image_url) :: rest =>
      let '(result, w1) := downloadImage env now image_url vehicle_id w in
      let c1 :=
        if d_success result then
          mkImageCounters (ic_processed c + 1)
            (if truthyId (d_imageId result) then ic_created c + 1 else ic_created c)
            (ic_errors c)
        else mkImageCounters (ic_processed c) (ic_created c) (ic_errors c + 1) in
      downloadLoop env now rest c1 w1
  end.

(** SyncService.downloadAllImages *)
Definition downloadAllImages (env : Env) (now : Z) (w : World) : ImageCounters * World :=
  downloadLoop env now (getPendingImages w) (mkImageCounters 0 0 0) w.

(** ** AsofixApi.getVehicleByLicensePlate *)

Record Meta := mkMeta {
  current_page : option Z;
  total_pages : option Z;
  total_count : option Z
}.

Record AsofixApiResponse := mkResponse {
  data : option (list AsofixVehicle);
  meta : option Meta
}.

Inductive PageOutcome :=
| page_ok (response : AsofixApiResponse)
| page_throws (msg : string).

(** The client: its key, [getVehiclesPage page perPage] and
    ASOFIX_SEARCH_MAX_PAGES. *)
Record Api := mkApi {
  apiKey : string;
  getVehiclesPage : Z -> Z -> PageOutcome;
  maxPages : nat
}.

Inductive LookupOutcome :=
| lookup_found (v : AsofixVehicle)
| lookup_null
| lookup_throws (msg : string).

Definition plateMatches (normalizedLicensePlate : string) (v : AsofixVehicle) : bool :=
  match license_plate v with
  | Some p => negb (String.eqb p "") && String.eqb (toUpperCase (trim p)) normalizedLicensePlate
  | None => false
  end.

Definition maxConsecutiveErrors : nat := 3.

(** The [while (hasMore && pagesSearched < maxPages)] loop; [fuel] bounds the
    rounds left (every round that does not leave the loop searches a page). *)
Fixpoint searchPages (api : Api) (normalizedLicensePlate : string) (fuel : nat)
    (currentPage : Z) (pagesSearched consecutiveErrors : nat) : option AsofixVehicle :=
  match fuel with
  | O => None
  | S fuel' =>
      if negb (pagesSearched <? maxPages api)%nat then None
      else
        match getVehiclesPage api currentPage 100 with
        | page_ok response =>
            let pageVehicles := default [] (data response) in
            match List.find (plateMatches normalizedLicensePlate) pageVehicles with
            | Some foundVehicle => Some foundVehicle
            | None =>
                let hasMore :=
                  match meta response with
                  | Some (mkMeta (Some cur) (Some tot) _) =>
                      if (cur =? 0) || (tot =? 0)
                      then negb (Nat.eqb (List.length pageVehicles) 0)
                      else cur <? tot
                  | _ => negb (Nat.eqb (List.length pageVehicles) 0)
                  end in
                if hasMore
                then searchPages api normalizedLicensePlate fuel' (currentPage + 1)
                       (S pagesSearched) 0%nat
                else None
            end
        | page_throws _ =>
            if (maxConsecutiveErrors <=? S consecutiveErrors)%nat then None
            else searchPages api normalizedLicensePlate fuel' (currentPage + 1)
                   (S pagesSearched) (S consecutiveErrors)
        end
  end.

Definition getVehicleByLicensePlate (api : Api) (licensePlate : string) : LookupOutcome :=
  if String.eqb (apiKey api) "" then
    lookup_throws "La API Key no está configurada. Verifica tu archivo .env"
  else if String.eqb licensePlate "" || isBlank licensePlate then
    lookup_throws "El license_plate es requerido"
  else
    match searchPages api (toUpperCase (trim licensePlate)) (maxPages api) 1 0%nat 0%nat with
    | Some v => lookup_found v
    | None => lookup_null
    end.

(** ** The orchestrator: reconcile batches and cleanup (syncAll) *)

Record RunState := mkRunState {
  world : World;
  validVehicleIds : gset string;
  fase1Processed : Z;
  fase1Created : Z;
  fase1Updated : Z;
  fase1Errors : Z;
  fase1Filtered : Z;
  fase1Archived : Z
}.

(** What one call of processVehicle can do to its caller. *)
Inductive ProcOutcome :=
| Returned (result : ProcessResult)
| Threw (msg : string).

Definition Processor := AsofixVehicle -> bool -> World -> ProcOutcome * World.

(** The processor of the service; the statements it sends are accepted, so
    it returns. *)
Definition processVehicleStep (env : Env) (now : Z) : Processor :=
  fun vehicle incremental w =>
    let '(result, w') := processVehicle env now vehicle incremental w in
    (Returned result, w').

Definition maxRetries : nat := 3.

(** [vehicle.id || 'ID_DESCONOCIDO'] *)
Definition asofixIdOf (vehicle : AsofixVehicle) : string :=
  strOr (Some (api_id vehicle)) "ID_DESCONOCIDO".

(** [asofixId && asofixId !== 'ID_DESCONOCIDO'] *)
Definition knownId (asofixId : string) : bool :=
  negb (String.eqb asofixId "") && negb (String.eqb asofixId "ID_DESCONOCIDO").

(** The two error paths: [const { omit } = shouldOmitVehicle(vehicle);
    if (!omit && asofixId && asofixId !== 'ID_DESCONOCIDO') validVehicleIds.add(asofixId)] *)
Definition addIfAdmissible (env : Env) (vehicle : AsofixVehicle) (valid : gset string)
    : gset string :=
  if negb (omit (shouldOmitVehicle (filterConfig env) vehicle)) && knownId (asofixIdOf vehicle)
  then {[asofixIdOf vehicle]} ∪ valid
  else valid.

Definition isTrue (x : option bool) : bool := default false x.

(** The body of the [try] once processVehicle has returned. *)
Definition afterReturn (env : Env) (vehicle : AsofixVehicle) (result : ProcessResult)
    (st : RunState) (w : World) : RunState :=
  let asofixId := asofixIdOf vehicle in
  let unchanged := includes (message result) "Sin cambios" in
  let valid1 :=
    if success result && negb (isTrue (filtered result)) && knownId asofixId
    then {[asofixId]} ∪ validVehicleIds st
    else if success result && unchanged && knownId asofixId
    then {[asofixId]} ∪ validVehicleIds st
    else validVehicleIds st in
  if success result then
    if isTrue (filtered result) then
      mkRunState w valid1 (fase1Processed st) (fase1Created st) (fase1Updated st)
        (fase1Errors st) (fase1Filtered st + 1) (fase1Archived st)
    else if unchanged then
      mkRunState w valid1 (fase1Processed st) (fase1Created st) (fase1Updated st)
        (fase1Errors st) (fase1Filtered st) (fase1Archived st)
    else
      mkRunState w valid1 (fase1Processed st + 1)
        (if isTrue (wasNew result) then fase1Created st + 1 else fase1Created st)
        (if isTrue (wasNew result) then fase1Updated st
         else if isTrue (wasUpdated result) then fase1Updated st + 1 else fase1Updated st)
        (fase1Errors st) (fase1Filtered st) (fase1Archived st)
  else
    mkRunState w (addIfAdmissible env vehicle valid1) (fase1Processed st) (fase1Created st)
      (fase1Updated st) (fase1Errors st + 1) (fase1Filtered st) (fase1Archived st).

(** [while (retryCount < maxRetries && !success)]; [fuel] bounds the rounds
    left. *)
Fixpoint retryLoop (env : Env) (process : Processor) (incremental : bool)
    (vehicle : AsofixVehicle) (fuel retryCount : nat) (st : RunState) : RunState :=
  match fuel with
  | O => st
  | S fuel' =>
      if negb (retryCount <? maxRetries)%nat then st
      else
        match process vehicle incremental (world st) with
        | (Returned result, w) => afterReturn env vehicle result st w
        | (Threw _, w) =>
            let retryCount := S retryCount in
            if (maxRetries <=? retryCount)%nat then
              mkRunState w (addIfAdmissible env vehicle (validVehicleIds st))
                (fase1Processed st) (fase1Created st) (fase1Updated st)
                (fase1Errors st + 1) (fase1Filtered st) (fase1Archived st)
            else
              retryLoop env process incremental vehicle fuel' retryCount
                (mkRunState w (validVehicleIds st) (fase1Processed st) (fase1Created st)
                   (fase1Updated st) (fase1Errors st) (fase1Filtered st) (fase1Archived st))
        end
  end.

(** One record of a batch, from [retryCount = 0]. *)
Definition reconcileVehicle (env : Env) (process : Processor) (incremental : bool)
    (vehicle : AsofixVehicle) (st : RunState) : RunState :=
  retryLoop env process incremental vehicle maxRetries 0%nat st.

(** [for (const vehicle of batch)] with the [break] on the limit. *)
Fixpoint reconcileBatch (env : Env) (process : Processor) (incremental : bool) (limit : Z)
    (batch : list AsofixVehicle) (st : RunState) : RunState :=
  match batch with
  | [] => st
  | vehicle :: rest =>
      if (0 <? limit) && (limit <=? fase1Processed st) then st
      else reconcileBatch env process incremental limit rest
             (reconcileVehicle env process incremental vehicle st)
  end.

(** [for (let i = 0; i < all.length; i += batchSize)]; [fuel] bounds the
    number of batches. *)
Fixpoint reconcileBatches (env : Env) (process : Processor) (incremental : bool) (limit : Z)
    (batchSize : nat) (fuel : nat) (remaining : list AsofixVehicle) (st : RunState) : RunState :=
  match fuel with
  | O => st
  | S fuel' =>
      match remaining with
      | [] => st
      | _ =>
          reconcileBatches env process incremental limit batchSize fuel'
            (List.skipn batchSize remaining)
            (reconcileBatch env process incremental limit (List.firstn batchSize remaining) st)
      end
  end.

(** *** Cleanup *)

Definition graceMs : Z := 48 * 60 * 60 * 1000.

(** The SELECT of the cleanup phase: published, not in the tracker, last
    update older than 48 hours or unknown; at most 10000 rows. *)
Definition cleanupCandidates (dbNow : Z) (valid : gset string) (w : World) : list VehicleRow :=
  List.firstn (Z.to_nat 10000)
    (List.filter
       (fun r => bool_decide (veh_status r = published) &&
                 negb (bool_decide (veh_asofix_id r ∈ valid)) &&
                 match veh_updated_at r with
                 | Some t => t <? dbNow - graceMs
                 | None => true
                 end)
       (vehicles w)).

(** The archival of the cleanup phase. *)
Definition archiveCleanup (env : Env) (dbNow jsNow : Z) (vehicle : VehicleRow)
    (verificationReason : string) (st : RunState) : RunState :=
  let additionalData :=
    parseAdditionalData
      (match selectVehicleById (world st) (veh_id vehicle) with
       | Some r => veh_additional_data r
       | None => col_null
       end) in
  let additionalData := objSet additionalData "filter_reason" (JStr "not_in_valid_set") in
  let additionalData := objSet additionalData "cleanup_verification" (JStr verificationReason) in
  let additionalData := objSet additionalData "archived_at" (JStr (toISOString env jsNow)) in
  mkRunState
    (updateVehicles (whereId (veh_id vehicle)) (setStatusData archived additionalData dbNow)
       (world st))
    (validVehicleIds st) (fase1Processed st) (fase1Created st) (fase1Updated st)
    (fase1Errors st) (fase1Filtered st) (fase1Archived st + 1).

Definition keepValid (vehicle : VehicleRow) (st : RunState) : RunState :=
  mkRunState (world st) ({[veh_asofix_id vehicle]} ∪ validVehicleIds st) (fase1Processed st)
    (fase1Created st) (fase1Updated st) (fase1Errors st) (fase1Filtered st) (fase1Archived st).

(** One round of [for (const vehicle of publishedVehicles)]; [vehicle] is the
    row as the SELECT returned it. *)
Definition cleanupVehicle (env : Env) (lookup : string -> LookupOutcome) (dbNow jsNow : Z)
    (vehicle : VehicleRow) (st : RunState) : RunState :=
  let vehicleRow := selectVehicleById (world st) (veh_id vehicle) in
  let licensePlate := vehicleRow ≫= veh_license_plate in
  let additionalData :=
    parseAdditionalData (match vehicleRow with
                         | Some r => veh_additional_data r
                         | None => col_null
                         end) in
  let recent := match veh_updated_at vehicle with
                | Some t => jsNow - t <? graceMs
                | None => false
                end in
  match objGet additionalData "keep_published" with
  | Some (JBool true) => keepValid vehicle st
  | _ =>
      if recent then keepValid vehicle st
      else
        match licensePlate with
        | Some plate =>
            if negb (String.eqb plate "") && negb (isBlank plate) then
              match lookup plate with
              | lookup_found apiVehicle =>
                  if String.eqb (api_id apiVehicle) (veh_asofix_id vehicle) then
                    let verdict := shouldOmitVehicle (filterConfig env) apiVehicle in
                    if negb (omit verdict) then keepValid vehicle st
                    else archiveCleanup env dbNow jsNow vehicle
                           ("filtrado_en_api: " +:+ default "undefined" (reason verdict)) st
                  else archiveCleanup env dbNow jsNow vehicle "no_encontrado_en_api" st
              | lookup_null => archiveCleanup env dbNow jsNow vehicle "no_encontrado_en_api" st
              | lookup_throws msg =>
                  archiveCleanup env dbNow jsNow vehicle ("error_consulta_api: " +:+ msg) st
              end
            else archiveCleanup env dbNow jsNow vehicle "sin_license_plate" st
        | None => archiveCleanup env dbNow jsNow vehicle "sin_license_plate" st
        end
  end.

(** The cleanup phase of syncAll ([if (validVehicleIds.size > 0) ... else
    skip]). *)
Definition cleanupPhase (env : Env) (lookup : string -> LookupOutcome) (dbNow jsNow : Z)
    (st : RunState) : RunState :=
  if (0 <? size (validVehicleIds st))%nat then
    List.fold_left (fun acc vehicle => cleanupVehicle env lookup dbNow jsNow vehicle acc)
      (cleanupCandidates dbNow (validVehicleIds st) (world st)) st
  else st.

(** ** VehicleFilters.filterVehicles *)

Record FilterOutcome := mkFilterOutcome {
  fv_filtered : list AsofixVehicle;
  fv_omitted : Z;
  fv_reasons : list (string * Z)        (* Record<string, number>, in key order *)
}.

(** [reasons[reason] = (reasons[reason] || 0) + 1] *)
Fixpoint bumpReason (reasons : list (string * Z)) (r : string) : list (string * Z) :=
  match reasons with
  | [] => [(r, 0 + 1)]
  | (k, c) :: rest =>
      if String.eqb k r then (k, c + 1) :: rest else (k, c) :: bumpReason rest r
  end.

(** One round of [for (const vehicle of vehicles)]. *)
Definition filterVehiclesStep (cfg : FilterConfig) (acc : FilterOutcome)
    (vehicle : AsofixVehicle) : FilterOutcome :=
  let verdict := shouldOmitVehicle cfg vehicle in
  if omit verdict then
    mkFilterOutcome (fv_filtered acc) (fv_omitted acc + 1)
      (if truthyStr (reason verdict)
       then bumpReason (fv_reasons acc) (default "" (reason verdict))
       else fv_reasons acc)
  else
    mkFilterOutcome (fv_filtered acc ++ [vehicle]) (fv_omitted acc) (fv_reasons acc).

Definition filterVehicles (cfg : FilterConfig) (vehicles_ : list AsofixVehicle) : FilterOutcome :=
  List.fold_left (filterVehiclesStep cfg) vehicles_ (mkFilterOutcome [] 0 []).

(** ** AsofixApi.getVehicleByOrigin and fetchAllActiveVehicles *)

Definition originMatches (normalizedOrigin : string) (v : AsofixVehicle) : bool :=
  match origin v with
  | Some o => negb (String.eqb o "") && String.eqb (toUpperCase (trim o)) normalizedOrigin
  | None => false
  end.

(** The search loop of getVehicleByOrigin (the same loop as for the license
    plate, on the [origin] field). *)
Fixpoint searchPagesByOrigin (api : Api) (normalizedOrigin : string) (fuel : nat)
    (currentPage : Z) (pagesSearched consecutiveErrors : nat) : option AsofixVehicle :=
  match fuel with
  | O => None
  | S fuel' =>
      if negb (pagesSearched <? maxPages api)%nat then None
      else
        match getVehiclesPage api currentPage 100 with
        | page_ok response =>
            let pageVehicles := default [] (data response) in
            match List.find (originMatches normalizedOrigin) pageVehicles with
            | Some foundVehicle => Some foundVehicle
            | None =>
                let hasMore :=
                  match meta response with
                  | Some (mkMeta (Some cur) (Some tot) _) =>
                      if (cur =? 0) || (tot =? 0)
                      then negb (Nat.eqb (List.length pageVehicles) 0)
                      else cur <? tot
                  | _ => negb (Nat.eqb (List.length pageVehicles) 0)
                  end in
                if hasMore
                then searchPagesByOrigin api normalizedOrigin fuel' (currentPage + 1)
                       (S pagesSearched) 0%nat
                else None
            end
        | page_throws _ =>
            if (maxConsecutiveErrors <=? S consecutiveErrors)%nat then None
            else searchPagesByOrigin api normalizedOrigin fuel' (currentPage + 1)
                   (S pagesSearched) (S consecutiveErrors)
        end
  end.

Definition getVehicleByOrigin (api : Api) (origin_ : string) : LookupOutcome :=
  if String.eqb (apiKey api) "" then
    lookup_throws "La API Key no está configurada. Verifica tu archivo .env"
  else if String.eqb origin_ "" || isBlank origin_ then
    lookup_throws "El origin es requerido"
  else
    match searchPagesByOrigin api (toUpperCase (trim origin_)) (maxPages api) 1 0%nat 0%nat with
    | Some v => lookup_found v
    | None => lookup_null
    end.

(** [getVehiclesPage(page)] as its callers see it: without key it throws
    before any request; the default page size is 10. *)
Definition requestPage (api : Api) (page perPage : Z) : PageOutcome :=
  if String.eqb (apiKey api) "" then
    page_throws "La API Key no está configurada. Verifica tu archivo .env"
  else getVehiclesPage api page perPage.

(** The filter of fetchAllActiveVehicles:
    [stocks && stocks.length > 0 && stocks.some(status && upper === 'ACTIVO')] *)
Definition hasActiveStockEntry (v : AsofixVehicle) : bool :=
  match stocks v with
  | Some l => negb (Nat.eqb (List.length l) 0) && existsb isActiveStock l
  | None => false
  end.

(** [while (hasMore)] of fetchAllActiveVehicles; the loop has no bound of its
    own, [fuel] bounds the pages requested. *)
Fixpoint fetchAllActiveVehiclesLoop (api : Api) (fuel : nat) (currentPage : Z)
    (acc : list AsofixVehicle) : list AsofixVehicle :=
  match fuel with
  | O => acc
  | S fuel' =>
      match requestPage api currentPage 10 with
      | page_ok response =>
          let pageVehicles := default [] (data response) in
          let acc' := (acc ++ List.filter hasActiveStockEntry pageVehicles)%list in
          let hasMore :=
            match meta response with
            | Some (mkMeta (Some cur) (Some tot) _) =>
                if (cur =? 0) || (tot =? 0)
                then negb (Nat.eqb (List.length pageVehicles) 0)
                else cur <? tot
            | _ => negb (Nat.eqb (List.length pageVehicles) 0)
            end in
          if hasMore then fetchAllActiveVehiclesLoop api fuel' (currentPage + 1) acc' else acc'
      | page_throws _ => acc
      end
  end.

Definition fetchAllActiveVehicles (api : Api) (fuel : nat) : list AsofixVehicle :=
  fetchAllActiveVehiclesLoop api fuel 1 [].

(** ** AsofixController.getVehicleByLicensePlate (GET /asofix/vehicle/:license_plate) *)

Record HttpReply := mkHttpReply {
  http_status : Z;
  http_success : bool;
  http_message : option string;
  http_data : option AsofixVehicle
}.

Definition controllerGetVehicleByLicensePlate (api : Api) (license_plate_ : option string)
    : HttpReply :=
  match license_plate_ with
  | Some p =>
      if String.eqb p "" || isBlank p then
        mkHttpReply 400 false (Some "El parámetro license_plate es requerido") None
      else
        match getVehicleByLicensePlate api p with
        | lookup_found vehicle => mkHttpReply 200 true None (Some vehicle)
        | lookup_null =>
            mkHttpReply 404 false
              (Some ("No se encontró ningún vehículo con license_plate: " +:+ p)) None
        | lookup_throws msg =>
            if includes msg "API Key" then
              mkHttpReply 500 false
                (Some "Error de configuración: La API Key de Asofix no está configurada correctamente")
                None
            else
              mkHttpReply 500 false
                (Some (if String.eqb msg ""
                       then "Error al buscar vehículo en la API de Asofix" else msg)) None
        end
  | None => mkHttpReply 400 false (Some "El parámetro license_plate es requerido") None
  end.

(** ** SyncService.syncPage and the fetch phase of syncAll *)

Inductive SyncPageOutcome :=
| syncPage_ok (vehicles_ : list AsofixVehicle) (hasMore : bool)
| syncPage_throws (msg : string).

Definition syncPage (api : Api) (page : Z) : SyncPageOutcome :=
  match requestPage api page 10 with
  | page_ok response =>
      let allVehicles := default [] (data response) in
      let hasMore :=
        match meta response with
        | Some m => numOr0 (current_page m) <? numOr0 (total_pages m)
        | None => negb (Nat.eqb (List.length allVehicles) 0)
        end in
      syncPage_ok allVehicles hasMore
  | page_throws msg => syncPage_throws msg
  end.

(** [while (hasMore && (limit === 0 || all.length < limit))]; the records
    fetched and the errors counted. [fuel] bounds the pages requested (the
    loop itself is bounded only by the catalog's answers). *)
Fixpoint fetchLoop (api : Api) (limit : Z) (fuel : nat) (currentPage : Z)
    (allVehiclesFromAPI : list AsofixVehicle) (errors : Z) : list AsofixVehicle * Z :=
  match fuel with
  | O => (allVehiclesFromAPI, errors)
  | S fuel' =>
      if (limit =? 0) || (Z.of_nat (List.length allVehiclesFromAPI) <? limit) then
        match syncPage api currentPage with
        | syncPage_ok vehicles_ hasMore =>
            match vehicles_ with
            | [] => (allVehiclesFromAPI, errors)
            | _ =>
                if hasMore
                then fetchLoop api limit fuel' (currentPage + 1)
                       (allVehiclesFromAPI ++ vehicles_) errors
                else ((allVehiclesFromAPI ++ vehicles_)%list, errors)
            end
        | syncPage_throws _ => (allVehiclesFromAPI, errors + 1)
        end
      else (allVehiclesFromAPI, errors)
  end.

Definition fetchPhase (api : Api) (limit : Z) (fuel : nat) : list AsofixVehicle * Z :=
  fetchLoop api limit fuel 1 [] 0.

(** ** SyncLogger (table [sync_logs]) *)

Inductive SyncType := sync_full | sync_incremental | sync_manual.
Inductive SyncStatus := sync_running | sync_completed | sync_failed.

Record SyncLogRow := mkSyncLogRow {
  sl_id : Z;
  sl_sync_type : SyncType;
  sl_status : SyncStatus;
  sl_vehicles_processed : Z;
  sl_vehicles_created : Z;
  sl_vehicles_updated : Z;
  sl_images_processed : Z;
  sl_images_created : Z;
  sl_errors_count : Z;
  sl_started_at : option Z;
  sl_completed_at : option Z;
  sl_error_message : option string
}.

Record SyncLogs := mkSyncLogs {
  sync_logs : list SyncLogRow;
  next_sync_log_id : Z
}.

Record SyncStats := mkSyncStats {
  vehicles_processed : Z;
  vehicles_created : Z;
  vehicles_updated : Z;
  images_processed : Z;
  images_created : Z;
  errors_count : Z
}.

(** SyncLogger.logSyncStart *)
Definition logSyncStart (now : Z) (syncType : SyncType) (l : SyncLogs) : option Z * SyncLogs :=
  let insertId := next_sync_log_id l in
  (Some insertId,
   mkSyncLogs (sync_logs l ++ [mkSyncLogRow insertId syncType sync_running 0 0 0 0 0 0
                                 (Some now) None None])
     (insertId + 1)).

Definition updateSyncLogs (i : Z) (f : SyncLogRow -> SyncLogRow) (l : SyncLogs) : SyncLogs :=
  mkSyncLogs (List.map (fun r => if sl_id r =? i then f r else r) (sync_logs l))
    (next_sync_log_id l).

(** SyncLogger.logSyncComplete *)
Definition logSyncComplete (now : Z) (syncLogId : option Z) (stats : SyncStats) (l : SyncLogs)
    : SyncLogs :=
  if negb (truthyId syncLogId) then l
  else
    updateSyncLogs (default 0 syncLogId)
      (fun r => mkSyncLogRow (sl_id r) (sl_sync_type r) sync_completed
                  (vehicles_processed stats) (vehicles_created stats) (vehicles_updated stats)
                  (images_processed stats) (images_created stats) (errors_count stats)
                  (sl_started_at r) (Some now) (sl_error_message r))
      l.

(** SyncLogger.logSyncFailed; [stats] is optional and holds
    [vehicles_processed] and [errors_count]. *)
Definition logSyncFailed (now : Z) (syncLogId : option Z) (errorMessage : string)
    (stats : option (Z * Z)) (l : SyncLogs) : SyncLogs :=
  if negb (truthyId syncLogId) then l
  else
    let processed := match stats with Some (p, _) => p | None => 0 end in
    let errors := match stats with
                  | Some (_, e) => if e =? 0 then 1 else e
                  | None => 1
                  end in
    updateSyncLogs (default 0 syncLogId)
      (fun r => mkSyncLogRow (sl_id r) (sl_sync_type r) sync_failed processed
                  (sl_vehicles_created r) (sl_vehicles_updated r) (sl_images_processed r)
                  (sl_images_created r) errors (sl_started_at r) (Some now)
                  (Some (String.substring 0 1000 errorMessage)))
      l.

(** The closing block of syncAll: completed when no error was counted,
    failed otherwise. *)
Definition logSyncEnd (now : Z) (syncLogId : option Z) (fase1Processed_ fase1Created_
    fase1Updated_ fase1Errors_ fase2Processed_ fase2Created_ fase2Errors_ : Z) (l : SyncLogs)
    : SyncLogs :=
  if (fase1Errors_ =? 0) && (fase2Errors_ =? 0) then
    logSyncComplete now syncLogId
      (mkSyncStats fase1Processed_ fase1Created_ fase1Updated_ fase2Processed_ fase2Created_
         (fase1Errors_ + fase2Errors_)) l
  else
    logSyncFailed now syncLogId
      ("Sync completada con errores: " +:+ showNumber fase1Errors_ +:+ " errores en fase1, " +:+
       showNumber fase2Errors_ +:+ " errores en fase2")
      (Some (fase1Processed_, fase1Errors_ + fase2Errors_)) l.

(** ** The reactivation phase of syncAll (phase 1.3) *)

Definition thirtyDaysMs : Z := 30 * 24 * 60 * 60 * 1000.

(** [JSON_EXTRACT(additional_data, path) = 'text'] *)
Definition jsonFieldIs (c : JsonColumn) (k text : string) : bool :=
  match c with
  | col_object o => match objGet o k with
                    | Some (JStr s) => String.eqb s text
                    | _ => false
                    end
  | _ => false
  end.

(** [JSON_EXTRACT(additional_data, path) IS NOT NULL] *)
Definition jsonFieldPresent (c : JsonColumn) (k : string) : bool :=
  match c with
  | col_object o => match objGet o k with Some _ => true | None => false end
  | _ => false
  end.

(** ORDER BY updated_at DESC (NULL last). *)
Definition updatedDesc (a b : VehicleRow) : Prop :=
  match veh_updated_at a, veh_updated_at b with
  | Some x, Some y => y <= x
  | Some _, None => True
  | None, Some _ => False
  | None, None => True
  end.

#[global] Instance updatedDesc_dec : RelDecision updatedDesc.
Proof.
  intros a b. unfold updatedDesc.
  destruct (veh_updated_at a), (veh_updated_at b); apply _.
Defined.

(** The SELECT of the reactivation phase. *)
Definition archivedToVerify (dbNow : Z) (w : World) : list VehicleRow :=
  List.firstn 200
    (merge_sort updatedDesc
       (List.filter
          (fun r => bool_decide (veh_status r = archived) &&
                    truthyStr (veh_license_plate r) &&
                    (jsonFieldIs (veh_additional_data r) "filter_reason" "not_in_valid_set" ||
                     jsonFieldIs (veh_additional_data r) "filter_reason" "no_encontrado_en_api" ||
                     jsonFieldPresent (veh_additional_data r) "cleanup_verification" ||
                     match veh_updated_at r with
                     | Some t => dbNow - thirtyDaysMs <? t
                     | None => false
                     end))
          (vehicles w))).

(** One round of [for (const archivedVehicle of archivedVehicles)]. *)
Definition reactivateVehicle (env : Env) (lookup : string -> LookupOutcome) (dbNow : Z)
    (archivedVehicle : VehicleRow) (st : RunState) : RunState :=
  match veh_license_plate archivedVehicle with
  | Some licensePlate =>
      if String.eqb licensePlate "" || isBlank licensePlate then st
      else
        match lookup licensePlate with
        | lookup_found apiVehicle =>
            if String.eqb (api_id apiVehicle) (veh_asofix_id archivedVehicle) &&
               negb (omit (shouldOmitVehicle (filterConfig env) apiVehicle))
            then
              let additionalData :=
                objDeleteIfTruthy
                  (objDeleteIfTruthy
                     (objDeleteIfTruthy
                        (parseAdditionalData (veh_additional_data archivedVehicle))
                        "filter_reason")
                     "cleanup_verification")
                  "archived_at" in
              mkRunState
                (updateVehicles (whereId (veh_id archivedVehicle))
                   (setStatusData published additionalData dbNow) (world st))
                ({[veh_asofix_id archivedVehicle]} ∪ validVehicleIds st)
                (fase1Processed st) (fase1Created st) (fase1Updated st) (fase1Errors st)
                (fase1Filtered st) (fase1Archived st)
            else st
        | lookup_null => st
        | lookup_throws _ => st
        end
  | None => st
  end.

Definition reactivationPhase (env : Env) (lookup : string -> LookupOutcome) (dbNow : Z)
    (st : RunState) : RunState :=
  List.fold_left (fun acc v => reactivateVehicle env lookup dbNow v acc)
    (archivedToVerify dbNow (world st)) st.

(** ** syncAll: the phases in sequence *)

Record SyncSummary := mkSyncSummary {
  fase1 : RunState;
  fase2 : ImageCounters;
  final_world : World
}.

(** Fetch, reconcile in batches, reactivate, clean up, download the images.
    The progress callback, the pauses and the log table are left out;
    [batchSize] is SYNC_BATCH_SIZE, [limit] SYNC_LIMIT. *)
Definition syncAll (env : Env) (api : Api) (now : Z) (incremental : bool) (limit : Z)
    (batchSize fuel : nat) (w : World) : SyncSummary :=
  let '(allVehiclesFromAPI, fetchErrors) := fetchPhase api limit fuel in
  let st0 := mkRunState w ∅ 0 0 0 fetchErrors 0 0 in
  let st1 := reconcileBatches env (processVehicleStep env now) incremental limit batchSize
               (List.length allVehiclesFromAPI) allVehiclesFromAPI st0 in
  let st2 := reactivationPhase env (getVehicleByLicensePlate api) now st1 in
  let st3 := cleanupPhase env (getVehicleByLicensePlate api) now now st2 in
  let '(counters, w') :=
    match getPendingImages (world st3) with
    | [] => (mkImageCounters 0 0 0, world st3)
    | _ => downloadAllImages env now (world st3)
    end in
  mkSyncSummary st3 counters w'.

(** ** Normalizers of the Meta feed (meta-feed-normalizers.ts) *)

(** [mapping[key]] on a literal object whose values are non-empty strings. *)
Fixpoint mappingGet (mapping : list (string * string)) (key : string) : option string :=
  match mapping with
  | [] => None
  | (k, v) :: rest => if String.eqb k key then Some v else mappingGet rest key
  end.

(** [for (const [key, value] of Object.entries(mapping))
       if (normalized.includes(key) || key.includes(normalized)) return value] *)
Fixpoint mappingPartial (mapping : list (string * string)) (normalized : string)
    : option string :=
  match mapping with
  | [] => None
  | (key, value) :: rest =>
      if includes normalized key || includes key normalized then Some value
      else mappingPartial rest normalized
  end.

(** [s.replace(/\s+/g, by_)]: every run of white space becomes [by_]. *)
Fixpoint replaceSpaceRuns (by_ : string) (inRun : bool) (s : string) : string :=
  match s with
  | EmptyString => EmptyString
  | String c rest =>
      if isSpace c then
        if inRun then replaceSpaceRuns by_ true rest
        else by_ +:+ replaceSpaceRuns by_ true rest
      else String c (replaceSpaceRuns by_ false rest)
  end.

Definition availabilityMapping : list (string * string) :=
  [ ("AVAILABLE", "AVAILABLE"); ("IN_STOCK", "AVAILABLE"); ("IN STOCK", "AVAILABLE");
    ("INSTOCK", "AVAILABLE"); ("PUBLISHED", "AVAILABLE");
    ("NOT_AVAILABLE", "NOT_AVAILABLE"); ("NOT AVAILABLE", "NOT_AVAILABLE");
    ("NOTAVAILABLE", "NOT_AVAILABLE"); ("OUT_OF_STOCK", "NOT_AVAILABLE");
    ("OUT OF STOCK", "NOT_AVAILABLE"); ("OUTOFSTOCK", "NOT_AVAILABLE");
    ("ARCHIVED", "NOT_AVAILABLE"); ("PENDING", "PENDING"); ("UNKNOWN", "UNKNOWN") ].

Definition normalizeAvailability (status : option string) (isPublished : bool) : string :=
  if negb (truthyStr status) && negb isPublished then "NOT_AVAILABLE"
  else if negb (truthyStr status) then "UNKNOWN"
  else
    let normalized := replaceSpaceRuns "_" false (trim (toUpperCase (default "" status))) in
    match mappingGet availabilityMapping normalized with
    | Some v => v
    | None => match mappingPartial availabilityMapping normalized with
              | Some v => v
              | None => "UNKNOWN"
              end
    end.

Definition transmissionMapping : list (string * string) :=
  [ ("AUTOMATICO", "AUTOMATIC"); ("AUTOMATIC", "AUTOMATIC"); ("AUTOMATICA", "AUTOMATIC");
    ("AUTO", "AUTOMATIC"); ("CVT", "AUTOMATIC"); ("MANUAL", "MANUAL"); ("MECANICA", "MANUAL");
    ("MECANICO", "MANUAL") ].

(** [stripAccents] is [s.normalize('NFD')] followed by the removal of the
    combining marks U+0300 to U+036F, done by the runtime. *)
Definition normalizeTransmission (stripAccents : string -> string) (input : option string)
    : option string :=
  if negb (truthyStr input) then None
  else
    let normalized := trim (toUpperCase (stripAccents (default "" input))) in
    match mappingGet transmissionMapping normalized with
    | Some v => Some v
    | None => match mappingPartial transmissionMapping normalized with
              | Some v => Some v
              | None => Some "OTHER"
              end
    end.

Definition fuelMapping : list (string * string) :=
  [ ("NAFTA", "GASOLINE"); ("GASOLINE", "GASOLINE"); ("GASOLINA", "GASOLINE");
    ("BENZINA", "GASOLINE"); ("DIESEL", "DIESEL"); ("GASOIL", "DIESEL"); ("GAS OIL", "DIESEL");
    ("HIBRIDO", "HYBRID"); ("HYBRID", "HYBRID"); ("HIBRID", "HYBRID");
    ("ELECTRICO", "ELECTRIC"); ("ELECTRIC", "ELECTRIC"); ("ELECTRICA", "ELECTRIC");
    ("GNC", "CNG"); ("CNG", "CNG"); ("GAS NATURAL", "CNG"); ("GAS NATURAL COMPRIMIDO", "CNG") ].

Definition normalizeFuelType (stripAccents : string -> string) (input : option string)
    : option string :=
  if negb (truthyStr input) then None
  else
    let normalized := trim (toUpperCase (stripAccents (default "" input))) in
    match mappingGet fuelMapping normalized with
    | Some v => Some v
    | None => mappingPartial fuelMapping normalized
    end.

(** * Sample records and stores *)

Definition stringifySample (rd : RelevantData) : string :=
  rd_id rd +:+ "|" +:+ rd_title rd +:+ "|" +:+ showNumber (rd_price rd) +:+ "|" +:+
  String.concat "," (rd_images_urls rd) +:+ "|" +:+ rd_stock_status rd.

Definition envSample : Env :=
  mkEnv cfgDefault stringifySample (fun s => "sha256:" +:+ s)
    (fun vehicleId_ u => "./uploads/autos/" +:+ showNumber vehicleId_ +:+ "/" +:+ u)
    (fun u => if includes u "broken" then http_error "timeout of 300000ms exceeded"
              else http_ok ("bytes of " +:+ u))
    showNumber toLowerCase.

Definition emptyWorld : World := mkWorld [] [] [] [] [] 1 1 1 1 1 [] [].

(** A published vehicle last touched long ago. *)
Definition rowStale : VehicleRow :=
  mkVehicleRow 7 "A-100" "Toyota Corolla XEI" (Some "Impecable") published (Some 2019)
    (Some 45000) (Some "ABC123") (Some 5000) None None (Some 0) (Some 0) (Some 0) (Some 0)
    (Some (generateVersionHash envSample vehicleOk)) col_null.

Definition withStatusData (r : VehicleRow) (st : Status) (ad : JsonColumn) : VehicleRow :=
  mkVehicleRow (veh_id r) (veh_asofix_id r) (veh_title r) (veh_content r) st (veh_year r)
    (veh_kilometres r) (veh_license_plate r) (veh_price_usd r) (veh_price_ars r)
    (veh_featured_image_id r) (veh_created_at r) (veh_updated_at r) (veh_last_synced_at r)
    (veh_asofix_updated_at r) (veh_version_hash r) ad.

Definition worldStale : World := mkWorld [rowStale] [] [] [] [] 8 1 1 1 1 [] [].

Definition runStateOf (w : World) (valid : gset string) : RunState :=
  mkRunState w valid 0 0 0 0 0 0.

(** A long time after [rowStale] was written (thirty days, in ms). *)
Definition laterNow : Z := 2592000000.

(** The same vehicle flagged [keep_published], and without license plate. *)
Definition rowKeep : VehicleRow :=
  withStatusData rowStale published (col_object [("keep_published", JBool true)]).

Definition rowNoPlate : VehicleRow :=
  mkVehicleRow 7 "A-100" "Toyota Corolla XEI" (Some "Impecable") published (Some 2019)
    (Some 45000) None (Some 5000) None None (Some 0) (Some 0) (Some 0) (Some 0) None col_null.

Definition worldKeep : World := mkWorld [rowKeep] [] [] [] [] 8 1 1 1 1 [] [].
Definition worldNoPlate : World := mkWorld [rowNoPlate] [] [] [] [] 8 1 1 1 1 [] [].

Definition lookupNull : string -> LookupOutcome := fun _ => lookup_null.

(** A row whose primary key is 0 (the dump sets NO_AUTO_VALUE_ON_ZERO). *)
Definition rowZero : VehicleRow :=
  mkVehicleRow 0 "A-100" "Toyota Corolla" None published None None (Some "ABC123") None None
    None None (Some 0) None None None col_null.

Definition worldZero : World := mkWorld [rowZero] [] [] [] [] 1 1 1 1 1 [] [].

(** The record of [vehicleOk] once its only offer is reserved. *)
Definition vehicleReserved : AsofixVehicle :=
  mkAsofixVehicle "A-100" (Some "Toyota") (Some "Corolla") (Some "XEI") (Some "Impecable")
    (Some 2019) (Some 45000) (Some "ABC123") None (Some cond_used) (Some "Manual")
    (Some "Nafta") (Some "Sedan") (Some (mkPrice (Some 5000) (Some "USD")))
    (Some [mkColor (Some "Blanco")])
    (Some [mkStock (Some "RESERVADO") (Some "Casa Central") (Some "Central Branch")])
    (Some [mkImage (Some "https://cdn.example/th-b.jpg"); mkImage (Some "https://cdn.example/th-a.jpg")])
    None None.

(** [rowStale] archived by an earlier cleanup; its fingerprint is the one of
    [vehicleOk]. *)
Definition rowArchived : VehicleRow :=
  withStatusData rowStale archived (col_object [("filter_reason", JStr "not_in_valid_set")]).

Definition worldArchived : World := mkWorld [rowArchived] [] [] [] [] 8 1 1 1 1 [] [].

(** A queue entry whose download fails, and one whose download succeeds. *)
Definition worldBroken : World :=
  mkWorld [rowStale] [] [mkPendingRow 1 7 "https://cdn.example/th-broken.jpg"] [] []
    8 1 2 1 1 [] [].

Definition worldQueued : World :=
  mkWorld [rowStale] [] [mkPendingRow 1 7 "https://cdn.example/th-a.jpg"] [] []
    8 1 2 1 1 [] [].



(** A vehicle with a featured image that [featured_image_id] references. *)
Definition rowFeatured : VehicleRow :=
  mkVehicleRow 7 "A-100" "Toyota Corolla XEI" (Some "Impecable") published (Some 2019)
    (Some 45000) (Some "ABC123") (Some 5000) None (Some 3) (Some 0) (Some 0) (Some 0) (Some 0)
    None col_null.

Definition worldFeatured : World :=
  mkWorld [rowFeatured]
    [mkImageRow 3 7 "https://cdn.example/th-a.jpg" (Some "./uploads/autos/7/a.jpg") true 0]
    [mkPendingRow 1 7 "https://cdn.example/th-b.jpg"] [] [] 8 4 2 1 1 [] [].


(** A record built from the parts the filters read. *)
Definition recordWith (stocks_ : option (list Stock)) (listPrice_ : option Z)
    (plate : option string) (images_ : option (list Image)) : AsofixVehicle :=
  mkAsofixVehicle "A-1" (Some "Ford") (Some "Ka") None None (Some 2015) (Some 90000) plate None
    (Some cond_used) None None None (Some (mkPrice listPrice_ (Some "ARS"))) None stocks_ images_
    None None.

Definition oneImage : option (list Image) := Some [mkImage (Some "https://cdn.example/th-k.jpg")].

Definition cfgStrict : FilterConfig :=
  mkFilterConfig ["Dakota"; "Outlet"] 1 ["reservado"; "Activo"] true.

(** A catalog whose pages all fail, and one that serves [vehicleOk]. *)
Definition apiFailing : Api := mkApi "key" (fun _ _ => page_throws "ETIMEDOUT") 500.

Definition apiOnePage : Api :=
  mkApi "key"
    (fun page _ => page_ok (mkResponse (Some (if page =? 1 then [vehicleReserved; vehicleOk] else []))
                              (Some (mkMeta (Some page) (Some 1) (Some 2)))))
    500.

(** Two stale published vehicles; only the second is tracked in the run. *)
Definition rowTracked : VehicleRow :=
  mkVehicleRow 8 "B-200" "Ford Ka" None published (Some 2015) (Some 90000) (Some "AA123BB")
    None (Some 9500000) None (Some 0) (Some 0) (Some 0) (Some 0) None col_null.

Definition worldTwo : World := mkWorld [rowStale; rowTracked] [] [] [] [] 9 1 1 1 1 [] [].

Definition emptyLogs : SyncLogs := mkSyncLogs [] 1.

(** Stored images of vehicle 7, one of them no longer listed by [vehicleOk],
    and a stale queue entry. *)
Definition worldObsolete : World :=
  mkWorld [rowStale]
    [mkImageRow 3 7 "https://cdn.example/th-a.jpg" (Some "./uploads/autos/7/a.jpg") false 0;
     mkImageRow 4 7 "https://cdn.example/th-old.jpg" (Some "./uploads/autos/7/old.jpg") false 0]
    [mkPendingRow 1 7 "https://cdn.example/th-x.jpg"] [] [] 8 5 2 1 1 [] [].

(** A lookup that resolves the plate of [rowArchived] to [vehicleOk]. *)
Definition lookupOk : string -> LookupOutcome := fun _ => lookup_found vehicleOk.

(** * Vocabulary of the statements *)

(** The six checks of shouldOmitVehicle, in their order. *)
Inductive Check :=
| NoActiveStock
| BlockedLocation
| PriceTooLow
| BlockedStatus
| MissingIdentifier
| NoImages.

Definition checkOrder (c : Check) : nat :=
  match c with
  | NoActiveStock => 1
  | BlockedLocation => 2
  | PriceTooLow => 3
  | BlockedStatus => 4
  | MissingIdentifier => 5
  | NoImages => 6
  end.

Definition locationMatches (a : Stock) (b : string) : Prop :=
  includes (toLowerCase (strOr (location_name a) "")) (toLowerCase b) = true.

Definition branchMatches (a : Stock) (b : string) : Prop :=
  includes (toLowerCase (strOr (branch_office_name a) "")) (toLowerCase b) = true.

Definition statusMatches (a : Stock) (b : string) : Prop :=
  toLowerCase (strOr (stock_status a) "") = toLowerCase b.

(** What it means for a record to fail a check, stated on the record and the
    configuration alone; the active offer is the first stock entry whose
    status is ACTIVO up to case. *)
Definition fails (cfg : FilterConfig) (v : AsofixVehicle) (c : Check) : Prop :=
  match c with
  | NoActiveStock =>
      forall s st, s ∈ default [] (stocks v) -> stock_status s = Some st ->
                   toUpperCase st <> "ACTIVO"
  | BlockedLocation =>
      exists a b, findActiveStock v = Some a /\ b ∈ blockedBranchOffices cfg /\
                  (locationMatches a b \/ branchMatches a b)
  | PriceTooLow => listPrice v <= minPrice cfg
  | BlockedStatus =>
      exists a b, findActiveStock v = Some a /\ b ∈ blockedStatuses cfg /\ statusMatches a b
  | MissingIdentifier => forall p, license_plate v = Some p -> trim p = ""
  | NoImages =>
      requireImages cfg = true /\
      forall img u, img ∈ default [] (images v) -> url img = Some u -> trim u = ""
  end.

(** The reason string that belongs to a check: for the two configured lists
    it is the entry that matches first, the location name before the branch
    office name. *)
Definition reasonFor (cfg : FilterConfig) (v : AsofixVehicle) (c : Check) (r : string) : Prop :=
  match c with
  | NoActiveStock => r = "No tiene stock activo"
  | BlockedLocation =>
      exists a pre b post,
        findActiveStock v = Some a /\ blockedBranchOffices cfg = (pre ++ b :: post)%list /\
        (forall x, x ∈ pre -> ~ locationMatches a x /\ ~ branchMatches a x) /\
        ((locationMatches a b /\ r = reasonLocation a b) \/
         (~ locationMatches a b /\ branchMatches a b /\ r = reasonBranch a b))
  | PriceTooLow => r = reasonPrice (listPrice v) (minPrice cfg)
  | BlockedStatus =>
      exists a pre b post,
        findActiveStock v = Some a /\ blockedStatuses cfg = (pre ++ b :: post)%list /\
        (forall x, x ∈ pre -> ~ statusMatches a x) /\
        statusMatches a b /\ r = reasonStatus a b
  | MissingIdentifier => r = "License plate es NULL o vacío"
  | NoImages => r = "No tiene imágenes asociadas (REQUIRE_IMAGES=true)"
  end.

(** The attempts on one record end in failure: processVehicle returns
    [success = false], or it has thrown [n] times in a row. *)
Fixpoint failsTerminally (process : Processor) (incremental : bool) (vehicle : AsofixVehicle)
    (n : nat) (w : World) : bool :=
  match n with
  | O => true
  | S n' =>
      match process vehicle incremental w with
      | (Returned result, _) => negb (success result)
      | (Threw _, w') => failsTerminally process incremental vehicle n' w'
      end
  end.

(** The cleanup phase archived the rows of vehicle [c]: they are archived
    and carry the audit trail with the given verification reason; the other
    rows, the tracker and the other counters are as before. *)
Definition cleanupArchived (st st' : RunState) (c : VehicleRow) (verification : string) : Prop :=
  validVehicleIds st' = validVehicleIds st /\
  fase1Archived st' = fase1Archived st + 1 /\
  Forall2 (fun r r' =>
             if veh_id r =? veh_id c then
               veh_status r' = archived /\
               objGet (parseAdditionalData (veh_additional_data r')) "filter_reason"
                 = Some (JStr "not_in_valid_set") /\
               objGet (parseAdditionalData (veh_additional_data r')) "cleanup_verification"
                 = Some (JStr verification)
             else r' = r)
    (vehicles (world st)) (vehicles (world st')).

(** The cleanup phase kept vehicle [c]: no row changed and its id joined the
    tracker. *)
Definition cleanupKept (st st' : RunState) (c : VehicleRow) : Prop :=
  world st' = world st /\
  validVehicleIds st' = {[veh_asofix_id c]} ∪ validVehicleIds st /\
  fase1Archived st' = fase1Archived st.

(** The stored document and license plate of the candidate when its turn
    comes. *)
Definition storedDocument (st : RunState) (c : VehicleRow) : JsObject :=
  parseAdditionalData (match selectVehicleById (world st) (veh_id c) with
                       | Some r => veh_additional_data r
                       | None => col_null
                       end).

Definition storedPlate (st : RunState) (c : VehicleRow) : option string :=
  selectVehicleById (world st) (veh_id c) ≫= veh_license_plate.

(** The columns of a vehicle that the archive transition is to leave alone:
    all but [status], [additional_data] and [updated_at]. *)
Definition archiveFrame (r : VehicleRow) :=
  (veh_id r, veh_asofix_id r, veh_title r, veh_content r, veh_year r, veh_kilometres r,
   veh_license_plate r, veh_price_usd r, veh_price_ars r, veh_featured_image_id r,
   veh_created_at r, veh_last_synced_at r, veh_asofix_updated_at r, veh_version_hash r).

(** The columns that the refresh of the last-seen timestamp is to leave
    alone: all but [last_synced_at] and [updated_at]. *)
Definition seenFrame (r : VehicleRow) :=
  (veh_id r, veh_asofix_id r, veh_title r, veh_content r, veh_status r, veh_year r,
   veh_kilometres r, veh_license_plate r, veh_price_usd r, veh_price_ars r,
   veh_featured_image_id r, veh_created_at r, veh_asofix_updated_at r, veh_version_hash r,
   veh_additional_data r).

(** The rows of [vehicle_images] of a vehicle that are flagged featured. *)
Definition featuredRows (w : World) (vehicleId_ : Z) : list ImageRow :=
  List.filter (fun r => (img_vehicle_id r =? vehicleId_) && img_is_featured r) (vehicle_images w).

(** At most one featured row per vehicle, and a featured row is the one the
    vehicle references. *)
Definition featuredInvariant (w : World) : Prop :=
  (forall vehicleId_, (List.length (featuredRows w vehicleId_) <= 1)%nat) /\
  (forall i r, i ∈ vehicle_images w -> img_is_featured i = true ->
               r ∈ vehicles w -> veh_id r = img_vehicle_id i ->
               veh_featured_image_id r = Some (img_id i)).

(** Rows of [vehicle_images] for (vehicle, URL), and downloads issued for
    it. *)
Definition storedCount (w : World) (vehicleId_ : Z) (imageUrl : string) : nat :=
  List.length (List.filter (imageOf vehicleId_ imageUrl) (vehicle_images w)).





(** [reasons[r] || 0] *)
Fixpoint reasonCount (reasons : list (string * Z)) (r : string) : Z :=
  match reasons with
  | [] => 0
  | (k, c) :: rest => if String.eqb k r then c else reasonCount rest r
  end.

Definition reasonTotal (reasons : list (string * Z)) : Z :=
  List.fold_right (fun kc acc => snd kc + acc) 0 reasons.

(** The record is omitted with reason [r]. *)
Definition omittedFor (cfg : FilterConfig) (r : string) (v : AsofixVehicle) : bool :=
  omit (shouldOmitVehicle cfg v) &&
  match reason (shouldOmitVehicle cfg v) with
  | Some r' => String.eqb r' r
  | None => false
  end.

Definition pendingOfVehicle (vehicleId_ : Z) (w : World) : list PendingRow :=
  List.filter (fun r => pend_vehicle_id r =? vehicleId_) (pending_images w).

Definition pendingOfOthers (vehicleId_ : Z) (w : World) : list PendingRow :=
  List.filter (fun r => negb (pend_vehicle_id r =? vehicleId_)) (pending_images w).

(** The keys of the terms under [unique_taxonomy_name]: both columns as the
    collation weighs them. *)
Definition termKeys (env : Env) (w : World) : list (string * string) :=
  List.map (fun t => (collationKey env (term_taxonomy t), collationKey env (term_name t)))
    (taxonomy_terms w).

(** [currency.toLowerCase().includes('dolar') || ...includes('usd')] *)
Definition isDollar (vehicle : AsofixVehicle) : bool :=
  let currency := toLowerCase (match price vehicle with
                               | Some p => strOr (currency_name p) ""
                               | None => ""
                               end) in
  includes currency "dolar" || includes currency "usd".

(** Image ids as AUTO_INCREMENT hands them out: never 0. *)
Definition imageIdsOk (w : World) : Prop :=
  0 < next_image_id w /\ Forall (fun r => img_id r <> 0) (vehicle_images w).

(** The records of page [p] as syncPage hands them to the fetch phase. *)
Definition pageRecords (api : Api) (p : Z) : list AsofixVehicle :=
  match syncPage api p with
  | syncPage_ok vehicles_ _ => vehicles_
  | syncPage_throws _ => []
  end.

(** The [k] pages from page [p] on. *)
Definition pagesFrom (p : Z) (k : nat) : list Z :=
  List.map (fun i => p + Z.of_nat i) (List.seq 0 k).

(** Page [p] of the catalog serves record [v]. *)
Definition servedBy (api : Api) (perPage : Z) (v : AsofixVehicle) : Prop :=
  exists p response l,
    getVehiclesPage api p perPage = page_ok response /\ data response = Some l /\ v ∈ l.

(** Log ids as AUTO_INCREMENT hands them out. *)
Definition syncLogIdsOk (l : SyncLogs) : Prop :=
  0 < next_sync_log_id l /\ Forall (fun r => sl_id r < next_sync_log_id l) (sync_logs l).

(** The key columns of a vehicle row, and the keys of the table in row
    order. *)
Definition rowKey (r : VehicleRow) : Z * string := (veh_id r, veh_asofix_id r).

Definition vehicleKeys (w : World) : list (Z * string) := List.map rowKey (vehicles w).

(** Keys as the schema and AUTO_INCREMENT keep them: primary keys positive,
    below the counter and unique; [asofix_id] unique. *)
Definition storeKeysOk (w : World) : Prop :=
  0 < next_vehicle_id w /\
  NoDup (List.map veh_id (vehicles w)) /\
  NoDup (List.map veh_asofix_id (vehicles w)) /\
  Forall (fun r => 0 < veh_id r < next_vehicle_id w) (vehicles w).

(** The columns that the metadata update and the image cascade leave
    alone. *)
Definition syncFrame (r : VehicleRow) :=
  (veh_id r, veh_asofix_id r, veh_status r, veh_version_hash r, veh_last_synced_at r,
   veh_additional_data r, veh_title r, veh_content r).

(** The tables that the taxonomy statements leave alone. *)
Definition coreTables (w : World) :=
  (vehicles w, vehicle_images w, pending_images w, next_vehicle_id w, next_image_id w,
   next_pending_id w, files w, requests w).

(** The rows of [vehicle_images] of a vehicle, and of the other vehicles. *)
Definition imagesOfVehicle (vehicleId_ : Z) (w : World) : list ImageRow :=
  List.filter (fun r => img_vehicle_id r =? vehicleId_) (vehicle_images w).

Definition imagesOfOthers (vehicleId_ : Z) (w : World) : list ImageRow :=
  List.filter (fun r => negb (img_vehicle_id r =? vehicleId_)) (vehicle_images w).

(** The vehicle has no image, or every vehicle row of that id references the
    first image stored for it. *)
Definition firstIsFeatured (vehicleId_ : Z) (w : World) : Prop :=
  match imagesOfVehicle vehicleId_ w with
  | [] => True
  | first :: _ =>
      forall r, r ∈ vehicles w -> veh_id r = vehicleId_ ->
                veh_featured_image_id r = Some (img_id first)
  end.

(** The rows of [vehicle_images] with [is_featured] set. *)
Definition flaggedRows (w : World) : list ImageRow :=
  List.filter img_is_featured (vehicle_images w).

(** No row of [vehicle_images] has [is_featured] set. *)
Definition noneFlagged (w : World) : Prop :=
  Forall (fun r => img_is_featured r = false) (vehicle_images w).

(** The row of [vehicle_images] survives the reconciliation with the URLs of
    the record: it has no URL, or its URL is still listed. *)
Definition imageKept (newImageUrls : list string) (r : ImageRow) : bool :=
  String.eqb (img_image_url r) "" || inStrings (img_image_url r) newImageUrls.

(** From [w] to [w'] no vehicle row is removed or re-keyed, and sound keys
    stay sound. *)
Definition keysGrow (w w' : World) : Prop :=
  storeKeysOk w ->
  storeKeysOk w' /\ exists added, vehicleKeys w' = (vehicleKeys w ++ added)%list.

(** What the reactivation phase may do to a row: nothing, or publish an
    archived row whose plate the lookup resolved to an admissible record
    with the same id. *)
Definition reactivatedRow (env : Env) (lookup : string -> LookupOutcome) (dbNow : Z)
    (valid : gset string) (r r' : VehicleRow) : Prop :=
  r' = r \/
  (veh_status r = archived /\ veh_status r' = published /\
   archiveFrame r' = archiveFrame r /\ veh_updated_at r' = Some dbNow /\
   veh_asofix_id r ∈ valid /\
   exists plate apiVehicle,
     veh_license_plate r = Some plate /\ lookup plate = lookup_found apiVehicle /\
     api_id apiVehicle = veh_asofix_id r /\
     omit (shouldOmitVehicle (filterConfig env) apiVehicle) = false).

(** The counters of a run state. *)
Definition countersOf (st : RunState) :=
  (fase1Processed st, fase1Created st, fase1Updated st, fase1Errors st, fase1Filtered st,
   fase1Archived st).

(** The catalog cannot be read: no API key, or every page request fails. *)
Definition catalogDown (api : Api) : Prop :=
  apiKey api = "" \/ forall p n, exists msg, getVehiclesPage api p n = page_throws msg.

(** The assignments of a vehicle in one taxonomy
    ([WHERE vehicle_id = ? AND taxonomy = ?]). *)
Definition taxonomyRows (env : Env) (vehicleId_ : Z) (taxonomy : string) (w : World)
    : list VehicleTaxonomyRow :=
  List.filter (fun r => (vt_vehicle_id r =? vehicleId_) && sameText env (vt_taxonomy r) taxonomy)
    (vehicle_taxonomies w).

(** The names of the taxonomies that assignTaxonomies writes. *)
Definition taxonomyNames : list string :=
  ["brand"; "model"; "condition"; "transmission"; "fuel_type"; "color"; "segment"].

(** Term ids as AUTO_INCREMENT hands them out: never 0. *)
Definition termIdsOk (w : World) : Prop :=
  0 < next_term_id w /\ Forall (fun t => term_id t <> 0) (taxonomy_terms w).

(** The vehicle has exactly one assignment in the taxonomy, to a term whose
    taxonomy and name are the given ones under the collation. *)
Definition assignedTo (env : Env) (vehicleId_ : Z) (taxonomy name : string) (w : World)
    : Prop :=
  exists row term,
    taxonomyRows env vehicleId_ taxonomy w = [row] /\ term ∈ taxonomy_terms w /\
    term_id term = vt_term_id row /\
    sameText env (term_taxonomy term) taxonomy = true /\
    sameText env (term_name term) name = true.

(** The state of the assignments of a vehicle in one taxonomy after the
    entry of [taxonomyMap] for it has been handled. *)
Definition entryHandled (env : Env) (vid : Z) (t : string) (x : option string)
    (w w' : World) : Prop :=
  match x with
  | Some name =>
      if String.eqb (trim name) ""
      then taxonomyRows env vid t w' = taxonomyRows env vid t w
      else if existsb (whereId vid) (vehicles w)
           then assignedTo env vid t (trim name) w'
           else taxonomyRows env vid t w' = []
  | None => taxonomyRows env vid t w' = taxonomyRows env vid t w
  end.

(** * Properties *)

Example shouldOmit_ok : shouldOmitVehicle cfgDefault vehicleOk = mkOmit false None.
Proof. reflexivity. Qed.

(** The six checks one at a time, and together. *)
Example omit_no_active_stock :
  shouldOmitVehicle cfgDefault
    (recordWith (Some [mkStock (Some "RESERVADO") None (Some "Central")]) (Some 5000)
       (Some "AA123BB") oneImage)
  = mkOmit true (Some "No tiene stock activo").
Proof. reflexivity. Qed.

Example omit_blocked_location :
  shouldOmitVehicle cfgDefault
    (recordWith (Some [mkStock (Some "activo") (Some "Casa Central") (Some "DAKOTA Norte")])
       (Some 5000) (Some "AA123BB") oneImage)
  = mkOmit true
      (Some "Concesionaria bloqueada: DAKOTA Norte (filtro: Dakota, campo: location_name)").
Proof. reflexivity. Qed.

Example omit_blocked_branch_fallback :
  shouldOmitVehicle cfgDefault
    (recordWith (Some [mkStock (Some "ACTIVO") (Some "Dakota Sur") None])
       (Some 5000) (Some "AA123BB") oneImage)
  = mkOmit true
      (Some "Concesionaria bloqueada: Dakota Sur (filtro: Dakota, campo: branch_office_name)").
Proof. reflexivity. Qed.

Example omit_price_not_above_minimum :
  shouldOmitVehicle cfgDefault
    (recordWith (Some [stockCentral]) (Some 1) (Some "AA123BB") oneImage)
  = mkOmit true (Some "Precio (1) menor o igual al mínimo permitido (1)").
Proof. reflexivity. Qed.

Example omit_blocked_status :
  shouldOmitVehicle cfgStrict
    (recordWith (Some [stockCentral]) (Some 5000) (Some "AA123BB") oneImage)
  = mkOmit true (Some "Estado bloqueado: ACTIVO (filtro: Activo)").
Proof. reflexivity. Qed.

Example omit_blank_plate :
  shouldOmitVehicle cfgDefault (recordWith (Some [stockCentral]) (Some 5000) (Some "  ") oneImage)
  = mkOmit true (Some "License plate es NULL o vacío").
Proof. reflexivity. Qed.

Example omit_no_images :
  shouldOmitVehicle cfgDefault
    (recordWith (Some [stockCentral]) (Some 5000) (Some "AA123BB") (Some [mkImage (Some " ")]))
  = mkOmit true (Some "No tiene imágenes asociadas (REQUIRE_IMAGES=true)").
Proof. reflexivity. Qed.

Example omit_earliest_of_several :
  shouldOmitVehicle cfgStrict
    (recordWith (Some [mkStock (Some "ACTIVO") None (Some "Outlet Oeste")]) None None None)
  = mkOmit true
      (Some "Concesionaria bloqueada: Outlet Oeste (filtro: Outlet, campo: location_name)") /\
  shouldOmitVehicle cfgStrict (recordWith (Some [stockCentral]) None None None)
  = mkOmit true (Some "Precio (0) menor o igual al mínimo permitido (1)") /\
  shouldOmitVehicle cfgStrict (recordWith None None None None)
  = mkOmit true (Some "No tiene stock activo").
Proof. repeat split; reflexivity. Qed.

(** The bucket that the archive branch derives from each reason. *)
Example filterReasonOf_buckets :
  filterReasonOf (Some "No tiene stock activo") = "no_active_stock" /\
  filterReasonOf
    (Some "Concesionaria bloqueada: DAKOTA Norte (filtro: Dakota, campo: location_name)")
    = "dakota_location" /\
  filterReasonOf (Some "Precio (1) menor o igual al mínimo permitido (1)") = "min_price" /\
  filterReasonOf (Some "Estado bloqueado: ACTIVO (filtro: Activo)") = "blocked_status" /\
  filterReasonOf (Some "License plate es NULL o vacío") = "unknown" /\
  filterReasonOf (Some "No tiene imágenes asociadas (REQUIRE_IMAGES=true)") = "unknown".
Proof. repeat split; reflexivity. Qed.

(** ** The filter evaluator *)

Lemma findActiveStock_None v :
  findActiveStock v = None <-> fails (mkFilterConfig [] 0 [] false) v NoActiveStock.
Proof.
  unfold findActiveStock; simpl. destruct (stocks v) as [l|]; simpl.
  - split.
    + intros Hn s st Hs Hst Hup.
      apply list_elem_of_In in Hs.
      pose proof (find_none _ _ Hn s Hs) as Hf. unfold isActiveStock in Hf.
      rewrite Hst, Hup in Hf. simpl in Hf. rewrite andb_true_r in Hf.
      apply negb_false_iff, String.eqb_eq in Hf. subst st. discriminate.
    + intros Hall. destruct (List.find isActiveStock l) as [a|] eqn:Hf; [|done].
      apply find_some in Hf as [Hin Hact]. apply list_elem_of_In in Hin.
      unfold isActiveStock in Hact. destruct (stock_status a) as [st|] eqn:Hst; [|done].
      apply andb_true_iff in Hact as [_ Hup]. apply String.eqb_eq in Hup.
      exfalso. by eapply Hall.
  - split; [|done]. intros _ s st Hs. by apply elem_of_nil in Hs.
Qed.

Lemma blockedOfficeLoop_None a l :
  blockedOfficeLoop a (toLowerCase (strOr (location_name a) ""))
    (toLowerCase (strOr (branch_office_name a) "")) l = None <->
  forall x, x ∈ l -> ~ locationMatches a x /\ ~ branchMatches a x.
Proof.
  unfold locationMatches, branchMatches. induction l as [|b l IH]; simpl.
  - split; [|done]. intros _ x Hx. by apply elem_of_nil in Hx.
  - destruct (includes _ (toLowerCase b)) eqn:Hl.
    + split; [done|]. intros H. destruct (H b) as [H1 _]; [left|]. by destruct H1.
    + destruct (includes (toLowerCase (strOr (branch_office_name a) "")) (toLowerCase b)) eqn:Hb.
      * split; [done|]. intros H. destruct (H b) as [_ H2]; [left|]. by destruct H2.
      * rewrite IH. split.
        -- intros H x Hx. apply elem_of_cons in Hx as [->|Hx]; [|by apply H].
           rewrite Hl, Hb. split; discriminate.
        -- intros H x Hx. apply H. by right.
Qed.

Lemma blockedOfficeLoop_Some a l r :
  blockedOfficeLoop a (toLowerCase (strOr (location_name a) ""))
    (toLowerCase (strOr (branch_office_name a) "")) l = Some r ->
  exists pre b post,
    l = (pre ++ b :: post)%list /\
    (forall x, x ∈ pre -> ~ locationMatches a x /\ ~ branchMatches a x) /\
    ((locationMatches a b /\ r = reasonLocation a b) \/
     (~ locationMatches a b /\ branchMatches a b /\ r = reasonBranch a b)).
Proof.
  unfold locationMatches, branchMatches. induction l as [|b l IH]; simpl; [done|].
  destruct (includes _ (toLowerCase b)) eqn:Hl.
  - intros [= <-]. exists [], b, l. split; [done|]. split.
    + intros x Hx. by apply elem_of_nil in Hx.
    + left. by split.
  - destruct (includes (toLowerCase (strOr (branch_office_name a) "")) (toLowerCase b)) eqn:Hb.
    + intros [= <-]. exists [], b, l. split; [done|]. split.
      * intros x Hx. by apply elem_of_nil in Hx.
      * right. rewrite Hl. repeat split; [discriminate|done].
    + intros H. destruct (IH H) as (pre & b' & post & -> & Hpre & Hb').
      exists (b :: pre), b', post. split; [done|]. split; [|done].
      intros x Hx. apply elem_of_cons in Hx as [->|Hx]; [|by apply Hpre].
      rewrite Hl, Hb. split; discriminate.
Qed.

Lemma blockedStatusLoop_None a l :
  blockedStatusLoop a (toLowerCase (strOr (stock_status a) "")) l = None <->
  forall x, x ∈ l -> ~ statusMatches a x.
Proof.
  unfold statusMatches. induction l as [|b l IH]; simpl.
  - split; [|done]. intros _ x Hx. by apply elem_of_nil in Hx.
  - destruct (String.eqb _ (toLowerCase b)) eqn:He.
    + apply String.eqb_eq in He. split; [done|]. intros H. destruct (H b); [left|done].
    + apply String.eqb_neq in He. rewrite IH. split.
      * intros H x Hx. apply elem_of_cons in Hx as [->|Hx]; [done|by apply H].
      * intros H x Hx. apply H. by right.
Qed.

Lemma blockedStatusLoop_Some a l r :
  blockedStatusLoop a (toLowerCase (strOr (stock_status a) "")) l = Some r ->
  exists pre b post,
    l = (pre ++ b :: post)%list /\ (forall x, x ∈ pre -> ~ statusMatches a x) /\
    statusMatches a b /\ r = reasonStatus a b.
Proof.
  unfold statusMatches. induction l as [|b l IH]; simpl; [done|].
  destruct (String.eqb _ (toLowerCase b)) eqn:He.
  - apply String.eqb_eq in He. intros [= <-]. exists [], b, l.
    repeat split; try done. intros x Hx. by apply elem_of_nil in Hx.
  - apply String.eqb_neq in He. intros H.
    destruct (IH H) as (pre & b' & post & -> & Hpre & Hb').
    exists (b :: pre), b', post. split; [done|]. split; [|done].
    intros x Hx. apply elem_of_cons in Hx as [->|Hx]; [done|by apply Hpre].
Qed.

Lemma plateMissing_spec p :
  plateMissing p = true <-> forall s, p = Some s -> trim s = "".
Proof.
  unfold plateMissing, isBlank. destruct p as [s|]; [|by split].
  rewrite orb_true_iff, !String.eqb_eq. split.
  - intros [->|H] s' [= <-]; done.
  - intros H. right. by apply H.
Qed.

Lemma hasImages_false v :
  hasImages v = false <->
  forall img u, img ∈ default [] (images v) -> url img = Some u -> trim u = "".
Proof.
  unfold hasImages. destruct (images v) as [l|]; simpl.
  - split.
    + intros H img u Hin Hu.
      destruct l as [|i0 l0] eqn:El; [by apply elem_of_nil in Hin|]. rewrite <- El in *.
      assert (existsb imageHasUrl l = false) as He.
      { subst l. simpl in H. exact H. }
      destruct (decide (trim u = "")) as [|Hne]; [done|]. exfalso.
      assert (existsb imageHasUrl l = true) as Ht; [|congruence].
      apply existsb_exists. exists img. split; [by apply list_elem_of_In|].
      unfold imageHasUrl, isBlank. rewrite Hu.
      apply andb_true_iff. split; apply negb_true_iff, String.eqb_neq; [|done].
      intros ->. by apply Hne.
    + intros H. apply andb_false_iff. right.
      destruct (existsb imageHasUrl l) eqn:He; [|done]. exfalso.
      apply existsb_exists in He as (img & Hin & Hi). apply list_elem_of_In in Hin.
      unfold imageHasUrl, isBlank in Hi. destruct (url img) as [u|] eqn:Hu; [|done].
      apply andb_true_iff in Hi as [_ Hi]. apply negb_true_iff, String.eqb_neq in Hi.
      apply Hi. by eapply H.
  - split; [|done]. intros _ img u Hin. by apply elem_of_nil in Hin.
Qed.

Lemma active_not_fails_first cfg v a :
  findActiveStock v = Some a -> ~ fails cfg v NoActiveStock.
Proof.
  intros Ha Hf. apply (findActiveStock_None v) in Hf. congruence.
Qed.

Lemma not_fails_location cfg v a :
  findActiveStock v = Some a ->
  blockedOfficeLoop a (toLowerCase (strOr (location_name a) ""))
    (toLowerCase (strOr (branch_office_name a) "")) (blockedBranchOffices cfg) = None ->
  ~ fails cfg v BlockedLocation.
Proof.
  intros Ha Hl (a' & b & Ha' & Hb & Hm). rewrite Ha in Ha'. injection Ha' as <-.
  destruct (proj1 (blockedOfficeLoop_None a _) Hl b Hb) as [H1 H2]. tauto.
Qed.

Lemma not_fails_status cfg v a :
  findActiveStock v = Some a ->
  blockedStatusLoop a (toLowerCase (strOr (stock_status a) "")) (blockedStatuses cfg) = None ->
  ~ fails cfg v BlockedStatus.
Proof.
  intros Ha Hl (a' & b & Ha' & Hb & Hm). rewrite Ha in Ha'. injection Ha' as <-.
  by apply (proj1 (blockedStatusLoop_None a _) Hl b Hb).
Qed.

(** C1. Whenever shouldOmitVehicle omits a record, some check fails, no check
    that comes earlier in the fixed order (active stock, blocked location,
    minimum price, blocked status, license plate, images) fails, and the
    reported reason is the reason of that check; when it admits the record no
    check fails and no reason is reported. The verdict is a function of the
    record and the configuration only. *)
Theorem shouldOmitVehicle_earliest_failing_check (cfg : FilterConfig) (v : AsofixVehicle) :
  match shouldOmitVehicle cfg v with
  | mkOmit true (Some r) =>
      exists c, fails cfg v c /\
                (forall c', (checkOrder c' < checkOrder c)%nat -> ~ fails cfg v c') /\
                reasonFor cfg v c r
  | mkOmit false None => forall c, ~ fails cfg v c
  | _ => False
  end.
Proof.
  unfold shouldOmitVehicle.
  destruct (findActiveStock v) as [a|] eqn:Ha.
  2:{ exists NoActiveStock. split; [by apply (findActiveStock_None v)|].
      split; [|done]. intros c' Hc'. destruct c'; simpl in Hc'; lia. }
  pose proof (active_not_fails_first cfg v a Ha) as N1.
  simpl. destruct (blockedOfficeLoop a _ _ _) as [r|] eqn:Hloc.
  { destruct (blockedOfficeLoop_Some a _ r Hloc) as (pre & b & post & Hcfg & Hpre & Hb).
    exists BlockedLocation. split; [|split].
    - exists a, b. split; [done|]. split; [rewrite Hcfg; apply elem_of_app; right; left|]. tauto.
    - intros c' Hc'. destruct c'; simpl in Hc'; try lia. done.
    - exists a, pre, b, post. done. }
  pose proof (not_fails_location cfg v a Ha Hloc) as N2.
  destruct (listPrice v <=? minPrice cfg) eqn:Hp.
  { apply Z.leb_le in Hp. exists PriceTooLow. split; [done|]. split; [|done].
    intros c' Hc'. destruct c'; simpl in Hc'; try lia; done. }
  apply Z.leb_gt in Hp.
  assert (~ fails cfg v PriceTooLow) as N3 by (simpl; lia).
  destruct (blockedStatusLoop a _ _) as [r|] eqn:Hst.
  { destruct (blockedStatusLoop_Some a _ r Hst) as (pre & b & post & Hcfg & Hpre & Hb & ->).
    exists BlockedStatus. split; [|split].
    - exists a, b. split; [done|]. split; [rewrite Hcfg; apply elem_of_app; right; left|done].
    - intros c' Hc'. destruct c'; simpl in Hc'; try lia; done.
    - exists a, pre, b, post. done. }
  pose proof (not_fails_status cfg v a Ha Hst) as N4.
  destruct (plateMissing (license_plate v)) eqn:Hpl.
  { exists MissingIdentifier. split; [exact (proj1 (plateMissing_spec _) Hpl)|]. split; [|done].
    intros c' Hc'. destruct c'; simpl in Hc'; try lia; done. }
  assert (~ fails cfg v MissingIdentifier) as N5.
  { intros Hf. apply (proj2 (plateMissing_spec _)) in Hf. congruence. }
  destruct (requireImages cfg) eqn:Hreq; simpl.
  - destruct (hasImages v) eqn:Hi; simpl.
    + intros c. destruct c; try done.
      intros [_ Hf]. apply (proj2 (hasImages_false v)) in Hf. congruence.
    + exists NoImages. split; [|split; [|done]].
      * split; [done|]. exact (proj1 (hasImages_false v) Hi).
      * intros c' Hc'. destruct c'; simpl in Hc'; try lia; done.
  - intros c. destruct c; try done. intros [Hf _]. congruence.
Qed.

(** ** The version fingerprint *)

Lemma String_leb_trans (a b c : string) :
  String.leb a b = true -> String.leb b c = true -> String.leb a c = true.
Proof.
  unfold String.leb. revert b c.
  induction a as [|x a IH]; intros [|y b] [|z c]; simpl; try done.
  unfold Ascii.compare.
  destruct (N.compare_spec (N_of_ascii x) (N_of_ascii y)) as [E1|E1|E1];
    destruct (N.compare_spec (N_of_ascii y) (N_of_ascii z)) as [E2|E2|E2];
    try done.
  - rewrite E1, E2, N.compare_refl. apply IH.
  - rewrite E1. by rewrite (proj2 (N.compare_lt_iff _ _) E2).
  - rewrite <- E2. by rewrite (proj2 (N.compare_lt_iff _ _) E1).
  - by rewrite (proj2 (N.compare_lt_iff _ _) (N.lt_trans _ _ _ E1 E2)).
Qed.

#[local] Instance strLe_trans : Transitive strLe.
Proof. intros a b c. apply String_leb_trans. Qed.

#[local] Instance strLe_total : Total strLe.
Proof. intros a b. apply String.leb_total. Qed.

#[local] Instance strLe_antisym : AntiSymm eq strLe.
Proof. intros a b. apply String.leb_antisym. Qed.

(** Sorting forgets the order of its input. *)
Lemma sortStrings_Permutation (l1 l2 : list string) :
  l1 ≡ₚ l2 -> sortStrings l1 = sortStrings l2.
Proof.
  intros Hp. unfold sortStrings.
  apply (StronglySorted_unique strLe).
  - apply StronglySorted_merge_sort; apply _.
  - apply StronglySorted_merge_sort; apply _.
  - by rewrite !merge_sort_Permutation.
Qed.

Lemma List_filter_Permutation {A} (f : A -> bool) (l1 l2 : list A) :
  l1 ≡ₚ l2 -> List.filter f l1 ≡ₚ List.filter f l2.
Proof.
  induction 1 as [|x l1 l2 _ IH|x y l|l1 l2 l3 _ IH1 _ IH2]; simpl.
  - done.
  - destruct (f x); [by constructor|done].
  - destruct (f x), (f y); try done. apply perm_swap.
  - by etrans.
Qed.

Lemma imageUrlsOf_withImages v imgs :
  imageUrlsOf (withImages v (Some imgs)) =
  List.filter (fun u => negb (String.eqb u "")) (List.map (fun img => strOr (url img) "") imgs).
Proof. done. Qed.

Lemma relevantData_images v1 v2 :
  withImages v1 None = withImages v2 None ->
  sortStrings (imageUrlsOf v1) = sortStrings (imageUrlsOf v2) ->
  relevantData v1 = relevantData v2.
Proof.
  destruct v1, v2. unfold withImages; simpl. intros [= -> -> -> -> -> -> -> -> -> -> -> -> -> -> -> -> -> ->].
  intros Hs. unfold relevantData, titleOf, firstColorName, activeStockStatus, listPrice; simpl.
  by rewrite Hs.
Qed.

(** C5. For every record and every permutation of its [images] array,
    generateVersionHash returns the same value. *)
Theorem generateVersionHash_images_permutation (env : Env) (v : AsofixVehicle)
    (imgs : list Image) :
  default [] (images v) ≡ₚ imgs ->
  generateVersionHash env (withImages v (Some imgs)) = generateVersionHash env v.
Proof.
  intros Hp. unfold generateVersionHash. do 2 f_equal.
  apply relevantData_images; [by destruct v|].
  apply sortStrings_Permutation. rewrite imageUrlsOf_withImages. unfold imageUrlsOf.
  apply List_filter_Permutation, Permutation_map. by symmetry.
Qed.

Lemma generateVersionHash_images_permutation_witness :
  default [] (images vehicleOk) ≡ₚ
    [mkImage (Some "https://cdn.example/th-a.jpg"); mkImage (Some "https://cdn.example/th-b.jpg")] /\
  generateVersionHash envSample
    (withImages vehicleOk
       (Some [mkImage (Some "https://cdn.example/th-a.jpg");
              mkImage (Some "https://cdn.example/th-b.jpg")])) =
  generateVersionHash envSample vehicleOk.
Proof.
  assert (default [] (images vehicleOk) ≡ₚ
    [mkImage (Some "https://cdn.example/th-a.jpg"); mkImage (Some "https://cdn.example/th-b.jpg")])
    as Hp by (simpl; apply perm_swap).
  split; [exact Hp|].
  exact (generateVersionHash_images_permutation envSample vehicleOk _ Hp).
Defined.

(** ** The orchestrator *)

(** C2. If the tracker is empty when the cleanup phase begins, the phase
    changes nothing: the store, the tracker and the counters are the ones it
    received, so no vehicle is archived by it. *)
Theorem cleanupPhase_skipped_when_tracker_empty (env : Env)
    (lookup : string -> LookupOutcome) (dbNow jsNow : Z) (st : RunState) :
  size (validVehicleIds st) = 0%nat ->
  cleanupPhase env lookup dbNow jsNow st = st.
Proof.
  intros Hsize. unfold cleanupPhase. by rewrite Hsize.
Qed.

Lemma cleanupPhase_skipped_when_tracker_empty_witness :
  size (validVehicleIds (runStateOf worldStale ∅)) = 0%nat /\
  cleanupCandidates laterNow {["B-200"]} worldStale = [rowStale] /\
  cleanupPhase envSample (fun _ => lookup_null) laterNow laterNow (runStateOf worldStale ∅) =
  runStateOf worldStale ∅.
Proof.
  split; [reflexivity|]. split; [reflexivity|].
  apply (cleanupPhase_skipped_when_tracker_empty envSample (fun _ => lookup_null)
           laterNow laterNow (runStateOf worldStale ∅)).
  reflexivity.
Defined.

Lemma asofixIdOf_known (v : AsofixVehicle) :
  api_id v <> "" -> api_id v <> "ID_DESCONOCIDO" ->
  asofixIdOf v = api_id v /\ knownId (asofixIdOf v) = true.
Proof.
  intros H1 H2. unfold asofixIdOf, knownId, strOr.
  apply String.eqb_neq in H1 as H1'. rewrite H1'. split; [done|].
  rewrite H1'. apply String.eqb_neq in H2. by rewrite H2.
Qed.

Lemma addIfAdmissible_adds env v valid :
  omit (shouldOmitVehicle (filterConfig env) v) = false ->
  api_id v <> "" -> api_id v <> "ID_DESCONOCIDO" ->
  api_id v ∈ addIfAdmissible env v valid.
Proof.
  intros Ho H1 H2. destruct (asofixIdOf_known v H1 H2) as [Hid Hk].
  unfold addIfAdmissible. rewrite Ho, Hk, Hid. simpl. set_solver.
Qed.

Lemma addIfAdmissible_mono env v valid : valid ⊆ addIfAdmissible env v valid.
Proof. unfold addIfAdmissible. case_match; set_solver. Qed.

Lemma afterReturn_mono env v result st w :
  validVehicleIds st ⊆ validVehicleIds (afterReturn env v result st w).
Proof.
  unfold afterReturn.
  repeat (case_match; simpl); try set_solver;
    (etrans; [|apply addIfAdmissible_mono]); set_solver.
Qed.

Lemma retryLoop_mono env process incremental v fuel retryCount st :
  validVehicleIds st ⊆ validVehicleIds (retryLoop env process incremental v fuel retryCount st).
Proof.
  revert retryCount st. induction fuel as [|fuel IH]; intros retryCount st; simpl; [done|].
  case_match; [done|].
  destruct (process v incremental (world st)) as [[result|msg] w].
  - apply afterReturn_mono.
  - case_match; simpl; [apply addIfAdmissible_mono|].
    etrans; [|apply IH]. done.
Qed.

Lemma reconcileBatch_mono env process incremental limit batch st :
  validVehicleIds st ⊆ validVehicleIds (reconcileBatch env process incremental limit batch st).
Proof.
  revert st. induction batch as [|v batch IH]; intros st; simpl; [done|].
  case_match; [done|]. etrans; [|apply IH]. apply retryLoop_mono.
Qed.

Lemma reconcileBatches_mono env process incremental limit batchSize fuel remaining st :
  validVehicleIds st ⊆
  validVehicleIds (reconcileBatches env process incremental limit batchSize fuel remaining st).
Proof.
  revert remaining st. induction fuel as [|fuel IH]; intros remaining st; simpl; [done|].
  destruct remaining as [|v rest]; [done|].
  etrans; [|apply IH]. apply reconcileBatch_mono.
Qed.

Lemma retryLoop_terminal_failure env process incremental v fuel retryCount st :
  (S fuel + retryCount = maxRetries)%nat ->
  failsTerminally process incremental v (S fuel) (world st) = true ->
  omit (shouldOmitVehicle (filterConfig env) v) = false ->
  api_id v <> "" -> api_id v <> "ID_DESCONOCIDO" ->
  api_id v ∈ validVehicleIds (retryLoop env process incremental v (S fuel) retryCount st).
Proof.
  intros Hfuel Hfail Ho H1 H2. revert retryCount st Hfuel Hfail.
  induction fuel as [|fuel IH]; intros retryCount st Hfuel Hfail.
  - assert (retryCount = 2%nat) as -> by (unfold maxRetries in Hfuel; lia).
    simpl in *. destruct (process v incremental (world st)) as [[result|msg] w].
    + apply negb_true_iff in Hfail. unfold afterReturn. rewrite Hfail. simpl.
      by apply addIfAdmissible_adds.
    + simpl. by apply addIfAdmissible_adds.
  - assert ((retryCount <? maxRetries)%nat = true) as Hlt
      by (apply Nat.ltb_lt; unfold maxRetries in *; lia).
    assert ((maxRetries <=? S retryCount)%nat = false) as Hle
      by (apply Nat.leb_gt; unfold maxRetries in *; lia).
    cbn [retryLoop]. rewrite Hlt. cbn [negb].
    cbn [failsTerminally] in Hfail.
    destruct (process v incremental (world st)) as [[result|msg] w].
    + apply negb_true_iff in Hfail. unfold afterReturn. rewrite Hfail. simpl.
      by apply addIfAdmissible_adds.
    + rewrite Hle. apply IH; [lia|done].
Qed.

(** C4. When the processing of a record fails terminally (processVehicle
    returns [success = false], or throws at each of the [maxRetries]
    attempts), the record passes the filters and its id is known, the id is
    in the tracker after the record, stays in it to the end of the reconcile
    batches, and the SELECT of the cleanup phase then leaves every vehicle
    with that id out of its candidates. *)
Theorem failed_admissible_record_is_tracked (env : Env) (process : Processor)
    (incremental : bool) (vehicle : AsofixVehicle) (st : RunState) :
  failsTerminally process incremental vehicle maxRetries (world st) = true ->
  omit (shouldOmitVehicle (filterConfig env) vehicle) = false ->
  api_id vehicle <> "" -> api_id vehicle <> "ID_DESCONOCIDO" ->
  let st1 := reconcileVehicle env process incremental vehicle st in
  api_id vehicle ∈ validVehicleIds st1 /\
  (forall limit batchSize fuel later rest,
     let st2 := reconcileBatches env process incremental limit batchSize fuel later
                  (reconcileBatch env process incremental limit rest st1) in
     api_id vehicle ∈ validVehicleIds st2 /\
     forall dbNow c, c ∈ cleanupCandidates dbNow (validVehicleIds st2) (world st2) ->
                     veh_asofix_id c <> api_id vehicle).
Proof.
  intros Hfail Ho H1 H2 st1.
  assert (api_id vehicle ∈ validVehicleIds st1) as Hin.
  { unfold st1, reconcileVehicle. by apply retryLoop_terminal_failure. }
  split; [done|]. intros limit batchSize fuel later rest st2.
  assert (api_id vehicle ∈ validVehicleIds st2) as Hin2.
  { unfold st2. eapply reconcileBatches_mono, reconcileBatch_mono, Hin. }
  split; [done|]. intros dbNow c Hc Heq.
  unfold cleanupCandidates in Hc. apply subseteq_take in Hc.
  apply list_elem_of_In, filter_In in Hc as [_ Hc].
  apply andb_true_iff in Hc as [Hc _]. apply andb_true_iff in Hc as [_ Hc].
  apply negb_true_iff, bool_decide_eq_false in Hc. apply Hc. by rewrite Heq.
Qed.

Lemma failed_admissible_record_is_tracked_witness :
  failsTerminally (processVehicleStep envSample 1000) false vehicleOk maxRetries
    (world (runStateOf worldZero ∅)) = true /\
  "A-100" ∈ validVehicleIds
    (reconcileVehicle envSample (processVehicleStep envSample 1000) false vehicleOk
       (runStateOf worldZero ∅)).
Proof.
  assert (failsTerminally (processVehicleStep envSample 1000) false vehicleOk maxRetries
            (world (runStateOf worldZero ∅)) = true) as Hf by reflexivity.
  split; [exact Hf|].
  refine (proj1 (failed_admissible_record_is_tracked envSample
                   (processVehicleStep envSample 1000) false vehicleOk
                   (runStateOf worldZero ∅) Hf _ _ _)); [reflexivity|discriminate|discriminate].
Defined.

Lemma objGet_objSet_eq (o : JsObject) (k : string) (v : json) :
  objGet (objSet o k v) k = Some v.
Proof.
  induction o as [|[k' v'] o IH]; simpl.
  - by rewrite String.eqb_refl.
  - destruct (String.eqb k' k) eqn:E; simpl; rewrite E; [done|apply IH].
Qed.

Lemma objGet_objSet_ne (o : JsObject) (k k' : string) (v : json) :
  k <> k' -> objGet (objSet o k v) k' = objGet o k'.
Proof.
  intros Hne. induction o as [|[k0 v0] o IH]; simpl.
  - apply String.eqb_neq in Hne. by rewrite Hne.
  - destruct (String.eqb k0 k) eqn:E; simpl.
    + apply String.eqb_eq in E. subst k0. apply String.eqb_neq in Hne. by rewrite Hne.
    + destruct (String.eqb k0 k'); [done|apply IH].
Qed.

Lemma Forall2_map_r {A B} (P : A -> B -> Prop) (f : A -> B) (l : list A) :
  (forall x, x ∈ l -> P x (f x)) -> Forall2 P l (List.map f l).
Proof.
  induction l as [|x l IH]; intros H; simpl; constructor.
  - apply H. by left.
  - apply IH. intros y Hy. apply H. by right.
Qed.

Lemma archiveCleanup_archived env dbNow jsNow c verification st :
  cleanupArchived st (archiveCleanup env dbNow jsNow c verification st) c verification.
Proof.
  unfold cleanupArchived, archiveCleanup; simpl. split; [done|]. split; [done|].
  apply Forall2_map_r. intros r _. unfold whereId.
  destruct (veh_id r =? veh_id c); [|done]. simpl. split; [done|]. split.
  - rewrite !objGet_objSet_ne by done. apply objGet_objSet_eq.
  - rewrite objGet_objSet_ne by done. apply objGet_objSet_eq.
Qed.

Lemma keepValid_kept c st : cleanupKept st (keepValid c st) c.
Proof. done. Qed.

Ltac flag_cases doc Hflag :=
  destruct (objGet doc "keep_published") as [[| [|] | | | |]|];
  try (by destruct Hflag).

(** C3 (amended). For a candidate whose last update is older than the grace
    window: with the keep_published flag it is kept and tracked whatever the
    lookup would say; without the flag and without a license plate it is
    archived with reason sin_license_plate; without the flag and with a
    license plate the point lookup decides: found with the candidate's id and
    admissible, kept and added to the tracker; found with the candidate's id
    and inadmissible, archived as filtered on recheck; found with another id
    or not found, archived as absent from the feed; lookup throws, archived
    as recheck failed. *)
Theorem cleanupVehicle_case_analysis (env : Env) (lookup : string -> LookupOutcome)
    (dbNow jsNow : Z) (c : VehicleRow) (st : RunState) :
  (forall t, veh_updated_at c = Some t -> graceMs <= jsNow - t) ->
  let st' := cleanupVehicle env lookup dbNow jsNow c st in
  (objGet (storedDocument st c) "keep_published" = Some (JBool true) -> cleanupKept st st' c) /\
  (objGet (storedDocument st c) "keep_published" <> Some (JBool true) ->
   (forall p, storedPlate st c = Some p -> trim p = "") ->
   cleanupArchived st st' c "sin_license_plate") /\
  (forall plate,
     objGet (storedDocument st c) "keep_published" <> Some (JBool true) ->
     storedPlate st c = Some plate -> trim plate <> "" ->
     match lookup plate with
     | lookup_found apiVehicle =>
         if String.eqb (api_id apiVehicle) (veh_asofix_id c) then
           match shouldOmitVehicle (filterConfig env) apiVehicle with
           | mkOmit false _ => cleanupKept st st' c
           | mkOmit true r =>
               cleanupArchived st st' c ("filtrado_en_api: " +:+ default "undefined" r)
           end
         else cleanupArchived st st' c "no_encontrado_en_api"
     | lookup_null => cleanupArchived st st' c "no_encontrado_en_api"
     | lookup_throws msg => cleanupArchived st st' c ("error_consulta_api: " +:+ msg)
     end).
Proof.
  intros Hold st'.
  assert (match veh_updated_at c with
          | Some t => jsNow - t <? graceMs
          | None => false
          end = false) as Hrecent.
  { destruct (veh_updated_at c) as [t|] eqn:E; [|done]. apply Z.ltb_ge. by apply Hold. }
  unfold st', cleanupVehicle, storedDocument, storedPlate.
  set (doc := parseAdditionalData _).
  set (plate_ := selectVehicleById (world st) (veh_id c) ≫= veh_license_plate).
  rewrite Hrecent.
  split; [|split].
  - intros ->. apply keepValid_kept.
  - intros Hflag Hplate.
    destruct plate_ as [p|] eqn:Ep.
    + assert (negb (String.eqb p "") && negb (isBlank p) = false) as Hb.
      { unfold isBlank. rewrite (Hplate p eq_refl). simpl. apply andb_false_r. }
      rewrite Hb. flag_cases doc Hflag; apply archiveCleanup_archived.
    + flag_cases doc Hflag; apply archiveCleanup_archived.
  - intros plate Hflag -> Hplate.
    assert (negb (String.eqb plate "") && negb (isBlank plate) = true) as Hb.
    { unfold isBlank. apply andb_true_iff. split; apply negb_true_iff, String.eqb_neq; [|done].
      intros ->. by apply Hplate. }
    rewrite Hb.
    destruct (lookup plate) as [apiVehicle| |msg].
    + destruct (String.eqb (api_id apiVehicle) (veh_asofix_id c)).
      * destruct (shouldOmitVehicle (filterConfig env) apiVehicle) as [[|] r]; simpl;
          flag_cases doc Hflag; first [apply archiveCleanup_archived | apply keepValid_kept].
      * flag_cases doc Hflag; apply archiveCleanup_archived.
    + flag_cases doc Hflag; apply archiveCleanup_archived.
    + flag_cases doc Hflag; apply archiveCleanup_archived.
Qed.

Lemma cleanupVehicle_case_analysis_witness :
  (forall t, veh_updated_at rowStale = Some t -> graceMs <= laterNow - t) /\
  cleanupArchived (runStateOf worldStale {["B-200"]})
    (cleanupVehicle envSample lookupNull laterNow laterNow rowStale
       (runStateOf worldStale {["B-200"]}))
    rowStale "no_encontrado_en_api".
Proof.
  assert (forall t, veh_updated_at rowStale = Some t -> graceMs <= laterNow - t) as Hold.
  { intros t [= <-]. unfold graceMs, laterNow. lia. }
  assert (objGet (storedDocument (runStateOf worldStale {["B-200"]}) rowStale) "keep_published"
          <> Some (JBool true)) as Hflag by (intros [=]).
  assert (trim "ABC123" <> "") as Hplate by (intros [=]).
  split; [exact Hold|].
  exact (proj2 (proj2 (cleanupVehicle_case_analysis envSample lookupNull laterNow laterNow
                         rowStale (runStateOf worldStale {["B-200"]}) Hold))
           "ABC123" Hflag eq_refl Hplate).
Defined.

(** C3, as stated, fails on the code: a candidate that carries the
    keep_published flag is not archived although the lookup does not find
    it, and a candidate without license plate is archived with a reason that
    is none of the four of the recheck. *)
Lemma cleanup_candidate_not_resolved_by_lookup :
  cleanupCandidates laterNow {["B-200"]} worldKeep = [rowKeep] /\
  lookupNull "ABC123" = lookup_null /\
  List.map veh_status
    (vehicles (world (cleanupPhase envSample lookupNull laterNow laterNow
                        (runStateOf worldKeep {["B-200"]})))) = [published] /\
  cleanupCandidates laterNow {["B-200"]} worldNoPlate = [rowNoPlate] /\
  List.map (fun r => (veh_status r,
                      objGet (parseAdditionalData (veh_additional_data r)) "cleanup_verification"))
    (vehicles (world (cleanupPhase envSample lookupNull laterNow laterNow
                        (runStateOf worldNoPlate {["B-200"]})))) =
  [(archived, Some (JStr "sin_license_plate"))].
Proof. repeat split; reflexivity. Qed.

(** A first run over a feed of one admissible record: the vehicle is
    created, its two image URLs are queued and its id is tracked. *)
Example first_run_creates_vehicle :
  let st := reconcileBatches envSample (processVehicleStep envSample 1000) false 0 50 1
              [vehicleOk] (runStateOf emptyWorld ∅) in
  bool_decide ("A-100" ∈ validVehicleIds st) = true /\
  fase1Created st = 1 /\
  List.map (fun r => (veh_id r, veh_asofix_id r, veh_title r, veh_status r, veh_price_usd r))
    (vehicles (world st)) = [(1, "A-100", "Toyota Corolla XEI", published, Some 5000)] /\
  List.map (fun p => (pend_vehicle_id p, pend_image_url p)) (pending_images (world st)) =
    [(1, "https://cdn.example/th-b.jpg"); (1, "https://cdn.example/th-a.jpg")] /\
  List.map (fun t => (term_taxonomy t, term_name t)) (taxonomy_terms (world st)) =
    [("brand", "Toyota"); ("model", "Corolla"); ("condition", "Usado");
     ("transmission", "Manual"); ("fuel_type", "Nafta"); ("color", "Blanco");
     ("segment", "Sedan")].
Proof. repeat split; reflexivity. Qed.

(** *** The cleanup phase leaves tracked vehicles alone *)

Lemma updateVehicles_other cond f w r :
  r ∈ vehicles w -> cond r = false -> r ∈ vehicles (updateVehicles cond f w).
Proof.
  intros Hr Hc. unfold updateVehicles; simpl. apply list_elem_of_In, in_map_iff.
  exists r. rewrite Hc. split; [done|by apply list_elem_of_In].
Qed.

Lemma cleanupVehicle_other_rows env lookup dbNow jsNow c st r :
  r ∈ vehicles (world st) -> veh_id r <> veh_id c ->
  r ∈ vehicles (world (cleanupVehicle env lookup dbNow jsNow c st)).
Proof.
  intros Hr Hne.
  assert (forall reason_, r ∈ vehicles (world (archiveCleanup env dbNow jsNow c reason_ st)))
    as Harch.
  { intros reason_. unfold archiveCleanup; simpl. apply updateVehicles_other; [done|].
    unfold whereId. by apply Z.eqb_neq. }
  unfold cleanupVehicle. repeat case_match; try done; apply Harch.
Qed.

Lemma cleanupLoop_other_rows env lookup dbNow jsNow candidates st r :
  r ∈ vehicles (world st) -> (forall c, c ∈ candidates -> veh_id r <> veh_id c) ->
  r ∈ vehicles
        (world (List.fold_left (fun acc c => cleanupVehicle env lookup dbNow jsNow c acc)
                  candidates st)).
Proof.
  revert st. induction candidates as [|c candidates IH]; intros st Hr Hne; simpl; [done|].
  apply IH.
  - apply cleanupVehicle_other_rows; [done|]. apply Hne. by left.
  - intros c' Hc'. apply Hne. by right.
Qed.

Lemma primary_key_determines_row (l : list VehicleRow) (x y : VehicleRow) :
  NoDup (List.map veh_id l) -> x ∈ l -> y ∈ l -> veh_id x = veh_id y -> x = y.
Proof.
  induction l as [|z l IH]; simpl; intros Hnd Hx Hy Heq.
  - by apply elem_of_nil in Hx.
  - apply NoDup_cons in Hnd as [Hz Hnd].
    apply elem_of_cons in Hx as [->|Hx]; apply elem_of_cons in Hy as [->|Hy]; try done.
    + exfalso. apply Hz. rewrite Heq. by apply list_elem_of_In, in_map, list_elem_of_In.
    + exfalso. apply Hz. rewrite <- Heq. by apply list_elem_of_In, in_map, list_elem_of_In.
    + by apply IH.
Qed.

(** X1. With unique primary keys, a vehicle whose id is in the tracker when
    the cleanup phase begins comes out of the phase as it went in. *)
Lemma cleanupPhase_spares_tracked env lookup dbNow jsNow st r :
  NoDup (List.map veh_id (vehicles (world st))) ->
  r ∈ vehicles (world st) -> veh_asofix_id r ∈ validVehicleIds st ->
  r ∈ vehicles (world (cleanupPhase env lookup dbNow jsNow st)).
Proof.
  intros Hnd Hr Hvalid. unfold cleanupPhase. case_match; [|done].
  apply cleanupLoop_other_rows; [done|]. intros c Hc Heq.
  unfold cleanupCandidates in Hc. apply subseteq_take in Hc.
  apply list_elem_of_In, filter_In in Hc as [Hin Hc]. apply list_elem_of_In in Hin.
  apply andb_true_iff in Hc as [Hc _]. apply andb_true_iff in Hc as [_ Hc].
  apply negb_true_iff, bool_decide_eq_false in Hc. apply Hc.
  by rewrite <- (primary_key_determines_row _ r c Hnd Hr Hin Heq).
Qed.

Lemma cleanupPhase_spares_tracked_witness :
  rowTracked ∈ vehicles (world (cleanupPhase envSample lookupNull laterNow laterNow
                                  (runStateOf worldTwo {["B-200"]}))) /\
  List.map veh_status
    (vehicles (world (cleanupPhase envSample lookupNull laterNow laterNow
                        (runStateOf worldTwo {["B-200"]})))) = [archived; published].
Proof.
  split; [|reflexivity].
  apply (cleanupPhase_spares_tracked envSample lookupNull laterNow laterNow
           (runStateOf worldTwo {["B-200"]}) rowTracked).
  - simpl. apply NoDup_cons. split; [|apply NoDup_singleton].
    intros H. apply list_elem_of_singleton in H. discriminate.
  - simpl. right. left.
  - simpl. apply elem_of_singleton. reflexivity.
Defined.

(** *** The point lookup *)

Lemma searchPages_found api plate fuel page searched errors v :
  searchPages api plate fuel page searched errors = Some v -> plateMatches plate v = true.
Proof.
  revert page searched errors.
  induction fuel as [|fuel IH]; intros page searched errors; simpl; [done|].
  case_match; [done|].
  destruct (getVehiclesPage api page 100) as [response|msg].
  - destruct (List.find _ _) as [found|] eqn:Hfind.
    + intros [= <-]. by apply find_some in Hfind as [_ Hm].
    + case_match; [apply IH|done].
  - case_match; [done|apply IH].
Qed.

Lemma searchPages_served api plate fuel page searched errors v :
  searchPages api plate fuel page searched errors = Some v ->
  plateMatches plate v = true /\ servedBy api 100 v.
Proof.
  revert page searched errors.
  induction fuel as [|fuel IH]; intros page searched errors; simpl; [done|].
  case_match; [done|].
  destruct (getVehiclesPage api page 100) as [response|msg] eqn:Hp.
  - destruct (List.find _ _) as [found|] eqn:Hfind.
    + intros [= <-]. apply find_some in Hfind as [Hin Hm]. split; [done|].
      destruct (data response) as [l|] eqn:Hd; [|done].
      exists page, response, l. split; [done|]. split; [done|]. by apply list_elem_of_In.
    + case_match; [apply IH|done].
  - case_match; [done|apply IH].
Qed.

Lemma searchPages_consecutive_failures api plate fuel page searched errors k :
  (1 <= k)%nat -> (maxConsecutiveErrors <= errors + k)%nat ->
  (forall i, (i < k)%nat ->
     exists msg, getVehiclesPage api (page + Z.of_nat i) 100 = page_throws msg) ->
  searchPages api plate fuel page searched errors = None.
Proof.
  revert page searched errors k.
  induction fuel as [|fuel IH]; intros page searched errors k Hk Herr Hfail;
    cbn [searchPages]; [done|].
  case_match; [done|].
  destruct (Hfail 0%nat ltac:(lia)) as [msg Hmsg]. rewrite Z.add_0_r in Hmsg. rewrite Hmsg.
  destruct (maxConsecutiveErrors <=? S errors)%nat eqn:E; [done|].
  apply Nat.leb_gt in E. apply (IH _ _ _ (k - 1)%nat); [lia|lia|].
  intros i Hi. destruct (Hfail (S i) ltac:(lia)) as [m Hm]. exists m.
  rewrite <- Hm. f_equal. lia.
Qed.

Lemma searchPages_window api api' plate fuel page searched errors :
  maxPages api' = maxPages api ->
  (forall j, (searched + j < maxPages api)%nat ->
     getVehiclesPage api' (page + Z.of_nat j) 100 = getVehiclesPage api (page + Z.of_nat j) 100) ->
  searchPages api' plate fuel page searched errors =
  searchPages api plate fuel page searched errors.
Proof.
  intros Hmax. revert page searched errors.
  induction fuel as [|fuel IH]; intros page searched errors Hsame;
    cbn [searchPages]; [done|].
  rewrite Hmax. destruct (searched <? maxPages api)%nat eqn:E; cbn [negb]; [|done].
  apply Nat.ltb_lt in E.
  pose proof (Hsame 0%nat ltac:(lia)) as H0. rewrite Z.add_0_r in H0. rewrite H0.
  assert (forall e, searchPages api' plate fuel (page + 1) (S searched) e =
                    searchPages api plate fuel (page + 1) (S searched) e) as Hnext.
  { intros e. apply IH. intros j Hj. specialize (Hsame (S j) ltac:(lia)).
    by replace (page + 1 + Z.of_nat j) with (page + Z.of_nat (S j)) by lia. }
  destruct (getVehiclesPage api page 100) as [response|msg].
  - destruct (List.find _ _); [done|]. case_match; [apply Hnext|done].
  - case_match; [done|apply Hnext].
Qed.

(** X2. The lookup throws exactly for a missing API key or a blank plate. A
    record it finds was served by a catalog page and carries the plate asked
    for, up to case and surrounding white space. The error of a page request
    is swallowed: the search goes on with the next page, and it ends in "not
    found" as soon as three page requests in a row have failed, wherever in
    the run that happens. The search never reads beyond the page limit: at
    the limit it answers "not found", and its answer is the same for any two
    catalogs that agree on the pages 1 to the limit. *)
Lemma getVehicleByLicensePlate_outcomes api licensePlate :
  ((exists msg, getVehicleByLicensePlate api licensePlate = lookup_throws msg) <->
   apiKey api = "" \/ trim licensePlate = "") /\
  (forall v, getVehicleByLicensePlate api licensePlate = lookup_found v ->
     servedBy api 100 v /\
     exists p, license_plate v = Some p /\
               toUpperCase (trim p) = toUpperCase (trim licensePlate)) /\
  (apiKey api <> "" -> trim licensePlate <> "" ->
   (forall i, (i < 3)%nat ->
      exists msg, getVehiclesPage api (1 + Z.of_nat i) 100 = page_throws msg) ->
   getVehicleByLicensePlate api licensePlate = lookup_null) /\
  (forall plate fuel page searched errors msg,
     (searched < maxPages api)%nat -> (S errors < maxConsecutiveErrors)%nat ->
     getVehiclesPage api page 100 = page_throws msg ->
     searchPages api plate (S fuel) page searched errors =
     searchPages api plate fuel (page + 1) (S searched) (S errors)) /\
  (forall plate fuel page searched errors k,
     (1 <= k)%nat -> (maxConsecutiveErrors <= errors + k)%nat ->
     (forall i, (i < k)%nat ->
        exists msg, getVehiclesPage api (page + Z.of_nat i) 100 = page_throws msg) ->
     searchPages api plate fuel page searched errors = None) /\
  (forall plate fuel page searched errors,
     (maxPages api <= searched)%nat ->
     searchPages api plate fuel page searched errors = None) /\
  (forall api',
     apiKey api' = apiKey api -> maxPages api' = maxPages api ->
     (forall j, (j < maxPages api)%nat ->
        getVehiclesPage api' (1 + Z.of_nat j) 100 = getVehiclesPage api (1 + Z.of_nat j) 100) ->
     getVehicleByLicensePlate api' licensePlate = getVehicleByLicensePlate api licensePlate).
Proof.
  split; [|split; [|split; [|split; [|split; [|split]]]]].
  - unfold getVehicleByLicensePlate.
    destruct (String.eqb (apiKey api) "") eqn:Hk.
    { apply String.eqb_eq in Hk. split; [by left|]. intros _. by eexists. }
    apply String.eqb_neq in Hk.
    destruct (String.eqb licensePlate "" || isBlank licensePlate) eqn:Hb.
    { split; [|intros _; by eexists]. intros _. right.
      apply orb_true_iff in Hb as [Hb|Hb]; apply String.eqb_eq in Hb; [by subst|done]. }
    apply orb_false_iff in Hb as [_ Hb]. apply String.eqb_neq in Hb.
    destruct (searchPages _ _ _ _ _ _); (split; [by intros [msg ?]|by intros [?|?]]).
  - intros v. unfold getVehicleByLicensePlate.
    destruct (String.eqb (apiKey api) ""); [done|].
    destruct (String.eqb licensePlate "" || isBlank licensePlate); [done|].
    destruct (searchPages _ _ _ _ _ _) as [v'|] eqn:Hs; [|done].
    intros [= ->]. apply searchPages_served in Hs as [Hm Hserved]. split; [done|].
    unfold plateMatches in Hm. destruct (license_plate v) as [p|]; [|done].
    exists p. split; [done|]. apply andb_true_iff in Hm as [_ Hm]. by apply String.eqb_eq.
  - intros Hk Hb Hfail. unfold getVehicleByLicensePlate.
    apply String.eqb_neq in Hk. rewrite Hk.
    assert (String.eqb licensePlate "" || isBlank licensePlate = false) as ->.
    { apply orb_false_iff. split.
      - apply String.eqb_neq. intros ->. done.
      - by apply String.eqb_neq. }
    rewrite (searchPages_consecutive_failures api _ _ 1 0%nat 0%nat 3%nat);
      [done|lia|unfold maxConsecutiveErrors; lia|done].
  - intros plate fuel page searched errors msg Hs He Hmsg. cbn [searchPages].
    apply Nat.ltb_lt in Hs. rewrite Hs, Hmsg. cbn [negb].
    destruct (maxConsecutiveErrors <=? S errors)%nat eqn:E; [|done].
    apply Nat.leb_le in E. lia.
  - intros plate fuel page searched errors k. apply searchPages_consecutive_failures.
  - intros plate fuel page searched errors Hlimit. destruct fuel as [|fuel]; [done|].
    cbn [searchPages]. apply Nat.ltb_ge in Hlimit. by rewrite Hlimit.
  - intros api' Hkey Hmax Hsame. unfold getVehicleByLicensePlate. rewrite Hkey, Hmax.
    destruct (String.eqb (apiKey api) ""); [done|].
    destruct (String.eqb licensePlate "" || isBlank licensePlate); [done|].
    rewrite (searchPages_window api api' _ _ 1 0%nat 0%nat Hmax); [done|].
    intros j Hj. apply Hsame. lia.
Qed.

Example lookup_page_errors_end_in_null :
  getVehicleByLicensePlate apiFailing "ABC123" = lookup_null /\
  getVehicleByLicensePlate (mkApi "" (getVehiclesPage apiOnePage) 500) "ABC123" =
    lookup_throws "La API Key no está configurada. Verifica tu archivo .env" /\
  getVehicleByLicensePlate apiOnePage " abc123 " = lookup_found vehicleReserved /\
  getVehicleByLicensePlate apiOnePage "ZZZ999" = lookup_null.
Proof. repeat split; reflexivity. Qed.

(** With a tracker that is not empty the stale vehicle of [worldStale] is
    rechecked and archived. *)
Example cleanupPhase_archives_stale_vehicle :
  List.map (fun r => (veh_status r,
                      objGet (parseAdditionalData (veh_additional_data r)) "cleanup_verification"))
    (vehicles (world (cleanupPhase envSample (getVehicleByLicensePlate apiFailing) laterNow laterNow
                        (runStateOf worldStale {["B-200"]})))) =
  [(archived, Some (JStr "no_encontrado_en_api"))].
Proof. reflexivity. Qed.

(** ** The reconciler *)

(** C9 (amended). When the record of an existing vehicle is rejected by the
    filters, processVehicle sets [status] to archived, writes the bucket
    derived from the reason into [additional_data.filter_reason] (the other
    keys of the stored document are kept) and sets [updated_at] to the
    current time; every other column, every other vehicle, the
    [vehicle_images] rows, the stored files, the pending queue and the
    taxonomies are unchanged. *)
Theorem processVehicle_archive_frame (env : Env) (now : Z) (vehicle : AsofixVehicle)
    (incremental : bool) (w : World) (existingId : Z) :
  api_id vehicle <> "" ->
  omit (shouldOmitVehicle (filterConfig env) vehicle) = true ->
  findVehicleByAsofixId w (api_id vehicle) = Some existingId ->
  existingId <> 0 ->
  let '(result, w') := processVehicle env now vehicle incremental w in
  let bucket := filterReasonOf (reason (shouldOmitVehicle (filterConfig env) vehicle)) in
  let stored := parseAdditionalData (match selectVehicleById w existingId with
                                     | Some r => veh_additional_data r
                                     | None => col_null
                                     end) in
  success result = true /\ filtered result = Some true /\
  Forall2 (fun r r' =>
             archiveFrame r' = archiveFrame r /\
             if veh_id r =? existingId then
               veh_status r' = archived /\
               veh_updated_at r' = Some now /\
               objGet (parseAdditionalData (veh_additional_data r')) "filter_reason"
                 = Some (JStr bucket) /\
               forall k, k <> "filter_reason" ->
                 objGet (parseAdditionalData (veh_additional_data r')) k = objGet stored k
             else r' = r)
    (vehicles w) (vehicles w') /\
  vehicle_images w' = vehicle_images w /\
  files w' = files w /\
  pending_images w' = pending_images w /\
  taxonomy_terms w' = taxonomy_terms w /\
  vehicle_taxonomies w' = vehicle_taxonomies w.
Proof.
  intros Hid Homit Hfind Hnz. unfold processVehicle.
  apply String.eqb_neq in Hid. rewrite Hid, Homit, Hfind. simpl.
  assert ((existingId =? 0) = false) as Hz by by apply Z.eqb_neq.
  rewrite Hz. simpl. split; [done|]. split; [done|]. split; [|done].
  apply Forall2_map_r. intros r _. unfold whereId.
  destruct (veh_id r =? existingId); [|done]. simpl. split; [done|].
  split; [done|]. split; [done|]. split.
  - apply objGet_objSet_eq.
  - intros k Hk. by apply objGet_objSet_ne.
Qed.

Lemma processVehicle_archive_frame_witness :
  findVehicleByAsofixId worldStale (api_id vehicleReserved) = Some 7 /\
  let '(result, w') := processVehicle envSample 1000 vehicleReserved true worldStale in
  success result = true /\
  List.map veh_status (vehicles w') = [archived] /\
  List.map (fun r => objGet (parseAdditionalData (veh_additional_data r)) "filter_reason")
    (vehicles w') = [Some (JStr "no_active_stock")].
Proof.
  split; [reflexivity|].
  pose proof (processVehicle_archive_frame envSample 1000 vehicleReserved true worldStale 7
                ltac:(discriminate) eq_refl eq_refl ltac:(discriminate)) as H.
  destruct (processVehicle envSample 1000 vehicleReserved true worldStale) as [result w'] eqn:E.
  destruct H as (Hs & _ & _). split; [exact Hs|].
  injection E as <- <-. split; reflexivity.
Defined.

(** C9, as stated, fails on the code: archiving also rewrites the column
    [updated_at]. *)
Lemma archive_changes_updated_at :
  omit (shouldOmitVehicle (filterConfig envSample) vehicleReserved) = true /\
  List.map veh_updated_at (vehicles worldStale) = [Some 0] /\
  List.map veh_updated_at
    (vehicles (snd (processVehicle envSample 1000 vehicleReserved true worldStale))) = [Some 1000].
Proof. repeat split; reflexivity. Qed.

Lemma selectVehicleById_member (w : World) (r : VehicleRow) :
  NoDup (List.map veh_id (vehicles w)) -> r ∈ vehicles w ->
  selectVehicleById w (veh_id r) = Some r.
Proof.
  unfold selectVehicleById, whereId. induction (vehicles w) as [|x l IH]; simpl.
  - intros _ H. by apply elem_of_nil in H.
  - intros Hnd Hin. apply NoDup_cons in Hnd as [Hx Hnd].
    apply elem_of_cons in Hin as [->|Hin].
    + by rewrite Z.eqb_refl.
    + destruct (veh_id x =? veh_id r) eqn:E; [|by apply IH].
      apply Z.eqb_eq in E. exfalso. apply Hx. rewrite E.
      apply list_elem_of_In, in_map, list_elem_of_In, Hin.
Qed.

Lemma reactivateIfArchived_not_archived now w r :
  selectVehicleById w (veh_id r) = Some r -> veh_status r <> archived ->
  reactivateIfArchived now (veh_id r) w = w.
Proof.
  intros Hsel Hst. unfold reactivateIfArchived. rewrite Hsel. by case_decide.
Qed.

(** C6 (amended). In incremental mode, for a record that passes the filters
    and whose fingerprint equals the stored [version_hash] of a vehicle that
    is not archived, processVehicle reports the record as unchanged and its
    only write is the refresh of [last_synced_at] (with the automatic
    [updated_at]) on that vehicle: title, content, status, prices, every
    other column and vehicle, the taxonomy assignments, the [vehicle_images]
    and [pending_images] rows and the files are unchanged; the reconcile
    loop then adds the id to the tracker. *)
Theorem processVehicle_unchanged_frame (env : Env) (now : Z) (vehicle : AsofixVehicle)
    (st : RunState) (r0 : VehicleRow) :
  api_id vehicle <> "" -> api_id vehicle <> "ID_DESCONOCIDO" ->
  omit (shouldOmitVehicle (filterConfig env) vehicle) = false ->
  NoDup (List.map veh_id (vehicles (world st))) ->
  List.find (whereAsofixId (api_id vehicle)) (vehicles (world st)) = Some r0 ->
  veh_version_hash r0 = Some (generateVersionHash env vehicle) ->
  veh_status r0 <> archived ->
  let '(result, w') := processVehicle env now vehicle true (world st) in
  success result = true /\
  message result = "Sin cambios para " +:+ api_id vehicle /\
  wasNew result = Some false /\ wasUpdated result = Some false /\ filtered result = None /\
  Forall2 (fun r r' =>
             seenFrame r' = seenFrame r /\
             if String.eqb (veh_asofix_id r) (api_id vehicle)
             then veh_last_synced_at r' = Some now
             else r' = r)
    (vehicles (world st)) (vehicles w') /\
  vehicle_images w' = vehicle_images (world st) /\
  pending_images w' = pending_images (world st) /\
  taxonomy_terms w' = taxonomy_terms (world st) /\
  vehicle_taxonomies w' = vehicle_taxonomies (world st) /\
  files w' = files (world st) /\
  requests w' = requests (world st) /\
  api_id vehicle ∈
    validVehicleIds (reconcileVehicle env (processVehicleStep env now) true vehicle st).
Proof.
  intros Hid Hknown Homit Hnd Hfind Hhash Hst.
  assert (processVehicle env now vehicle true (world st) =
          (mkProcessResult true ("Sin cambios para " +:+ api_id vehicle) None (Some false)
             (Some false) None,
           updateVehicles (whereAsofixId (api_id vehicle)) (setLastSynced now) (world st)))
    as Hrun.
  { unfold processVehicle. apply String.eqb_neq in Hid as Hid'. rewrite Hid', Homit.
    unfold findVehicleByAsofixId. rewrite Hfind. simpl.
    assert (r0 ∈ vehicles (world st)) as Hin
      by (apply find_some in Hfind as [Hin _]; by apply list_elem_of_In).
    assert ((if negb (veh_id r0 =? 0) then reactivateIfArchived now (veh_id r0) (world st)
             else world st) = world st) as ->.
    { destruct (negb (veh_id r0 =? 0)); [|done].
      apply reactivateIfArchived_not_archived; [|done]. by apply selectVehicleById_member. }
    unfold needsUpdate. rewrite Hfind, Hhash, String.eqb_refl. done. }
  rewrite Hrun. simpl.
  repeat (split; [done|]). split; [|repeat (split; [done|])].
  - apply Forall2_map_r. intros r _. unfold whereAsofixId.
    destruct (String.eqb (veh_asofix_id r) (api_id vehicle)); done.
  - unfold reconcileVehicle, processVehicleStep. simpl. rewrite Hrun.
    destruct (asofixIdOf_known vehicle Hid Hknown) as [Ha Hk].
    unfold afterReturn. cbn [success filtered message isTrue default andb negb].
    rewrite Hk, Ha. cbn [andb]. case_match; simpl; set_solver.
Qed.

Lemma processVehicle_unchanged_frame_witness :
  List.find (whereAsofixId (api_id vehicleOk)) (vehicles worldStale) = Some rowStale /\
  let '(result, w') := processVehicle envSample 1000 vehicleOk true worldStale in
  message result = "Sin cambios para A-100" /\
  List.map veh_last_synced_at (vehicles w') = [Some 1000] /\
  List.map veh_title (vehicles w') = List.map veh_title (vehicles worldStale).
Proof.
  split; [reflexivity|].
  pose proof (processVehicle_unchanged_frame envSample 1000 vehicleOk (runStateOf worldStale ∅)
                rowStale ltac:(discriminate) ltac:(discriminate) eq_refl
                (NoDup_singleton 7) eq_refl eq_refl ltac:(discriminate)) as H.
  simpl world in H.
  destruct (processVehicle envSample 1000 vehicleOk true worldStale) as [result w'] eqn:E.
  destruct H as (_ & Hm & _). split; [exact Hm|].
  injection E as <- <-. split; reflexivity.
Defined.

(** C6, as stated, fails on the code: with an equal fingerprint an archived
    vehicle is reactivated (its status changes) before the record is
    reported as unchanged; and outside incremental mode the equal fingerprint
    does not stop the write path (here the pending queue is rewritten). *)
Lemma unchanged_fingerprint_still_writes :
  omit (shouldOmitVehicle (filterConfig envSample) vehicleOk) = false /\
  List.map veh_version_hash (vehicles worldArchived) =
    [Some (generateVersionHash envSample vehicleOk)] /\
  message (fst (processVehicle envSample 1000 vehicleOk true worldArchived)) =
    "Sin cambios para A-100" /\
  List.map veh_status (vehicles worldArchived) = [archived] /\
  List.map veh_status
    (vehicles (snd (processVehicle envSample 1000 vehicleOk true worldArchived))) = [published] /\
  pending_images worldStale = [] /\
  List.map pend_image_url
    (pending_images (snd (processVehicle envSample 1000 vehicleOk false worldStale))) =
    ["https://cdn.example/th-b.jpg"; "https://cdn.example/th-a.jpg"].
Proof. repeat split; reflexivity. Qed.

(** ** The image pipeline *)

(** C7 (amended). downloadImage deletes the pending rows of (vehicle, URL)
    when it succeeds (the image was already stored, or it was downloaded and
    inserted) and keeps every other pending row; when it fails (download
    error, or the insert is rejected) it leaves the pending queue as it
    was. *)
Theorem downloadImage_pending (env : Env) (now : Z) (imageUrl : string) (vehicleId_ : Z)
    (w : World) :
  let '(result, w') := downloadImage env now imageUrl vehicleId_ w in
  if d_success result then
    pending_images w' =
      List.filter (fun p => negb (pendingOf vehicleId_ imageUrl p)) (pending_images w) /\
    forall p, p ∈ pending_images w' ->
              ~ (pend_vehicle_id p = vehicleId_ /\ pend_image_url p = imageUrl)
  else pending_images w' = pending_images w.
Proof.
  assert (forall l p,
            p ∈ List.filter (fun p => negb (pendingOf vehicleId_ imageUrl p)) l ->
            ~ (pend_vehicle_id p = vehicleId_ /\ pend_image_url p = imageUrl)) as Hgone.
  { intros l p Hp [H1 H2]. apply list_elem_of_In, filter_In in Hp as [_ Hp].
    unfold pendingOf in Hp. rewrite H1, H2, Z.eqb_refl, String.eqb_refl in Hp. done. }
  unfold downloadImage.
  destruct (List.find _ _) as [existing|]; simpl.
  { split; [done|]. apply Hgone. }
  destruct (httpGet env _) as [body|msg]; simpl; [|done].
  destruct (existsb _ _); simpl; [|done].
  destruct (Nat.eqb _ 1); simpl; (split; [done|apply Hgone]).
Qed.

(** C7, as stated, fails on the code: after a download that fails the
    pending row is still in the queue, also after a whole run of
    downloadAllImages. *)
Lemma failed_download_keeps_pending_row :
  d_success (fst (downloadImage envSample 1000 "https://cdn.example/th-broken.jpg" 7 worldBroken))
    = false /\
  pending_images (snd (downloadImage envSample 1000 "https://cdn.example/th-broken.jpg" 7
                         worldBroken)) =
    [mkPendingRow 1 7 "https://cdn.example/th-broken.jpg"] /\
  pending_images (snd (downloadAllImages envSample 1000 worldBroken)) =
    [mkPendingRow 1 7 "https://cdn.example/th-broken.jpg"].
Proof. repeat split; reflexivity. Qed.

Lemma countImages_zero w vehicleId_ i :
  countImages w vehicleId_ = 0%nat -> i ∈ vehicle_images w -> img_vehicle_id i <> vehicleId_.
Proof.
  unfold countImages. intros Hc Hi Heq.
  assert (i ∈ List.filter (fun r => img_vehicle_id r =? vehicleId_) (vehicle_images w)) as Hin.
  { apply list_elem_of_In, filter_In. split; [by apply list_elem_of_In|by apply Z.eqb_eq]. }
  destruct (List.filter _ _); [by apply elem_of_nil in Hin|done].
Qed.

Lemma countImages_insert w vehicleId_ imageUrl filePath :
  countImages (snd (insertImage vehicleId_ imageUrl filePath w)) vehicleId_ =
  S (countImages w vehicleId_).
Proof.
  unfold countImages, insertImage; simpl. rewrite List.filter_app, length_app. simpl.
  rewrite Z.eqb_refl. simpl. lia.
Qed.

Lemma featuredInvariant_same w w' :
  vehicles w' = vehicles w -> vehicle_images w' = vehicle_images w ->
  featuredInvariant w -> featuredInvariant w'.
Proof.
  intros Hv Hi [H1 H2]. unfold featuredInvariant, featuredRows. rewrite Hv, Hi. by split.
Qed.

Lemma downloadImage_keeps_featuredInvariant env now imageUrl vehicleId_ w :
  featuredInvariant w -> featuredInvariant (snd (downloadImage env now imageUrl vehicleId_ w)).
Proof.
  intros Hinv. unfold downloadImage.
  destruct (List.find _ _) as [existing|]; [by apply (featuredInvariant_same w)|].
  destruct (httpGet env _) as [body|msg]; [|by apply (featuredInvariant_same w)].
  destruct (existsb _ _); [|by apply (featuredInvariant_same w)].
  set (filePath := storagePath env vehicleId_ (replaceFirst imageUrl "/th-" "/")).
  set (w2 := writeFile filePath body (logRequest (vehicleId_, imageUrl) w)).
  pose proof (countImages_insert w2 vehicleId_ imageUrl filePath) as Hcount.
  destruct (insertImage vehicleId_ imageUrl filePath w2) as [imageId w3] eqn:Hins.
  unfold insertImage in Hins. injection Hins as <- <-. simpl in Hcount.
  change (countImages w2 vehicleId_) with (countImages w vehicleId_) in Hcount.
  rewrite Hcount. destruct Hinv as [Hone Href].
  split.
  - intros v. unfold featuredRows.
    destruct (Nat.eqb _ 1); simpl; rewrite List.filter_app; simpl;
      rewrite andb_false_r; simpl; rewrite app_nil_r; apply Hone.
  - intros i r Hi Hf Hr Heq.
    destruct (Nat.eqb (S (countImages w vehicleId_)) 1) eqn:Hfirst; simpl in Hi, Hr.
    + apply Nat.eqb_eq in Hfirst. injection Hfirst as Hzero.
      apply elem_of_app in Hi as [Hi|Hi].
      2:{ apply list_elem_of_singleton in Hi. subst i. done. }
      apply list_elem_of_In, in_map_iff in Hr as (r0 & <- & Hr0).
      apply list_elem_of_In in Hr0. unfold whereId in *.
      destruct (veh_id r0 =? vehicleId_) eqn:E.
      * apply Z.eqb_eq in E. simpl in Heq.
        destruct (countImages_zero w vehicleId_ i Hzero Hi). congruence.
      * by apply Href.
    + apply elem_of_app in Hi as [Hi|Hi]; [by apply Href|].
      apply list_elem_of_singleton in Hi. subst i. done.
Qed.

Lemma downloadLoop_keeps_featuredInvariant env now jobs c w :
  featuredInvariant w -> featuredInvariant (snd (downloadLoop env now jobs c w)).
Proof.
  revert c w. induction jobs as [|[v u] jobs IH]; intros c w Hinv; simpl; [done|].
  pose proof (downloadImage_keeps_featuredInvariant env now u v w Hinv) as H.
  destruct (downloadImage env now u v w) as [result w1]. by apply IH.
Qed.

Lemma find_imageOf_none w vehicleId_ imageUrl :
  storedCount w vehicleId_ imageUrl = 0%nat ->
  List.find (imageOf vehicleId_ imageUrl) (vehicle_images w) = None.
Proof.
  unfold storedCount. intros Hc.
  destruct (List.find _ _) as [row|] eqn:E; [|done].
  apply find_some in E as [Hin Hm]. exfalso.
  assert (In row (List.filter (imageOf vehicleId_ imageUrl) (vehicle_images w))) as Hf
    by by apply filter_In.
  apply length_zero_iff_nil in Hc. by rewrite Hc in Hf.
Qed.

Lemma downloadImage_stores env now imageUrl vehicleId_ w body :
  List.find (imageOf vehicleId_ imageUrl) (vehicle_images w) = None ->
  httpGet env (replaceFirst imageUrl "/th-" "/") = http_ok body ->
  existsb (whereId vehicleId_) (vehicles w) = true ->
  let filePath := storagePath env vehicleId_ (replaceFirst imageUrl "/th-" "/") in
  let row := mkImageRow (next_image_id w) vehicleId_ imageUrl (Some filePath) false 0 in
  let w' := snd (downloadImage env now imageUrl vehicleId_ w) in
  fst (downloadImage env now imageUrl vehicleId_ w) =
    mkDownloadResult true ("Imagen descargada para vehículo " +:+ showNumber vehicleId_)
      (Some (next_image_id w)) /\
  vehicle_images w' = (vehicle_images w ++ [row])%list /\
  vehicles w' =
    (if Nat.eqb (countImages w vehicleId_) 0
     then List.map (fun r => if whereId vehicleId_ r
                             then setFeatured (next_image_id w) now r else r) (vehicles w)
     else vehicles w) /\
  files w' = (filePath, body) :: files w /\
  requests w' = (requests w ++ [(vehicleId_, imageUrl)])%list.
Proof.
  intros Hfind Hget Hfk. cbv zeta. unfold downloadImage. rewrite Hfind, Hget. cbv zeta.
  cbn [vehicles writeFile logRequest]. rewrite Hfk.
  set (filePath := storagePath env vehicleId_ (replaceFirst imageUrl "/th-" "/")).
  set (w2 := writeFile filePath body (logRequest (vehicleId_, imageUrl) w)).
  pose proof (countImages_insert w2 vehicleId_ imageUrl filePath) as Hcount.
  destruct (insertImage vehicleId_ imageUrl filePath w2) as [imageId w3] eqn:Hins.
  unfold insertImage in Hins. injection Hins as <- <-. simpl in Hcount.
  change (countImages w2 vehicleId_) with (countImages w vehicleId_) in Hcount.
  rewrite Hcount. destruct (countImages w vehicleId_) as [|k]; simpl; done.
Qed.

Lemma firstIsFeatured_same vehicleId_ w w' :
  vehicles w' = vehicles w -> vehicle_images w' = vehicle_images w ->
  firstIsFeatured vehicleId_ w -> firstIsFeatured vehicleId_ w'.
Proof. intros Hv Hi. unfold firstIsFeatured, imagesOfVehicle. by rewrite Hv, Hi. Qed.

Lemma downloadImage_keeps_first env now imageUrl vehicleId_ v w :
  firstIsFeatured v w -> firstIsFeatured v (snd (downloadImage env now imageUrl vehicleId_ w)).
Proof.
  intros Hfirst.
  destruct (List.find (imageOf vehicleId_ imageUrl) (vehicle_images w)) as [existing|] eqn:Hfind.
  { unfold downloadImage. rewrite Hfind. by apply (firstIsFeatured_same v w). }
  destruct (httpGet env (replaceFirst imageUrl "/th-" "/")) as [body|msg] eqn:Hget.
  2:{ unfold downloadImage. rewrite Hfind, Hget. by apply (firstIsFeatured_same v w). }
  destruct (existsb (whereId vehicleId_) (vehicles w)) eqn:Hfk.
  2:{ unfold downloadImage. rewrite Hfind, Hget. cbv zeta. cbn [vehicles writeFile logRequest].
      rewrite Hfk. by apply (firstIsFeatured_same v w). }
  destruct (downloadImage_stores env now imageUrl vehicleId_ w body Hfind Hget Hfk)
    as (_ & Hi & Hv & _).
  cbv zeta in Hi, Hv. unfold firstIsFeatured, imagesOfVehicle in *. rewrite Hi, Hv.
  rewrite List.filter_app. simpl. unfold countImages.
  destruct (Z.eqb_spec vehicleId_ v) as [->|Hne].
  - destruct (List.filter (fun r => img_vehicle_id r =? v) (vehicle_images w))
      as [|first rest] eqn:Himgs; simpl.
    + intros r Hr Heq. apply list_elem_of_In, in_map_iff in Hr as (r0 & <- & Hr0).
      unfold whereId in *. destruct (veh_id r0 =? v) eqn:E; [done|].
      apply Z.eqb_neq in E. done.
    + exact Hfirst.
  - rewrite app_nil_r.
    destruct (List.filter (fun r => img_vehicle_id r =? v) (vehicle_images w))
      as [|first rest] eqn:Himgs; [done|].
    destruct (Nat.eqb _ 0); [|exact Hfirst].
    intros r Hr Heq. apply list_elem_of_In, in_map_iff in Hr as (r0 & <- & Hr0).
    unfold whereId in *. destruct (veh_id r0 =? vehicleId_) eqn:E.
    + apply Z.eqb_eq in E. simpl in Heq. congruence.
    + apply Hfirst; [by apply list_elem_of_In|done].
Qed.

Lemma downloadLoop_keeps_first env now jobs c v w :
  firstIsFeatured v w -> firstIsFeatured v (snd (downloadLoop env now jobs c w)).
Proof.
  revert c w. induction jobs as [|[vid u] jobs IH]; intros c w Hfirst; simpl; [done|].
  pose proof (downloadImage_keeps_first env now u vid v w Hfirst) as H.
  destruct (downloadImage env now u vid w) as [result w1]. by apply IH.
Qed.

Lemma downloadImage_keeps_noneFlagged env now imageUrl vehicleId_ w :
  noneFlagged w -> noneFlagged (snd (downloadImage env now imageUrl vehicleId_ w)).
Proof.
  intros Hnone. unfold downloadImage, noneFlagged in *.
  destruct (List.find _ _) as [existing|]; [done|].
  destruct (httpGet env _) as [body|msg]; [|done].
  cbv zeta. destruct (existsb _ _); [|done].
  simpl. destruct (Nat.eqb _ 1); simpl; apply Forall_app; split; try done;
    by apply Forall_singleton.
Qed.

Lemma downloadLoop_keeps_noneFlagged env now jobs c w :
  noneFlagged w -> noneFlagged (snd (downloadLoop env now jobs c w)).
Proof.
  revert c w. induction jobs as [|[vid u] jobs IH]; intros c w Hnone; simpl; [done|].
  pose proof (downloadImage_keeps_noneFlagged env now u vid w Hnone) as H.
  destruct (downloadImage env now u vid w) as [result w1]. by apply IH.
Qed.

Lemma downloadImage_flagged env now imageUrl vehicleId_ w :
  flaggedRows (snd (downloadImage env now imageUrl vehicleId_ w)) = flaggedRows w.
Proof.
  unfold downloadImage, flaggedRows.
  destruct (List.find _ _) as [existing|]; [done|].
  destruct (httpGet env _) as [body|msg]; [|done].
  cbv zeta. destruct (existsb _ _); [|done].
  simpl. destruct (Nat.eqb _ 1); simpl; rewrite List.filter_app; simpl; by rewrite app_nil_r.
Qed.

Lemma downloadLoop_flagged env now jobs c w :
  flaggedRows (snd (downloadLoop env now jobs c w)) = flaggedRows w.
Proof.
  revert c w. induction jobs as [|[vid u] jobs IH]; intros c w; simpl; [done|].
  pose proof (downloadImage_flagged env now u vid w) as H.
  destruct (downloadImage env now u vid w) as [result w1]. cbn [snd] in H.
  by rewrite IH.
Qed.

Lemma noneFlagged_featuredInvariant w : noneFlagged w -> featuredInvariant w.
Proof.
  intros Hnone. unfold noneFlagged in Hnone. rewrite Forall_forall in Hnone. split.
  - intros v. unfold featuredRows.
    assert (List.filter (fun r => (img_vehicle_id r =? v) && img_is_featured r)
              (vehicle_images w) = []) as ->; [|simpl; lia].
    induction (vehicle_images w) as [|x l IH]; simpl; [done|].
    rewrite (Hnone x) by by left. rewrite andb_false_r. apply IH.
    intros y Hy. apply Hnone. by right.
  - intros i r Hi Hf. by rewrite (Hnone i Hi) in Hf.
Qed.

(** C10. The invariant (a vehicle has at most one [vehicle_images] row with
    [is_featured] set, and such a row is the one referenced by
    [featured_image_id]) holds of every store in which no row is flagged, the
    pipeline never writes [is_featured] (the flagged rows after a run are
    the flagged rows before it), and downloadImage and a whole run of
    downloadAllImages keep the invariant. downloadImage establishes the
    featured image through [featured_image_id]: a call for a pair that is
    not stored, whose URL downloads and whose vehicle exists, succeeds,
    appends the image row under the next id and, when the vehicle had no
    image row, makes every vehicle row of that id reference it; when the
    vehicle had an image the reference stays as it was. Through a whole run
    a vehicle that has images references the first one stored for it, if it
    did (or had none) when the run began. *)
Theorem downloadImage_featured (env : Env) (now : Z) (imageUrl : string) (vehicleId_ : Z)
    (w : World) :
  featuredInvariant w ->
  featuredInvariant (snd (downloadAllImages env now w)) /\
  (let '(result, w') := downloadImage env now imageUrl vehicleId_ w in
   featuredInvariant w' /\
   (d_success result = true -> countImages w vehicleId_ = 0%nat ->
    exists imageId,
      d_imageId result = Some imageId /\
      List.filter (fun r => img_vehicle_id r =? vehicleId_) (vehicle_images w') =
        [mkImageRow imageId vehicleId_ imageUrl
           (Some (storagePath env vehicleId_ (replaceFirst imageUrl "/th-" "/"))) false 0] /\
      forall r, r ∈ vehicles w' -> veh_id r = vehicleId_ ->
                veh_featured_image_id r = Some imageId) /\
   (countImages w vehicleId_ <> 0%nat ->
    List.map veh_featured_image_id (vehicles w') = List.map veh_featured_image_id (vehicles w)) /\
   (forall body,
      storedCount w vehicleId_ imageUrl = 0%nat ->
      httpGet env (replaceFirst imageUrl "/th-" "/") = http_ok body ->
      existsb (whereId vehicleId_) (vehicles w) = true ->
      d_success result = true /\ d_imageId result = Some (next_image_id w) /\
      vehicle_images w' =
        (vehicle_images w ++
         [mkImageRow (next_image_id w) vehicleId_ imageUrl
            (Some (storagePath env vehicleId_ (replaceFirst imageUrl "/th-" "/"))) false 0])%list /\
      (exists r, r ∈ vehicles w' /\ veh_id r = vehicleId_) /\
      (countImages w vehicleId_ = 0%nat ->
       forall r, r ∈ vehicles w' -> veh_id r = vehicleId_ ->
                 veh_featured_image_id r = Some (next_image_id w)))) /\
  (forall v, firstIsFeatured v w -> firstIsFeatured v (snd (downloadAllImages env now w))) /\
  (forall v, countImages w v = 0%nat -> firstIsFeatured v w) /\
  (noneFlagged w -> noneFlagged (snd (downloadAllImages env now w))) /\
  (forall w0, noneFlagged w0 -> featuredInvariant w0) /\
  flaggedRows (snd (downloadAllImages env now w)) = flaggedRows w.
Proof.
  intros Hinv. split; [by apply downloadLoop_keeps_featuredInvariant|].
  split; [|split; [|split; [|split; [|split]]]].
  6:{ apply downloadLoop_flagged. }
  2:{ intros v. apply downloadLoop_keeps_first. }
  2:{ intros v Hzero. unfold firstIsFeatured, imagesOfVehicle. unfold countImages in Hzero.
      apply length_zero_iff_nil in Hzero. by rewrite Hzero. }
  2:{ apply downloadLoop_keeps_noneFlagged. }
  2:{ apply noneFlagged_featuredInvariant. }
  pose proof (downloadImage_keeps_featuredInvariant env now imageUrl vehicleId_ w Hinv) as Hkeep.
  pose proof (downloadImage_stores env now imageUrl vehicleId_ w) as Hstores.
  destruct (downloadImage env now imageUrl vehicleId_ w) as [result w'] eqn:Hrun.
  cbn [fst snd] in Hkeep, Hstores. split; [exact Hkeep|].
  assert (forall body,
            storedCount w vehicleId_ imageUrl = 0%nat ->
            httpGet env (replaceFirst imageUrl "/th-" "/") = http_ok body ->
            existsb (whereId vehicleId_) (vehicles w) = true ->
            d_success result = true /\ d_imageId result = Some (next_image_id w) /\
            vehicle_images w' =
              (vehicle_images w ++
               [mkImageRow (next_image_id w) vehicleId_ imageUrl
                  (Some (storagePath env vehicleId_ (replaceFirst imageUrl "/th-" "/"))) false 0])%list /\
            (exists r, r ∈ vehicles w' /\ veh_id r = vehicleId_) /\
            (countImages w vehicleId_ = 0%nat ->
             forall r, r ∈ vehicles w' -> veh_id r = vehicleId_ ->
                       veh_featured_image_id r = Some (next_image_id w))) as Hprogress.
  { intros body Hs Hget Hfk.
    destruct (Hstores body (find_imageOf_none w _ _ Hs) Hget Hfk) as (Hres & Hi & Hv & _).
    cbv zeta in Hi, Hv. subst result. split; [done|]. split; [done|]. split; [exact Hi|].
    split.
    - apply existsb_exists in Hfk as (r & Hr & Hid). unfold whereId in Hid.
      apply Z.eqb_eq in Hid. rewrite Hv. destruct (Nat.eqb _ 0).
      + exists (if whereId vehicleId_ r then setFeatured (next_image_id w) now r else r).
        split; [apply list_elem_of_In, in_map_iff; by exists r|].
        by destruct (whereId vehicleId_ r).
      + exists r. split; [by apply list_elem_of_In|done].
    - intros Hzero r Hr Heq. rewrite Hv, Hzero in Hr. simpl in Hr.
      apply list_elem_of_In, in_map_iff in Hr as (r0 & <- & Hr0).
      unfold whereId in *. destruct (veh_id r0 =? vehicleId_) eqn:E; [done|].
      apply Z.eqb_neq in E. done. }
  split; [|split; [|exact Hprogress]].
  - intros Hsucc Hzero. revert Hrun. unfold downloadImage.
    destruct (List.find _ _) as [existing|] eqn:Hfind.
    { intros _. apply find_some in Hfind as [Hin Hm]. apply list_elem_of_In in Hin.
      unfold imageOf in Hm. apply andb_true_iff in Hm as [Hm _]. apply Z.eqb_eq in Hm.
      by destruct (countImages_zero w vehicleId_ existing Hzero Hin). }
    destruct (httpGet env _) as [body|msg] eqn:Hget.
    2:{ intros [= <- <-]. done. }
    cbv zeta. cbn [vehicles writeFile logRequest].
    destruct (existsb _ _) eqn:Hfk.
    2:{ intros [= <- <-]. done. }
    intros _.
    assert (storedCount w vehicleId_ imageUrl = 0%nat) as Hs.
    { unfold storedCount. destruct (List.filter _ _) as [|x l] eqn:E; [done|].
      assert (In x (List.filter (imageOf vehicleId_ imageUrl) (vehicle_images w))) as Hx
        by (rewrite E; by left).
      apply filter_In in Hx as [Hx Hm]. by rewrite (find_none _ _ Hfind x Hx) in Hm. }
    destruct (Hprogress body Hs eq_refl eq_refl) as (_ & Hid & Hi & _ & Hfeat).
    exists (next_image_id w). split; [done|]. split; [|by apply Hfeat].
    rewrite Hi, List.filter_app. simpl. rewrite Z.eqb_refl.
    unfold countImages in Hzero. apply length_zero_iff_nil in Hzero. by rewrite Hzero.
  - intros Hnz. revert Hrun. unfold downloadImage.
    destruct (List.find _ _) as [existing|] eqn:Hfind; [by intros [= <- <-]|].
    destruct (httpGet env _) as [body|msg] eqn:Hget; [|by intros [= <- <-]].
    cbv zeta. cbn [vehicles writeFile logRequest].
    destruct (existsb _ _) eqn:Hfk; [|by intros [= <- <-]].
    intros _.
    destruct (Hstores body eq_refl eq_refl eq_refl) as (_ & _ & Hv & _). cbv zeta in Hv.
    rewrite Hv. destruct (countImages w vehicleId_); done.
Qed.

Lemma featuredInvariant_emptyWorld : featuredInvariant emptyWorld.
Proof.
  split; [intros v; simpl; lia|]. intros i r Hi. by apply elem_of_nil in Hi.
Qed.

Lemma featuredInvariant_worldFeatured : featuredInvariant worldFeatured.
Proof.
  split.
  - intros v. unfold featuredRows; simpl. case_match; simpl; lia.
  - intros i r Hi _ Hr _. apply list_elem_of_singleton in Hi, Hr. by subst.
Qed.

Lemma downloadImage_featured_witness :
  featuredInvariant worldQueued /\
  countImages worldQueued 7 = 0%nat /\
  d_success (fst (downloadImage envSample 1000 "https://cdn.example/th-a.jpg" 7 worldQueued))
    = true /\
  List.map img_image_url
    (vehicle_images
       (snd (downloadImage envSample 1000 "https://cdn.example/th-a.jpg" 7 worldQueued)))
    = ["https://cdn.example/th-a.jpg"] /\
  List.map veh_featured_image_id
    (vehicles (snd (downloadImage envSample 1000 "https://cdn.example/th-a.jpg" 7 worldQueued)))
    = [Some 1] /\
  featuredInvariant
    (snd (downloadImage envSample 1000 "https://cdn.example/th-b.jpg" 7 worldFeatured)) /\
  List.map veh_featured_image_id
    (vehicles (snd (downloadImage envSample 1000 "https://cdn.example/th-b.jpg" 7 worldFeatured)))
  = [Some 3].
Proof.
  assert (featuredInvariant worldQueued) as Hq.
  { split; [intros v; simpl; lia|]. intros i r Hi. by apply elem_of_nil in Hi. }
  split; [exact Hq|]. split; [reflexivity|].
  pose proof (downloadImage_featured envSample 1000 "https://cdn.example/th-a.jpg" 7
                worldQueued Hq) as H.
  destruct (downloadImage envSample 1000 "https://cdn.example/th-a.jpg" 7 worldQueued)
    as [result w'] eqn:E.
  destruct H as (_ & (_ & _ & _ & Hprogress) & _).
  destruct (Hprogress _ eq_refl eq_refl eq_refl) as (Hs & _ & Hi & [r0 [Hr0 Hid0]] & Hfeat).
  cbn [fst snd]. split; [exact Hs|]. split; [by rewrite Hi|].
  split.
  { injection E as _ <-. reflexivity. }
  pose proof (downloadImage_featured envSample 1000 "https://cdn.example/th-b.jpg" 7
                worldFeatured featuredInvariant_worldFeatured) as H.
  destruct (downloadImage envSample 1000 "https://cdn.example/th-b.jpg" 7 worldFeatured)
    as [result2 w2] eqn:E2.
  destruct H as (_ & (Hinv & _ & Hkeep & _) & _). split; [exact Hinv|].
  simpl snd. rewrite Hkeep; [reflexivity|]. discriminate.
Defined.

(** The first image stored for a vehicle becomes its featured image. *)
Example downloadImage_first_is_featured :
  let '(result, w') := downloadImage envSample 1000 "https://cdn.example/th-a.jpg" 7 worldQueued in
  d_imageId result = Some 1 /\
  List.map veh_featured_image_id (vehicles w') = [Some 1] /\
  List.map img_is_featured (vehicle_images w') = [false] /\
  pending_images w' = [] /\
  requests w' = [(7, "https://cdn.example/th-a.jpg")].
Proof. repeat split; reflexivity. Qed.






Section Drain.
Context (env : Env) (vehicleId_ : Z) (imageUrl body : string) (n : nat).
Hypothesis Hget : httpGet env (replaceFirst imageUrl "/th-" "/") = http_ok body.





End Drain.





(** * Further properties of the code *)

(** ** filterVehicles *)

Lemma shouldOmitVehicle_reason_truthy cfg v :
  omit (shouldOmitVehicle cfg v) = true -> truthyStr (reason (shouldOmitVehicle cfg v)) = true.
Proof.
  unfold shouldOmitVehicle.
  destruct (findActiveStock v) as [a|]; [|done].
  cbv zeta. destruct (blockedOfficeLoop a _ _ _) as [r|] eqn:Hloc.
  { intros _. clear -Hloc. revert Hloc.
    induction (blockedBranchOffices cfg) as [|b l IH]; simpl; [done|].
    repeat case_match; try done; intros [= <-]; done. }
  destruct (_ <=? _); [done|].
  destruct (blockedStatusLoop a _ _) as [r|] eqn:Hst.
  { intros _. clear -Hst. revert Hst.
    induction (blockedStatuses cfg) as [|b l IH]; simpl; [done|].
    case_match; [intros [= <-]; done|done]. }
  repeat case_match; done.
Qed.

Lemma reasonCount_bump_eq l r : reasonCount (bumpReason l r) r = reasonCount l r + 1.
Proof.
  induction l as [|[k c] l IH]; simpl.
  - by rewrite String.eqb_refl.
  - destruct (String.eqb k r) eqn:E; simpl; rewrite E; [done|apply IH].
Qed.

Lemma reasonCount_bump_ne l r r' : r <> r' -> reasonCount (bumpReason l r) r' = reasonCount l r'.
Proof.
  intros Hne. induction l as [|[k c] l IH]; simpl.
  - apply String.eqb_neq in Hne. by rewrite Hne.
  - destruct (String.eqb k r) eqn:E; simpl.
    + apply String.eqb_eq in E. subst k. apply String.eqb_neq in Hne. by rewrite Hne.
    + destruct (String.eqb k r'); [done|apply IH].
Qed.

Lemma reasonTotal_bump l r : reasonTotal (bumpReason l r) = reasonTotal l + 1.
Proof.
  unfold reasonTotal. induction l as [|[k c] l IH]; simpl; [done|].
  destruct (String.eqb k r); simpl; [lia|]. rewrite IH. lia.
Qed.

Lemma bumpReason_keys l r :
  NoDup (List.map fst l) -> NoDup (List.map fst (bumpReason l r)) /\
  forall k, k ∈ List.map fst (bumpReason l r) -> k = r \/ k ∈ List.map fst l.
Proof.
  induction l as [|[k c] l IH]; simpl; intros Hnd.
  - split; [apply NoDup_singleton|]. intros k Hk. apply list_elem_of_singleton in Hk. by left.
  - apply NoDup_cons in Hnd as [Hk Hnd]. destruct (String.eqb k r) eqn:E; simpl.
    + split; [by apply NoDup_cons|]. intros k' Hk'. by right.
    + destruct (IH Hnd) as [IH1 IH2]. apply String.eqb_neq in E. split.
      * apply NoDup_cons. split; [|done]. intros Hin. destruct (IH2 k Hin); [done|done].
      * intros k' Hk'. apply elem_of_cons in Hk' as [->|Hk']; [right; by left|].
        destruct (IH2 k' Hk'); [by left|right; by right].
Qed.

Lemma filterVehiclesStep_omitted cfg acc v :
  omit (shouldOmitVehicle cfg v) = true ->
  exists r0, reason (shouldOmitVehicle cfg v) = Some r0 /\
    filterVehiclesStep cfg acc v =
      mkFilterOutcome (fv_filtered acc) (fv_omitted acc + 1) (bumpReason (fv_reasons acc) r0).
Proof.
  intros Ho. pose proof (shouldOmitVehicle_reason_truthy cfg v Ho) as Ht.
  unfold filterVehiclesStep. rewrite Ho, Ht.
  destruct (reason (shouldOmitVehicle cfg v)) as [r0|]; [|done]. by exists r0.
Qed.

Lemma filterVehiclesStep_kept cfg acc v :
  omit (shouldOmitVehicle cfg v) = false ->
  filterVehiclesStep cfg acc v =
    mkFilterOutcome (fv_filtered acc ++ [v]) (fv_omitted acc) (fv_reasons acc).
Proof. intros Ho. unfold filterVehiclesStep. by rewrite Ho. Qed.

Lemma filterVehicles_fold cfg vs acc :
  let out := List.fold_left (filterVehiclesStep cfg) vs acc in
  fv_filtered out =
    (fv_filtered acc ++ List.filter (fun v => negb (omit (shouldOmitVehicle cfg v))) vs)%list /\
  fv_omitted out =
    fv_omitted acc +
    Z.of_nat (List.length (List.filter (fun v => omit (shouldOmitVehicle cfg v)) vs)) /\
  (forall r, reasonCount (fv_reasons out) r =
             reasonCount (fv_reasons acc) r +
             Z.of_nat (List.length (List.filter (omittedFor cfg r) vs))) /\
  reasonTotal (fv_reasons out) =
    reasonTotal (fv_reasons acc) +
    Z.of_nat (List.length (List.filter (fun v => omit (shouldOmitVehicle cfg v)) vs)) /\
  (NoDup (List.map fst (fv_reasons acc)) -> NoDup (List.map fst (fv_reasons out))).
Proof.
  revert acc. induction vs as [|v vs IH]; intros acc; simpl.
  { rewrite app_nil_r. repeat split; try lia; try done. }
  destruct (IH (filterVehiclesStep cfg acc v)) as (H1 & H2 & H3 & H4 & H5).
  unfold omittedFor at 1.
  destruct (omit (shouldOmitVehicle cfg v)) eqn:Ho.
  - destruct (filterVehiclesStep_omitted cfg acc v Ho) as (r0 & Hr & Hstep).
    rewrite Hstep in *. rewrite Hr. simpl in *.
    split; [done|]. split; [lia|]. split; [|split].
    + intros r. rewrite H3. destruct (String.eqb r0 r) eqn:E.
      * apply String.eqb_eq in E. subst r0. rewrite reasonCount_bump_eq. simpl. lia.
      * apply String.eqb_neq in E. rewrite reasonCount_bump_ne by done. lia.
    + rewrite H4, reasonTotal_bump. lia.
    + intros Hnd. apply H5. by apply bumpReason_keys.
  - rewrite (filterVehiclesStep_kept cfg acc v Ho) in *. simpl in *.
    split; [by rewrite H1, <- app_assoc|]. repeat split; try done.
Qed.

(** X3. filterVehicles splits its input: the records kept are exactly the
    records that shouldOmitVehicle lets through, in their order; [omitted] counts
    the others; the count recorded under each reason is the number of
    records omitted with that reason, every reason has one entry, and the
    counts add up to [omitted]. *)
Theorem filterVehicles_accounting (cfg : FilterConfig) (vs : list AsofixVehicle) :
  let out := filterVehicles cfg vs in
  fv_filtered out = List.filter (fun v => negb (omit (shouldOmitVehicle cfg v))) vs /\
  fv_omitted out = Z.of_nat (List.length (List.filter (fun v => omit (shouldOmitVehicle cfg v)) vs)) /\
  Z.of_nat (List.length (fv_filtered out)) + fv_omitted out = Z.of_nat (List.length vs) /\
  (forall r, reasonCount (fv_reasons out) r =
             Z.of_nat (List.length (List.filter (omittedFor cfg r) vs))) /\
  NoDup (List.map fst (fv_reasons out)) /\
  reasonTotal (fv_reasons out) = fv_omitted out.
Proof.
  destruct (filterVehicles_fold cfg vs (mkFilterOutcome [] 0 [])) as (H1 & H2 & H3 & H4 & H5).
  simpl in *. fold (filterVehicles cfg vs) in *.
  split; [done|]. split; [lia|]. split; [|split; [|split]].
  - rewrite H1, H2. clear. induction vs as [|v vs IH]; simpl; [done|].
    destruct (omit (shouldOmitVehicle cfg v)); simpl; lia.
  - intros r. rewrite H3. lia.
  - apply H5. constructor.
  - rewrite H4, H2. lia.
Qed.

(** ** savePendingImages *)

Lemma insertPendingLoop_accepted vid urls w0 :
  existsb (whereId vid) (vehicles w0) = true ->
  let w' := insertPendingLoop vid urls w0 in
  List.map pend_image_url (pendingOfVehicle vid w') =
    (List.map pend_image_url (pendingOfVehicle vid w0) ++ urls)%list /\
  pendingOfOthers vid w' = pendingOfOthers vid w0 /\
  vehicles w' = vehicles w0 /\ vehicle_images w' = vehicle_images w0 /\
  next_pending_id w' = next_pending_id w0 + Z.of_nat (List.length urls).
Proof.
  revert w0. induction urls as [|u urls IH]; intros w0 Hex; cbn [insertPendingLoop].
  { cbv zeta. rewrite app_nil_r. repeat split; simpl; lia. }
  unfold insertPending. rewrite Hex.
  match goal with |- context [insertPendingLoop vid urls ?w1] =>
    destruct (IH w1 Hex) as (H1 & H2 & H3 & H4 & H5) end.
  cbv zeta in *. rewrite H1, H2, H3, H4, H5.
  unfold pendingOfVehicle, pendingOfOthers. simpl.
  rewrite !List.filter_app. simpl. rewrite Z.eqb_refl. simpl.
  rewrite List.map_app, app_nil_r, <- app_assoc. simpl. repeat split; lia.
Qed.

Lemma insertPendingLoop_rejected vid urls w0 :
  existsb (whereId vid) (vehicles w0) = false -> insertPendingLoop vid urls w0 = w0.
Proof. intros Hex. destruct urls as [|u urls]; [done|]. simpl. unfold insertPending. by rewrite Hex. Qed.

Lemma pendingOfVehicle_deleted vid w : pendingOfVehicle vid (deletePendingOfVehicle vid w) = [].
Proof.
  unfold pendingOfVehicle, deletePendingOfVehicle. simpl.
  induction (pending_images w) as [|r l IH]; simpl; [done|].
  destruct (pend_vehicle_id r =? vid) eqn:E; simpl; [done|]. by rewrite E.
Qed.

Lemma pendingOfOthers_deleted vid w :
  pendingOfOthers vid (deletePendingOfVehicle vid w) = pendingOfOthers vid w.
Proof.
  unfold pendingOfOthers, deletePendingOfVehicle. simpl.
  induction (pending_images w) as [|r l IH]; simpl; [done|].
  destruct (pend_vehicle_id r =? vid) eqn:E; simpl; [done|]. rewrite E. simpl. by f_equal.
Qed.

(** X4. savePendingImages with an empty list is a no-op, so rows queued
    earlier stay. With a non-empty list and a vehicle row for the id, it
    replaces the queue of the vehicle: afterwards its pending rows are
    exactly the given URLs, in order (duplicates kept). With a non-empty
    list and no vehicle row for the id, the first INSERT is rejected by the
    foreign key after the DELETE has run: the queue of that id ends empty
    and nothing is inserted. The rows of other vehicles, and the vehicles
    and vehicle_images tables, are never touched. *)
Theorem savePendingImages_replaces_queue (vid : Z) (urls : list string) (w : World) :
  let w' := savePendingImages vid urls w in
  (urls = [] -> w' = w) /\
  (urls <> [] -> existsb (whereId vid) (vehicles w) = true ->
     List.map pend_image_url (pendingOfVehicle vid w') = urls /\
     next_pending_id w' = next_pending_id w + Z.of_nat (List.length urls)) /\
  (urls <> [] -> existsb (whereId vid) (vehicles w) = false ->
     pendingOfVehicle vid w' = [] /\ pending_images w' = pendingOfOthers vid w) /\
  pendingOfOthers vid w' = pendingOfOthers vid w /\
  vehicles w' = vehicles w /\ vehicle_images w' = vehicle_images w.
Proof.
  destruct urls as [|u urls]; [by repeat split|].
  cbv zeta. unfold savePendingImages.
  destruct (existsb (whereId vid) (vehicles w)) eqn:Hex.
  - destruct (insertPendingLoop_accepted vid (u :: urls) (deletePendingOfVehicle vid w) Hex)
      as (H1 & H2 & H3 & H4 & H5).
    cbv zeta in *. rewrite H1, H2, H3, H4, H5.
    rewrite pendingOfVehicle_deleted, pendingOfOthers_deleted.
    split; [done|]. split; [done|]. split; [done|]. done.
  - rewrite (insertPendingLoop_rejected vid (u :: urls) (deletePendingOfVehicle vid w) Hex).
    rewrite pendingOfVehicle_deleted, pendingOfOthers_deleted.
    split; [done|]. split; [done|]. split; [|done].
    intros _ _. split; [done|]. unfold pendingOfOthers, deletePendingOfVehicle. done.
Qed.

Lemma savePendingImages_replaces_queue_witness :
  List.map pend_image_url
    (pendingOfVehicle 7
       (savePendingImages 7 ["https://cdn.example/th-b.jpg"; "https://cdn.example/th-a.jpg"]
          worldQueued)) =
    ["https://cdn.example/th-b.jpg"; "https://cdn.example/th-a.jpg"] /\
  pending_images
    (savePendingImages 8 ["https://cdn.example/th-b.jpg"] worldQueued) =
    pendingOfOthers 8 worldQueued.
Proof.
  split.
  - apply (savePendingImages_replaces_queue 7 _ worldQueued); [discriminate|reflexivity].
  - apply (savePendingImages_replaces_queue 8 _ worldQueued); [discriminate|reflexivity].
Defined.

(** ** getOrCreateTerm *)

Lemma find_snoc_None {A} (f : A -> bool) (l : list A) (x : A) :
  List.find f l = None -> List.find f (l ++ [x]) = if f x then Some x else None.
Proof. induction l as [|a l IH]; simpl; [done|]. destruct (f a); [done|apply IH]. Qed.

Lemma find_ext' {A} (f g : A -> bool) (l : list A) :
  (forall x, f x = g x) -> List.find f l = List.find g l.
Proof. intros H. induction l as [|a l IH]; simpl; [done|]. by rewrite H, IH. Qed.

Lemma sameText_refl env a : sameText env a a = true.
Proof. apply String.eqb_refl. Qed.

Lemma sameText_eq env a b : sameText env a b = true <-> collationKey env a = collationKey env b.
Proof. apply String.eqb_eq. Qed.

Lemma sameText_congr env a b c : sameText env b c = true -> sameText env a b = sameText env a c.
Proof. intros H. apply sameText_eq in H. unfold sameText. by rewrite H. Qed.

Lemma NoDup_map_inj {A B} (f : A -> B) (l : list A) x y :
  NoDup (List.map f l) -> x ∈ l -> y ∈ l -> f x = f y -> x = y.
Proof.
  induction l as [|a l IH]; simpl; intros Hnd Hx Hy Hf; [by apply elem_of_nil in Hx|].
  apply NoDup_cons in Hnd as [Ha Hnd].
  apply elem_of_cons in Hx as [->|Hx]; apply elem_of_cons in Hy as [->|Hy].
  - done.
  - exfalso. apply Ha. rewrite Hf. apply list_elem_of_In, List.in_map. by apply list_elem_of_In.
  - exfalso. apply Ha. rewrite <- Hf. apply list_elem_of_In, List.in_map. by apply list_elem_of_In.
  - by apply IH.
Qed.

(** X5. getOrCreateTerm compares taxonomy and name as the collation of the
    columns does. It is idempotent: asking again for the same taxonomy and
    name, or for texts that the collation does not tell apart from them,
    returns the same id and inserts nothing. A blank name gives no term and
    no write. Otherwise the id returned is the id of a row of taxonomy_terms
    whose taxonomy and name equal the requested taxonomy and the trimmed
    name under the collation. At most one row is added, with the fresh id
    and the texts as given; the rows present before are kept. When a row
    with the requested texts (under the collation) is present, nothing is
    written, and if the keys of the table were distinct the id is the id of
    that row. If no two rows shared a key (taxonomy, name) under the
    collation before the call, none do after it. *)
Theorem getOrCreateTerm_idempotent (env : Env) (taxonomy termName : string) (w : World) :
  let r := getOrCreateTerm env taxonomy termName w in
  getOrCreateTerm env taxonomy termName (snd r) = r /\
  (forall taxonomy' termName',
     trim termName <> "" -> trim termName' <> "" ->
     sameText env taxonomy' taxonomy = true ->
     sameText env (trim termName') (trim termName) = true ->
     getOrCreateTerm env taxonomy' termName' (snd r) = r) /\
  (trim termName = "" -> r = (None, w)) /\
  (trim termName <> "" ->
     exists t, fst r = Some (term_id t) /\ t ∈ taxonomy_terms (snd r) /\
               sameText env (term_taxonomy t) taxonomy = true /\
               sameText env (term_name t) (trim termName) = true) /\
  (snd r = w \/
   snd r = setTerms w (taxonomy_terms w ++
                         [mkTermRow (next_term_id w) taxonomy (trim termName)])%list
             (next_term_id w + 1) /\
   fst r = Some (next_term_id w)) /\
  (forall t, t ∈ taxonomy_terms w -> trim termName <> "" ->
     sameText env (term_taxonomy t) taxonomy = true ->
     sameText env (term_name t) (trim termName) = true ->
     snd r = w /\ (NoDup (termKeys env w) -> fst r = Some (term_id t))) /\
  (NoDup (termKeys env w) -> NoDup (termKeys env (snd r))).
Proof.
  cbv zeta.
  assert (forall taxonomy' termName',
            trim termName <> "" -> trim termName' <> "" ->
            sameText env taxonomy' taxonomy = true ->
            sameText env (trim termName') (trim termName) = true ->
            getOrCreateTerm env taxonomy' termName'
              (snd (getOrCreateTerm env taxonomy termName w)) =
            getOrCreateTerm env taxonomy termName w) as Hvariant.
  { intros taxonomy' termName' Hne Hne' Htax Hname. unfold getOrCreateTerm.
    assert (String.eqb termName "" || String.eqb (trim termName) "" = false) as ->.
    { apply orb_false_iff. split; apply String.eqb_neq; [by intros ->|done]. }
    assert (String.eqb termName' "" || String.eqb (trim termName') "" = false) as ->.
    { apply orb_false_iff. split; apply String.eqb_neq; [by intros ->|done]. }
    assert (forall l : list TermRow,
              List.find (fun t => sameText env (term_taxonomy t) taxonomy' &&
                                  sameText env (term_name t) (trim termName')) l =
              List.find (fun t => sameText env (term_taxonomy t) taxonomy &&
                                  sameText env (term_name t) (trim termName)) l) as Hsame.
    { intros l. apply find_ext'. intros t.
      by rewrite (sameText_congr env _ _ _ Htax), (sameText_congr env _ _ _ Hname). }
    destruct (List.find _ (taxonomy_terms w)) as [t|] eqn:Hf.
    - cbn [snd]. by rewrite Hsame, Hf.
    - cbn [snd taxonomy_terms setTerms]. rewrite Hsame, (find_snoc_None _ _ _ Hf).
      cbn [term_taxonomy term_name]. by rewrite !sameText_refl. }
  destruct (String.eqb termName "" || String.eqb (trim termName) "") eqn:Hb.
  { assert (getOrCreateTerm env taxonomy termName w = (None, w)) as Hr
      by (unfold getOrCreateTerm; by rewrite Hb).
    assert (trim termName = "") as Hblank.
    { apply orb_true_iff in Hb as [Hb|Hb]; apply String.eqb_eq in Hb; [by subst|done]. }
    rewrite Hr. cbn [fst snd]. rewrite Hr.
    split; [done|]. split; [done|]. split; [done|]. split; [done|].
    split; [by left|]. split; [|done]. intros t _ Hne. done. }
  assert (trim termName <> "") as Hne
    by (apply orb_false_iff in Hb as [_ Hb2]; by apply String.eqb_neq).
  split.
  { apply Hvariant; [done|done|apply sameText_refl|apply sameText_refl]. }
  split; [exact Hvariant|]. clear Hvariant.
  unfold getOrCreateTerm. rewrite Hb.
  destruct (List.find _ (taxonomy_terms w)) as [t|] eqn:Hf; cbn [fst snd].
  - split; [done|]. split; [|split; [by left|split; [|done]]].
    + intros _. apply List.find_some in Hf as [Hin Hk].
      apply andb_true_iff in Hk as [Hk1 Hk2]. exists t.
      split; [done|]. split; [by apply list_elem_of_In|done].
    + intros t' Hin' _ Ht1 Ht2. split; [done|]. intros Hnd. f_equal. f_equal.
      apply List.find_some in Hf as [Hin Hk]. apply andb_true_iff in Hk as [Hk1 Hk2].
      apply sameText_eq in Hk1, Hk2, Ht1, Ht2.
      apply (NoDup_map_inj _ _ t t' Hnd); [by apply list_elem_of_In|done|].
      cbv beta. by rewrite Hk1, Hk2, Ht1, Ht2.
  - split; [done|]. split; [|split; [by right|split]].
    + intros _. exists (mkTermRow (next_term_id w) taxonomy (trim termName)).
      cbn [term_id term_taxonomy term_name taxonomy_terms setTerms].
      split; [done|]. split; [apply elem_of_app; right; by left|].
      split; apply sameText_refl.
    + intros t' Hin' _ Ht1 Ht2. exfalso.
      pose proof (List.find_none _ _ Hf t' ltac:(by apply list_elem_of_In)) as Hn.
      cbv beta in Hn. by rewrite Ht1, Ht2 in Hn.
    + intros Hnd. unfold termKeys. cbn [taxonomy_terms setTerms]. rewrite List.map_app.
      cbn [List.map term_taxonomy term_name].
      apply NoDup_app. split; [done|]. split; [|apply NoDup_singleton].
      intros k Hk Hk'. apply list_elem_of_singleton in Hk'. subst k.
      apply list_elem_of_In, List.in_map_iff in Hk as (t & Ht & Hin).
      pose proof (List.find_none _ _ Hf t Hin) as Hn. cbv beta in Hn.
      injection Ht as Ht1 Ht2. unfold sameText in Hn.
      rewrite Ht1, Ht2, !String.eqb_refl in Hn. done.
Qed.

Lemma getOrCreateTerm_idempotent_witness :
  getOrCreateTerm envSample "BRAND" " toyota "
    (snd (getOrCreateTerm envSample "brand" "Toyota" worldStale)) =
  getOrCreateTerm envSample "brand" "Toyota" worldStale /\
  List.map term_name (taxonomy_terms (snd (getOrCreateTerm envSample "brand" "Toyota" worldStale))) =
    ["Toyota"].
Proof.
  split; [|reflexivity].
  apply (getOrCreateTerm_idempotent envSample "brand" "Toyota" worldStale);
    [discriminate|discriminate|reflexivity|reflexivity].
Defined.

(** ** setVehicleMetadata *)

(** X6. setVehicleMetadata writes at most one of the two price columns, and
    a price it writes is the list price of the record and at least 1000.
    For a dollar currency the price goes to price_usd. For any other
    currency a price above 901000 goes to price_ars, a price from 1000 to
    900000 goes to price_usd, and a price above 900000 and up to 901000 is
    stored in neither column. The kilometres stored are 0 or at least 100;
    year 0 and an empty license plate are stored as NULL. Rows with another
    id are not changed, and status, title and fingerprint of the row are
    kept. *)
Theorem setVehicleMetadata_columns (now vid : Z) (v : AsofixVehicle) (w : World) :
  Forall2 (fun r r' =>
    if veh_id r =? vid then
      (veh_price_usd r' = None \/ veh_price_ars r' = None) /\
      (forall p, veh_price_usd r' = Some p \/ veh_price_ars r' = Some p ->
                 p = listPrice v /\ 1000 <= p) /\
      (isDollar v = true -> veh_price_ars r' = None /\
         (1000 <= listPrice v -> veh_price_usd r' = Some (listPrice v))) /\
      (isDollar v = false ->
         (901000 < listPrice v -> veh_price_ars r' = Some (listPrice v)) /\
         (1000 <= listPrice v <= 900000 -> veh_price_usd r' = Some (listPrice v)) /\
         (900000 < listPrice v <= 901000 ->
            veh_price_usd r' = None /\ veh_price_ars r' = None)) /\
      (exists k, veh_kilometres r' = Some k /\ (k = 0 \/ 100 <= k)) /\
      veh_year r' <> Some 0 /\ veh_license_plate r' <> Some "" /\
      veh_updated_at r' = Some now /\
      veh_status r' = veh_status r /\ veh_title r' = veh_title r /\
      veh_asofix_id r' = veh_asofix_id r /\ veh_version_hash r' = veh_version_hash r /\
      veh_additional_data r' = veh_additional_data r /\
      veh_featured_image_id r' = veh_featured_image_id r
    else r' = r) (vehicles w) (vehicles (setVehicleMetadata now vid v w)).
Proof.
  unfold setVehicleMetadata. fold (isDollar v).
  set (km := numOr0 (kilometres v)). set (p0 := listPrice v).
  destruct (isDollar v) eqn:Hd.
  - simpl. apply Forall2_map_r. intros r _. unfold whereId.
    destruct (veh_id r =? vid); [|done]. simpl.
    split; [by right|]. split.
    { intros p [Hp|Hp]; [|done]. destruct (1000 <=? p0) eqn:E; [|done].
      injection Hp as <-. split; [done|lia]. }
    split.
    { intros _. split; [done|]. intros Hge. destruct (1000 <=? p0) eqn:E; [done|lia]. }
    split; [done|]. split.
    { destruct (km <? 100) eqn:E; eexists; (split; [reflexivity|]); [by left|right; lia]. }
    split. { destruct (year v) as [y|]; [|done]. destruct (y =? 0) eqn:E; [done|]. intros [= ->]. done. }
    split. { destruct (license_plate v) as [[|c s]|]; simpl; done. }
    repeat split; done.
  - destruct (901000 <? p0) eqn:E1.
    + simpl. apply Forall2_map_r. intros r _. unfold whereId.
      destruct (veh_id r =? vid); [|done]. simpl.
      split; [by left|]. split.
      { intros p [Hp|Hp]; [done|]. injection Hp as <-. split; [done|lia]. }
      split; [done|]. split.
      { intros _. split; [done|]. split; intros; lia. }
      split.
      { destruct (km <? 100) eqn:E; eexists; (split; [reflexivity|]); [by left|right; lia]. }
      split. { destruct (year v) as [y|]; [|done]. destruct (y =? 0) eqn:E; [done|]. intros [= ->]. done. }
      split. { destruct (license_plate v) as [[|c s]|]; simpl; done. }
      repeat split; done.
    + destruct ((1000 <=? p0) && (p0 <=? 900000)) eqn:E2.
      * simpl. apply Forall2_map_r. intros r _. unfold whereId.
        destruct (veh_id r =? vid); [|done]. simpl.
        apply andb_true_iff in E2 as [E2 E3].
        split; [by right|]. split.
        { intros p [Hp|Hp]; [|done]. injection Hp as <-. split; [done|lia]. }
        split; [done|]. split.
        { intros _. split; [intros; lia|]. split; [done|intros; lia]. }
        split.
        { destruct (km <? 100) eqn:E; eexists; (split; [reflexivity|]); [by left|right; lia]. }
        split. { destruct (year v) as [y|]; [|done]. destruct (y =? 0) eqn:E; [done|]. intros [= ->]. done. }
        split. { destruct (license_plate v) as [[|c s]|]; simpl; done. }
        repeat split; done.
      * simpl. apply Forall2_map_r. intros r _. unfold whereId.
        destruct (veh_id r =? vid); [|done]. simpl.
        apply andb_false_iff in E2.
        split; [by right|]. split.
        { intros p [Hp|Hp]; done. }
        split; [done|]. split.
        { intros _. split; [intros; lia|]. split; [intros; lia|done]. }
        split.
        { destruct (km <? 100) eqn:E; eexists; (split; [reflexivity|]); [by left|right; lia]. }
        split. { destruct (year v) as [y|]; [|done]. destruct (y =? 0) eqn:E; [done|]. intros [= ->]. done. }
        split. { destruct (license_plate v) as [[|c s]|]; simpl; done. }
        repeat split; done.
Qed.

(** ** downloadAllImages: the counters *)

Lemma downloadImage_imageIdsOk env now imageUrl vehicleId_ w :
  imageIdsOk w ->
  imageIdsOk (snd (downloadImage env now imageUrl vehicleId_ w)) /\
  (d_success (fst (downloadImage env now imageUrl vehicleId_ w)) = true ->
   truthyId (d_imageId (fst (downloadImage env now imageUrl vehicleId_ w))) = true).
Proof.
  intros [Hnext Hall]. unfold downloadImage.
  destruct (List.find _ (vehicle_images w)) as [e|] eqn:Hf.
  { simpl. split; [by split|]. intros _.
    apply find_some in Hf as [Hin _]. rewrite Forall_forall in Hall.
    apply negb_true_iff, Z.eqb_neq, Hall. by apply list_elem_of_In. }
  destruct (httpGet env _) as [body|msg]; [|simpl; split; [by split|done]].
  cbv zeta. destruct (existsb _ _); [|simpl; split; [by split|done]].
  simpl. split.
  - assert (Forall (fun r => img_id r <> 0)
              (vehicle_images w ++ [mkImageRow (next_image_id w) vehicleId_ imageUrl
                 (Some (storagePath env vehicleId_ (replaceFirst imageUrl "/th-" "/"))) false 0]))
      as Hall'.
    { apply Forall_app. split; [done|]. apply Forall_singleton. simpl. lia. }
    destruct (Nat.eqb _ 1); (split; simpl; [lia|done]).
  - intros _. apply negb_true_iff, Z.eqb_neq. lia.
Qed.

Lemma downloadLoop_counters env now jobs c w :
  ic_processed (fst (downloadLoop env now jobs c w)) +
  ic_errors (fst (downloadLoop env now jobs c w)) =
    ic_processed c + ic_errors c + Z.of_nat (List.length jobs) /\
  ic_processed c <= ic_processed (fst (downloadLoop env now jobs c w)) /\
  ic_errors c <= ic_errors (fst (downloadLoop env now jobs c w)) /\
  (imageIdsOk w ->
   ic_created (fst (downloadLoop env now jobs c w)) - ic_created c =
   ic_processed (fst (downloadLoop env now jobs c w)) - ic_processed c).
Proof.
  revert c w. induction jobs as [|[vid u] jobs IH]; intros c w.
  { simpl. repeat split; try lia. }
  cbn [downloadLoop].
  pose proof (downloadImage_imageIdsOk env now u vid w) as Hok.
  destruct (downloadImage env now u vid w) as [res w1]. simpl in Hok.
  match goal with |- context [downloadLoop env now jobs ?c1 w1] =>
    destruct (IH c1 w1) as (H1 & H2 & H3 & H4) end.
  destruct (d_success res) eqn:Hs; simpl in *.
  - split; [rewrite H1; simpl; lia|]. split; [lia|]. split; [lia|].
    intros Hw. destruct (Hok Hw) as [Hw1 Ht]. specialize (H4 Hw1).
    rewrite (Ht eq_refl) in *. lia.
  - split; [rewrite H1; simpl; lia|]. split; [lia|]. split; [lia|].
    intros Hw. destruct (Hok Hw) as [Hw1 _]. specialize (H4 Hw1). lia.
Qed.

(** X7. downloadAllImages accounts for every queue entry once: processed plus
    errors is the number of pending rows at its start. With image ids that
    are never 0, [created] always equals [processed]: every success is
    counted as created, also when the image was already stored and nothing
    was downloaded. *)
Theorem downloadAllImages_counters (env : Env) (now : Z) (w : World) :
  imageIdsOk w ->
  let c := fst (downloadAllImages env now w) in
  ic_processed c + ic_errors c = Z.of_nat (List.length (pending_images w)) /\
  0 <= ic_processed c /\ 0 <= ic_errors c /\
  ic_created c = ic_processed c.
Proof.
  intros Hw. cbv zeta. unfold downloadAllImages.
  destruct (downloadLoop_counters env now (getPendingImages w) (mkImageCounters 0 0 0) w)
    as (H1 & H2 & H3 & H4).
  specialize (H4 Hw). simpl in *.
  assert (List.length (getPendingImages w) = List.length (pending_images w)) as Hlen.
  { unfold getPendingImages. rewrite List.length_map.
    apply Permutation_length, merge_sort_Permutation. }
  rewrite Hlen in H1. repeat split; lia.
Qed.

Lemma downloadAllImages_counters_witness :
  imageIdsOk worldFeatured /\
  ic_created (fst (downloadAllImages envSample 1000
                     (savePendingImages 7 ["https://cdn.example/th-b.jpg";
                                           "https://cdn.example/th-a.jpg"] worldFeatured))) = 2 /\
  List.length (vehicle_images (snd (downloadAllImages envSample 1000
                     (savePendingImages 7 ["https://cdn.example/th-b.jpg";
                                           "https://cdn.example/th-a.jpg"] worldFeatured)))) = 2%nat.
Proof.
  assert (imageIdsOk worldFeatured) as Hw.
  { split; [reflexivity|]. repeat constructor. discriminate. }
  split; [exact Hw|].
  pose proof (downloadAllImages_counters envSample 1000
                (savePendingImages 7 ["https://cdn.example/th-b.jpg";
                                           "https://cdn.example/th-a.jpg"] worldFeatured) Hw) as H.
  cbv zeta in H. destruct H as (H1 & _ & _ & H4).
  split; [|reflexivity]. rewrite H4. reflexivity.
Defined.

(** ** The reconcile loop: limit and counters *)

Lemma afterReturn_counters env v result st w :
  let st' := afterReturn env v result st w in
  fase1Processed st <= fase1Processed st' <= fase1Processed st + 1 /\
  fase1Created st <= fase1Created st' /\ fase1Updated st <= fase1Updated st' /\
  fase1Errors st <= fase1Errors st' /\ fase1Filtered st <= fase1Filtered st' /\
  (fase1Created st' - fase1Created st) + (fase1Updated st' - fase1Updated st)
    <= fase1Processed st' - fase1Processed st /\
  world st' = w.
Proof.
  unfold afterReturn. repeat case_match; simpl; repeat split; lia.
Qed.

Lemma retryLoop_counters env process incremental v fuel retryCount st :
  let st' := retryLoop env process incremental v fuel retryCount st in
  fase1Processed st <= fase1Processed st' <= fase1Processed st + 1 /\
  fase1Created st <= fase1Created st' /\ fase1Updated st <= fase1Updated st' /\
  fase1Errors st <= fase1Errors st' /\ fase1Filtered st <= fase1Filtered st' /\
  (fase1Created st' - fase1Created st) + (fase1Updated st' - fase1Updated st)
    <= fase1Processed st' - fase1Processed st.
Proof.
  revert retryCount st. induction fuel as [|fuel IH]; intros retryCount st; simpl.
  { repeat split; lia. }
  case_match; [repeat split; lia|].
  destruct (process v incremental (world st)) as [[result|msg] w].
  - pose proof (afterReturn_counters env v result st w) as Hc. cbv zeta in Hc.
    destruct Hc as (? & ? & ? & ? & ? & ? & _). repeat split; lia.
  - case_match; [simpl; repeat split; lia|].
    match goal with |- context [retryLoop _ _ _ _ fuel ?n ?s] => specialize (IH n s) end.
    simpl in IH. exact IH.
Qed.

Lemma reconcileBatch_counters env process incremental limit batch st :
  let st' := reconcileBatch env process incremental limit batch st in
  fase1Processed st <= fase1Processed st' <= fase1Processed st + Z.of_nat (List.length batch) /\
  (0 < limit -> fase1Processed st <= limit -> fase1Processed st' <= limit) /\
  fase1Errors st <= fase1Errors st' /\
  (fase1Created st' - fase1Created st) + (fase1Updated st' - fase1Updated st)
    <= fase1Processed st' - fase1Processed st /\
  fase1Created st <= fase1Created st' /\ fase1Updated st <= fase1Updated st'.
Proof.
  revert st. induction batch as [|v batch IH]; intros st.
  { simpl. repeat split; lia. }
  cbn [reconcileBatch]. destruct ((0 <? limit) && (limit <=? fase1Processed st)) eqn:Hl.
  { rewrite List.length_cons. repeat split; lia. }
  pose proof (retryLoop_counters env process incremental v maxRetries 0%nat st) as Hr.
  fold (reconcileVehicle env process incremental v st) in Hr. cbv zeta in Hr.
  specialize (IH (reconcileVehicle env process incremental v st)). cbv zeta in IH.
  destruct Hr as (? & ? & ? & ? & ? & ?). destruct IH as (? & Hlim & ? & ? & ? & ?).
  rewrite List.length_cons. split; [lia|]. split; [|repeat split; lia].
  intros Hpos Hle. apply Hlim; [done|].
  apply andb_false_iff in Hl as [Hl|Hl]; lia.
Qed.

(** X8. With a positive SYNC_LIMIT the reconcile loop never lets the counter
    of processed records pass the limit, whatever processVehicle does
    (return or throw). The counter only counts records created or updated:
    it grows by at most one per record, and created plus updated never
    exceed it. *)
Theorem reconcileBatches_respects_limit (env : Env) (process : Processor) (incremental : bool)
    (limit : Z) (batchSize fuel : nat) (remaining : list AsofixVehicle) (st : RunState) :
  0 < limit -> fase1Processed st <= limit ->
  let st' := reconcileBatches env process incremental limit batchSize fuel remaining st in
  fase1Processed st <= fase1Processed st' <= limit /\
  fase1Processed st' <= fase1Processed st + Z.of_nat (List.length remaining) /\
  (fase1Created st' - fase1Created st) + (fase1Updated st' - fase1Updated st)
    <= fase1Processed st' - fase1Processed st /\
  fase1Errors st <= fase1Errors st'.
Proof.
  intros Hpos. revert remaining st.
  induction fuel as [|fuel IH]; intros remaining st Hle; simpl.
  { repeat split; lia. }
  destruct remaining as [|v rest]; [simpl; repeat split; lia|].
  set (batch := List.firstn batchSize (v :: rest)).
  pose proof (reconcileBatch_counters env process incremental limit batch st) as Hb.
  cbv zeta in Hb. destruct Hb as (Hb1 & Hb2 & Hb3 & Hb4 & Hb5 & Hb6).
  specialize (IH (List.skipn batchSize (v :: rest))
                (reconcileBatch env process incremental limit batch st) (Hb2 Hpos Hle)).
  cbv zeta in IH. destruct IH as (I1 & I2 & I3 & I4).
  assert (List.length batch + List.length (List.skipn batchSize (v :: rest)) =
          List.length (v :: rest))%nat as Hlen.
  { unfold batch. rewrite <- List.length_app, List.firstn_skipn. done. }
  repeat split; lia.
Qed.

Lemma reconcileBatches_respects_limit_witness :
  fase1Processed
    (reconcileBatches envSample (processVehicleStep envSample 1000) false 1 2 3
       [vehicleOk; recordWith (Some [stockCentral]) (Some 9500000) (Some "AA123BB") oneImage]
       (runStateOf emptyWorld ∅)) <= 1 /\
  List.length
    (vehicles (world
       (reconcileBatches envSample (processVehicleStep envSample 1000) false 1 2 3
          [vehicleOk; recordWith (Some [stockCentral]) (Some 9500000) (Some "AA123BB") oneImage]
          (runStateOf emptyWorld ∅)))) = 1%nat.
Proof.
  pose proof (reconcileBatches_respects_limit envSample (processVehicleStep envSample 1000)
                false 1 2 3
                [vehicleOk; recordWith (Some [stockCentral]) (Some 9500000) (Some "AA123BB") oneImage]
                (runStateOf emptyWorld ∅) ltac:(lia) ltac:(simpl; lia)) as H.
  cbv zeta in H. destruct H as ([_ H] & _).
  split; [exact H|vm_compute; reflexivity].
Defined.

(** ** AsofixApi.fetchAllActiveVehicles *)

Lemma hasActiveStockEntry_findActiveStock v :
  hasActiveStockEntry v = true -> exists a, findActiveStock v = Some a /\ isActiveStock a = true.
Proof.
  unfold hasActiveStockEntry, findActiveStock. destruct (stocks v) as [l|]; [|done].
  intros [_ He]%andb_true_iff. apply existsb_exists in He as (a & Hin & Ha).
  destruct (List.find isActiveStock l) as [b|] eqn:Hf.
  - exists b. split; [done|]. by apply find_some in Hf as [_ Hb].
  - by rewrite (find_none _ _ Hf a Hin) in Ha.
Qed.

Lemma fetchAllActiveVehiclesLoop_spec api fuel page acc (P : AsofixVehicle -> Prop) :
  Forall P acc ->
  (forall v, hasActiveStockEntry v = true -> servedBy api 10 v -> apiKey api <> "" -> P v) ->
  Forall P (fetchAllActiveVehiclesLoop api fuel page acc).
Proof.
  intros Hacc HP. revert page acc Hacc.
  induction fuel as [|fuel IH]; intros page acc Hacc; simpl; [done|].
  unfold requestPage. destruct (String.eqb (apiKey api) "") eqn:Hk; [done|].
  apply String.eqb_neq in Hk.
  destruct (getVehiclesPage api page 10) as [response|msg] eqn:Hp; [|done].
  assert (Forall P (acc ++ List.filter hasActiveStockEntry (default [] (data response)))) as Hacc'.
  { apply Forall_app. split; [done|]. apply Forall_forall. intros v Hv.
    apply list_elem_of_In, filter_In in Hv as [Hin Hact].
    destruct (data response) as [l|] eqn:Hd; [|done]. simpl in Hin.
    apply HP; [done| |done]. exists page, response, l.
    split; [done|]. split; [done|]. by apply list_elem_of_In. }
  case_match; [by apply IH|done].
Qed.

(** X9. Every record returned by fetchAllActiveVehicles was served by some
    catalog page and has an offer whose status is ACTIVO up to case, so the
    first check of shouldOmitVehicle (no active stock) never rejects it.
    Without an API key the result is empty. *)
Theorem fetchAllActiveVehicles_only_active (api : Api) (fuel : nat) :
  Forall (fun v => servedBy api 10 v /\
                   (exists a, findActiveStock v = Some a /\ isActiveStock a = true) /\
                   forall cfg, reason (shouldOmitVehicle cfg v) <> Some reasonNoStock)
    (fetchAllActiveVehicles api fuel) /\
  (apiKey api = "" -> fetchAllActiveVehicles api fuel = []).
Proof.
  split.
  - apply fetchAllActiveVehiclesLoop_spec; [done|]. intros v Hact Hserved _.
    split; [done|]. destruct (hasActiveStockEntry_findActiveStock v Hact) as (a & Hf & Ha).
    split; [by exists a|]. intros cfg. unfold shouldOmitVehicle. rewrite Hf. cbv zeta.
    destruct (blockedOfficeLoop a _ _ _) as [r|] eqn:Hloc.
    { simpl. intros [= ->]. revert Hloc. clear.
      induction (blockedBranchOffices cfg) as [|b l IH]; simpl; [done|].
      repeat case_match; try done. }
    destruct (_ <=? _); [simpl; unfold reasonPrice; done|].
    destruct (blockedStatusLoop a _ _) as [r|] eqn:Hst.
    { simpl. intros [= ->]. revert Hst. clear.
      induction (blockedStatuses cfg) as [|b l IH]; simpl; [done|].
      case_match; done. }
    repeat case_match; done.
  - intros Hk. unfold fetchAllActiveVehicles. destruct fuel as [|fuel]; [done|].
    simpl. unfold requestPage. rewrite Hk. done.
Qed.

(** ** AsofixApi.getVehicleByOrigin *)

Lemma searchPagesByOrigin_found api o fuel page searched errors v :
  searchPagesByOrigin api o fuel page searched errors = Some v ->
  originMatches o v = true /\ servedBy api 100 v.
Proof.
  revert page searched errors.
  induction fuel as [|fuel IH]; intros page searched errors; simpl; [done|].
  case_match; [done|].
  destruct (getVehiclesPage api page 100) as [response|msg] eqn:Hp.
  - destruct (List.find _ _) as [found|] eqn:Hfind.
    + intros [= <-]. apply find_some in Hfind as [Hin Hm]. split; [done|].
      destruct (data response) as [l|] eqn:Hd; [|done].
      exists page, response, l. split; [done|]. split; [done|]. by apply list_elem_of_In.
    + case_match; [apply IH|done].
  - case_match; [done|apply IH].
Qed.

Lemma searchPagesByOrigin_all_fail api o fuel page searched errors :
  (forall p n, exists msg, getVehiclesPage api p n = page_throws msg) ->
  searchPagesByOrigin api o fuel page searched errors = None.
Proof.
  intros Hfail. revert page searched errors.
  induction fuel as [|fuel IH]; intros page searched errors; simpl; [done|].
  case_match; [done|]. destruct (Hfail page 100) as [msg ->].
  case_match; [done|apply IH].
Qed.

(** X10. getVehicleByOrigin throws exactly when the API key is missing or the
    origin is blank. A record it returns was served by a catalog page and
    has an origin equal to the requested one up to case and surrounding
    white space. When every page request fails the answer is "not found",
    not an error. *)
Theorem getVehicleByOrigin_outcomes (api : Api) (origin_ : string) :
  ((exists msg, getVehicleByOrigin api origin_ = lookup_throws msg) <->
   apiKey api = "" \/ trim origin_ = "") /\
  (forall v, getVehicleByOrigin api origin_ = lookup_found v ->
     servedBy api 100 v /\
     exists o, origin v = Some o /\ toUpperCase (trim o) = toUpperCase (trim origin_)) /\
  (apiKey api <> "" -> trim origin_ <> "" ->
   (forall p n, exists msg, getVehiclesPage api p n = page_throws msg) ->
   getVehicleByOrigin api origin_ = lookup_null).
Proof.
  unfold getVehicleByOrigin.
  destruct (String.eqb (apiKey api) "") eqn:Hk.
  { apply String.eqb_eq in Hk. split; [|split]; [|done|done].
    split; [by left|]. intros _. by eexists. }
  apply String.eqb_neq in Hk.
  destruct (String.eqb origin_ "" || isBlank origin_) eqn:Hb.
  { assert (trim origin_ = "") as Ht.
    { apply orb_true_iff in Hb as [Hb|Hb]; apply String.eqb_eq in Hb; [by subst|done]. }
    split; [|split]; [|done|done]. split; [by right|]. intros _. by eexists. }
  apply orb_false_iff in Hb as [_ Hb]. apply String.eqb_neq in Hb.
  destruct (searchPagesByOrigin _ _ _ _ _ _) as [v|] eqn:Hs.
  - split; [|split].
    + split; [by intros [msg ?]|]. by intros [?|?].
    + intros v' [= <-]. apply searchPagesByOrigin_found in Hs as [Hm Hserved].
      split; [done|]. unfold originMatches in Hm.
      destruct (origin v) as [o|]; [|done]. exists o. split; [done|].
      apply andb_true_iff in Hm as [_ Hm]. by apply String.eqb_eq.
    + intros _ _ Hfail. by rewrite searchPagesByOrigin_all_fail in Hs.
  - split; [|split]; [|done|done].
    split; [by intros [msg ?]|]. by intros [?|?].
Qed.

(** ** The endpoint GET /asofix/vehicle/:license_plate *)

Ltac in_list := solve [repeat first [ by left | right ]].

(** X11. The endpoint answers 400 exactly when the parameter is missing or
    blank, 200 exactly when it reports success, and then with a record
    served by the catalog whose plate is the requested one up to case and
    surrounding white space. It answers 500 exactly when the parameter is
    given and the API key is missing, and always with the configuration
    message: failures of the catalog requests never reach the client as an
    error, they end in 404. *)
Theorem controller_status_codes (api : Api) (license_plate_ : option string) :
  let r := controllerGetVehicleByLicensePlate api license_plate_ in
  let blank := match license_plate_ with Some p => trim p = "" | None => True end in
  http_status r ∈ [200; 400; 404; 500] /\
  (http_status r = 400 <-> blank) /\
  (http_status r = 200 <-> http_success r = true) /\
  (http_status r = 200 ->
     exists p v, license_plate_ = Some p /\ http_data r = Some v /\ servedBy api 100 v /\
                 plateMatches (toUpperCase (trim p)) v = true) /\
  (http_status r = 500 <-> ~ blank /\ apiKey api = "") /\
  (http_status r = 500 ->
     http_message r =
       Some "Error de configuración: La API Key de Asofix no está configurada correctamente").
Proof.
  cbv zeta. unfold controllerGetVehicleByLicensePlate.
  destruct license_plate_ as [p|].
  2:{ simpl. split; [in_list|]. repeat split; try done. by intros [? _]. }
  destruct (String.eqb p "" || isBlank p) eqn:Hb.
  { assert (trim p = "") as Ht.
    { apply orb_true_iff in Hb as [Hb|Hb]; apply String.eqb_eq in Hb; [by subst|done]. }
    simpl. split; [in_list|]. repeat split; try done. by intros [? _]. }
  assert (trim p <> "") as Ht.
  { apply orb_false_iff in Hb as [_ Hb]. by apply String.eqb_neq in Hb. }
  unfold getVehicleByLicensePlate. rewrite Hb.
  destruct (String.eqb (apiKey api) "") eqn:Hk.
  { apply String.eqb_eq in Hk. simpl. split; [in_list|]. repeat split; try done. }
  apply String.eqb_neq in Hk.
  destruct (searchPages _ _ _ _ _ _) as [v|] eqn:Hs; simpl.
  - apply searchPages_served in Hs as [Hm Hserved].
    split; [in_list|]. repeat split; try done.
    + intros _. by exists p, v.
    + by intros [_ ?].
  - split; [in_list|]. repeat split; try done. by intros [_ ?].
Qed.

(** ** The fetch phase of syncAll *)

Lemma pagesFrom_S p k : pagesFrom p (S k) = p :: pagesFrom (p + 1) k.
Proof.
  unfold pagesFrom. simpl. f_equal; [lia|]. rewrite <- List.seq_shift, List.map_map.
  apply List.map_ext. intros i. lia.
Qed.

Lemma fetchLoop_spec api limit fuel page acc errors :
  exists k,
    fst (fetchLoop api limit fuel page acc errors) =
      (acc ++ List.concat (List.map (pageRecords api) (pagesFrom page k)))%list /\
    (k <= fuel)%nat /\
    Forall (fun p => exists vs more, syncPage api p = syncPage_ok vs more /\ vs <> [])
      (pagesFrom page k) /\
    (snd (fetchLoop api limit fuel page acc errors) = errors \/
     snd (fetchLoop api limit fuel page acc errors) = errors + 1 /\
     exists msg, syncPage api (page + Z.of_nat k) = syncPage_throws msg).
Proof.
  revert page acc. induction fuel as [|fuel IH]; intros page acc.
  { exists 0%nat. simpl. rewrite app_nil_r. repeat split; [lia|constructor|by left]. }
  cbn [fetchLoop].
  destruct ((limit =? 0) || (Z.of_nat (List.length acc) <? limit)).
  2:{ exists 0%nat. simpl. rewrite app_nil_r. repeat split; [lia|constructor|by left]. }
  destruct (syncPage api page) as [vs more|msg] eqn:Hp.
  2:{ exists 0%nat. simpl. rewrite app_nil_r. repeat split; [lia|constructor|].
      right. split; [done|]. rewrite Z.add_0_r. by exists msg. }
  destruct vs as [|v vs].
  { exists 0%nat. simpl. rewrite app_nil_r. repeat split; [lia|constructor|by left]. }
  destruct more.
  - destruct (IH (page + 1) (acc ++ v :: vs)%list) as (k & H1 & H2 & H3 & H4).
    exists (S k). rewrite pagesFrom_S. simpl. unfold pageRecords at 1. rewrite Hp.
    split; [by rewrite H1, <- app_assoc|]. split; [lia|]. split.
    + constructor; [|done]. by exists (v :: vs), true.
    + replace (page + Z.of_nat (S k)) with (page + 1 + Z.of_nat k) by lia. done.
  - exists 1%nat. rewrite pagesFrom_S. simpl. unfold pageRecords. rewrite Hp. simpl.
    rewrite app_nil_r. split; [done|]. split; [lia|]. split; [|by left].
    constructor; [|constructor]. by exists (v :: vs), false.
Qed.

(** X12. The fetch phase returns the records of the pages 1 to k, in order,
    for some k: each of these pages was served and was not empty, so the
    list is a run of consecutive pages from the first one, never a page
    after a failed or an empty one. It counts no error or one; when it
    counts one, the request of page k+1 failed and the records of the pages
    before it are kept. Without an API key it returns no record and one
    error. *)
Theorem fetchPhase_pages (api : Api) (limit : Z) (fuel : nat) :
  (exists k,
     fst (fetchPhase api limit fuel) =
       List.concat (List.map (pageRecords api) (pagesFrom 1 k)) /\
     (k <= fuel)%nat /\
     Forall (fun p => exists vs more, syncPage api p = syncPage_ok vs more /\ vs <> [])
       (pagesFrom 1 k) /\
     (snd (fetchPhase api limit fuel) = 0 \/
      snd (fetchPhase api limit fuel) = 1 /\
      exists msg, syncPage api (1 + Z.of_nat k) = syncPage_throws msg)) /\
  (apiKey api = "" -> (0 < fuel)%nat -> 0 <= limit -> fetchPhase api limit fuel = ([], 1)).
Proof.
  split.
  - unfold fetchPhase. destruct (fetchLoop_spec api limit fuel 1 [] 0) as (k & H1 & H2 & H3 & H4).
    exists k. done.
  - intros Hk Hfuel Hlimit. unfold fetchPhase. destruct fuel as [|fuel]; [lia|].
    simpl. unfold syncPage, requestPage. rewrite Hk. simpl.
    destruct (limit =? 0) eqn:E; simpl; [done|].
    apply Z.eqb_neq in E. change (Z.of_nat 0) with 0.
    destruct (0 <? limit) eqn:E'; [done|]. apply Z.ltb_ge in E'. lia.
Qed.

(** ** SyncLogger *)

Lemma substring_0_length (m : nat) (s : string) :
  (String.length (String.substring 0 m s) <= m)%nat.
Proof.
  revert s. induction m as [|m IH]; intros s.
  - destruct s; simpl; lia.
  - destruct s as [|c s]; simpl; [lia|]. specialize (IH s). lia.
Qed.

Lemma updateSyncLogs_fresh i f l :
  Forall (fun r => sl_id r < i) (sync_logs l) ->
  sync_logs (updateSyncLogs i f l) = sync_logs l.
Proof.
  unfold updateSyncLogs. simpl. induction 1 as [|r rs Hr _ IH]; simpl; [done|].
  destruct (sl_id r =? i) eqn:E; [lia|]. by rewrite IH.
Qed.

(** X13. A run logged with logSyncStart and closed with the final block of
    syncAll leaves the earlier log rows untouched and adds one row, with the
    start and end times. If no error was counted the row is 'completed' and
    carries all counters. If any error was counted the row is 'failed', it
    carries the processed and the error counters and a message of at most
    1000 characters, and its counters of created and updated vehicles and of
    images stay 0 whatever the run did. *)
Theorem syncLog_round_trip (start finish : Z) (syncType : SyncType)
    (processed created updated errors1 imagesProcessed imagesCreated errors2 : Z)
    (l : SyncLogs) :
  syncLogIdsOk l -> 0 <= errors1 -> 0 <= errors2 ->
  let '(syncLogId, l1) := logSyncStart start syncType l in
  let l2 := logSyncEnd finish syncLogId processed created updated errors1
              imagesProcessed imagesCreated errors2 l1 in
  exists row,
    sync_logs l2 = (sync_logs l ++ [row])%list /\
    Some (sl_id row) = syncLogId /\ sl_sync_type row = syncType /\
    sl_started_at row = Some start /\ sl_completed_at row = Some finish /\
    sl_vehicles_processed row = processed /\ sl_errors_count row = errors1 + errors2 /\
    if (errors1 =? 0) && (errors2 =? 0) then
      sl_status row = sync_completed /\ sl_error_message row = None /\
      sl_vehicles_created row = created /\ sl_vehicles_updated row = updated /\
      sl_images_processed row = imagesProcessed /\ sl_images_created row = imagesCreated
    else
      sl_status row = sync_failed /\
      (exists msg, sl_error_message row = Some msg /\ (String.length msg <= 1000)%nat) /\
      sl_vehicles_created row = 0 /\ sl_vehicles_updated row = 0 /\
      sl_images_processed row = 0 /\ sl_images_created row = 0.
Proof.
  intros [Hnext Hall] He1 He2. unfold logSyncStart. cbv zeta.
  assert (negb (next_sync_log_id l =? 0) = true) as Hid
    by (apply negb_true_iff, Z.eqb_neq; lia).
  unfold logSyncEnd, logSyncComplete, logSyncFailed, truthyId. rewrite Hid. simpl negb.
  cbn [default]. unfold updateSyncLogs. cbn [sync_logs next_sync_log_id].
  assert (forall f : SyncLogRow -> SyncLogRow,
            List.map (fun r => if sl_id r =? next_sync_log_id l then f r else r) (sync_logs l) =
            sync_logs l) as Hold.
  { intros f. clear -Hall. induction Hall as [|r rs Hr _ IH]; simpl; [done|].
    destruct (sl_id r =? next_sync_log_id l) eqn:E; [lia|]. by rewrite IH. }
  destruct ((errors1 =? 0) && (errors2 =? 0)) eqn:E.
  - cbn [sync_logs]. rewrite List.map_app, Hold. simpl. rewrite Z.eqb_refl.
    eexists. split; [reflexivity|]. simpl.
    apply andb_true_iff in E as [E1 E2]. repeat split; lia.
  - cbn [sync_logs]. rewrite List.map_app, Hold. cbn -[String.substring String.append].
    rewrite Z.eqb_refl.
    eexists. split; [reflexivity|]. cbn -[String.substring String.append].
    assert (errors1 + errors2 <> 0) as Hne by (apply andb_false_iff in E as [E|E]; lia).
    apply Z.eqb_neq in Hne. rewrite Hne.
    repeat split; try done. eexists. split; [reflexivity|]. apply substring_0_length.
Qed.

Lemma syncLog_round_trip_witness :
  syncLogIdsOk emptyLogs /\
  List.map (fun r => (sl_status r, sl_vehicles_created r, sl_errors_count r))
    (sync_logs (logSyncEnd 2000 (fst (logSyncStart 1000 sync_manual emptyLogs)) 5 3 2 1 4 4 0
                  (snd (logSyncStart 1000 sync_manual emptyLogs)))) =
    [(sync_failed, 0, 1)].
Proof.
  assert (syncLogIdsOk emptyLogs) as Hok by (split; [reflexivity|constructor]).
  split; [exact Hok|].
  pose proof (syncLog_round_trip 1000 2000 sync_manual 5 3 2 1 4 4 0 emptyLogs Hok
                ltac:(lia) ltac:(lia)) as H.
  cbv zeta in H. destruct (logSyncStart 1000 sync_manual emptyLogs) as [syncLogId l1] eqn:E.
  destruct H as (row & _). injection E as <- <-. vm_compute. reflexivity.
Defined.

(** X14. logSyncFailed and logSyncComplete do nothing for a missing id
    (null or 0). Otherwise logSyncFailed marks the rows with that id as
    failed with an error count that is never 0 (a missing or zero count is
    written as 1) and a message cut to its first 1000 characters; it does not
    write the counters of created and updated vehicles and of images; rows
    with another id are unchanged. *)
Theorem logSyncFailed_rows (now : Z) (syncLogId : option Z) (errorMessage : string)
    (stats : option (Z * Z)) (l : SyncLogs) :
  (truthyId syncLogId = false ->
     logSyncFailed now syncLogId errorMessage stats l = l /\
     forall s, logSyncComplete now syncLogId s l = l) /\
  Forall2 (fun r r' =>
    if truthyId syncLogId && (sl_id r =? default 0 syncLogId) then
      sl_status r' = sync_failed /\ sl_errors_count r' <> 0 /\
      (forall p e, stats = Some (p, e) -> e <> 0 ->
                   sl_errors_count r' = e /\ sl_vehicles_processed r' = p) /\
      sl_error_message r' = Some (String.substring 0 1000 errorMessage) /\
      (String.length (String.substring 0 1000 errorMessage) <= 1000)%nat /\
      sl_completed_at r' = Some now /\ sl_started_at r' = sl_started_at r /\
      sl_vehicles_created r' = sl_vehicles_created r /\
      sl_vehicles_updated r' = sl_vehicles_updated r /\
      sl_images_processed r' = sl_images_processed r /\
      sl_images_created r' = sl_images_created r
    else r' = r)
    (sync_logs l) (sync_logs (logSyncFailed now syncLogId errorMessage stats l)).
Proof.
  unfold logSyncFailed, logSyncComplete.
  destruct (truthyId syncLogId) eqn:Ht; simpl.
  - split; [done|]. apply Forall2_map_r. intros r _.
    destruct (sl_id r =? default 0 syncLogId); [|done]. simpl.
    split; [done|]. split.
    { destruct stats as [[p e]|]; [|done]. destruct (e =? 0) eqn:E; [done|].
      by apply Z.eqb_neq. }
    split.
    { intros p e -> He. apply Z.eqb_neq in He. by rewrite He. }
    split; [done|]. split; [apply substring_0_length|]. done.
  - split; [done|]. clear. induction (sync_logs l); by constructor.
Qed.

(** ** Normalizers of the Meta feed *)

Ltac from_values H :=
  unfold availabilityMapping, transmissionMapping, fuelMapping in H; simpl in H; revert H;
  repeat (let X := fresh in intros X; apply elem_of_cons in X as [->|X]; [in_list|revert X]);
  by intros ?%elem_of_nil.

Lemma mappingGet_value mapping key v :
  mappingGet mapping key = Some v -> v ∈ List.map snd mapping.
Proof.
  induction mapping as [|[k x] rest IH]; simpl; [done|].
  destruct (String.eqb k key).
  - intros [= ->]. by left.
  - intros H. right. by apply IH.
Qed.

Lemma mappingPartial_value mapping normalized v :
  mappingPartial mapping normalized = Some v -> v ∈ List.map snd mapping.
Proof.
  induction mapping as [|[k x] rest IH]; simpl; [done|].
  destruct (includes normalized k || includes k normalized).
  - intros [= ->]. by left.
  - intros H. right. by apply IH.
Qed.

Lemma charToUpper_idemp c : charToUpper (charToUpper c) = charToUpper c.
Proof. destruct c as [[] [] [] [] [] [] [] []]; reflexivity. Qed.

Lemma isSpace_charToUpper c : isSpace (charToUpper c) = isSpace c.
Proof. destruct c as [[] [] [] [] [] [] [] []]; reflexivity. Qed.

Lemma toUpperCase_idemp s : toUpperCase (toUpperCase s) = toUpperCase s.
Proof.
  unfold toUpperCase. induction s as [|c s IH]; simpl; [done|].
  by rewrite charToUpper_idemp, IH.
Qed.

Lemma trimStart_toUpperCase s : trimStart (toUpperCase s) = toUpperCase (trimStart s).
Proof.
  unfold toUpperCase. induction s as [|c s IH]; simpl; [done|].
  rewrite isSpace_charToUpper. destruct (isSpace c); [done|]. done.
Qed.

Lemma trimEnd_toUpperCase s : trimEnd (toUpperCase s) = toUpperCase (trimEnd s).
Proof.
  unfold toUpperCase. induction s as [|c s IH]; simpl; [done|].
  rewrite IH, isSpace_charToUpper. destruct (trimEnd s); simpl; [|done].
  destruct (isSpace c); done.
Qed.

Lemma trim_toUpperCase s : trim (toUpperCase s) = toUpperCase (trim s).
Proof. unfold trim. by rewrite trimStart_toUpperCase, trimEnd_toUpperCase. Qed.

Lemma includes_empty s : includes s "" = true.
Proof. destruct s; reflexivity. Qed.

(** X15. normalizeAvailability always answers one of AVAILABLE,
    NOT_AVAILABLE, PENDING, UNKNOWN. Without a status it answers UNKNOWN for
    a published vehicle and NOT_AVAILABLE otherwise; with a status the flag
    is not read. The answer does not depend on the case of the status. A
    status made of white space only is answered AVAILABLE: its normal form
    is the empty string, which the partial match finds in the first key. *)
Theorem normalizeAvailability_range (status : option string) (isPublished : bool) :
  normalizeAvailability status isPublished ∈ ["AVAILABLE"; "NOT_AVAILABLE"; "PENDING"; "UNKNOWN"] /\
  (truthyStr status = false ->
     normalizeAvailability status isPublished =
       if isPublished then "UNKNOWN" else "NOT_AVAILABLE") /\
  (truthyStr status = true ->
     normalizeAvailability status isPublished = normalizeAvailability status true) /\
  (forall s, normalizeAvailability (Some (toUpperCase s)) isPublished =
             normalizeAvailability (Some s) isPublished) /\
  (forall s, s <> "" -> isBlank s = true ->
             normalizeAvailability (Some s) isPublished = "AVAILABLE").
Proof.
  split; [|split; [|split; [|split]]].
  - unfold normalizeAvailability.
    destruct (truthyStr status), isPublished; cbn [negb andb]; try in_list.
    all: destruct (mappingGet _ _) as [v|] eqn:Hg;
      [apply mappingGet_value in Hg; from_values Hg|];
      destruct (mappingPartial _ _) as [v|] eqn:Hp;
      [apply mappingPartial_value in Hp; from_values Hp|in_list].
  - intros Ht. unfold normalizeAvailability. rewrite Ht. by destruct isPublished.
  - intros Ht. unfold normalizeAvailability. rewrite Ht. done.
  - intros s. unfold normalizeAvailability.
    assert (truthyStr (Some (toUpperCase s)) = truthyStr (Some s)) as ->
      by (by destruct s).
    cbn [default from_option id]. by rewrite toUpperCase_idemp.
  - intros s Hne Hb. unfold normalizeAvailability.
    assert (truthyStr (Some s) = true) as -> by (by destruct s).
    cbn [default from_option id negb andb]. rewrite trim_toUpperCase.
    apply String.eqb_eq in Hb. rewrite Hb. reflexivity.
Qed.

(** X16. normalizeTransmission answers null exactly for a missing or empty
    input, and otherwise one of AUTOMATIC, MANUAL, OTHER. normalizeFuelType
    answers null for a missing or empty input, and any value it answers is
    one of GASOLINE, DIESEL, HYBRID, ELECTRIC, CNG. Both hold for any
    accent-stripping function. *)
Theorem normalizeTransmission_fuel_range (stripAccents : string -> string)
    (input : option string) :
  (normalizeTransmission stripAccents input = None <-> truthyStr input = false) /\
  (forall v, normalizeTransmission stripAccents input = Some v ->
             v ∈ ["AUTOMATIC"; "MANUAL"; "OTHER"]) /\
  (truthyStr input = false -> normalizeFuelType stripAccents input = None) /\
  (forall v, normalizeFuelType stripAccents input = Some v ->
             v ∈ ["GASOLINE"; "DIESEL"; "HYBRID"; "ELECTRIC"; "CNG"]).
Proof.
  unfold normalizeTransmission, normalizeFuelType.
  destruct (truthyStr input); cbn [negb].
  - split; [|split; [|split]].
    + split; [|done]. by repeat case_match.
    + intros v. destruct (mappingGet _ _) as [x|] eqn:Hg.
      { intros [= <-]. apply mappingGet_value in Hg. from_values Hg. }
      destruct (mappingPartial _ _) as [x|] eqn:Hp.
      { intros [= <-]. apply mappingPartial_value in Hp. from_values Hp. }
      intros [= <-]. in_list.
    + done.
    + intros v. destruct (mappingGet _ _) as [x|] eqn:Hg.
      { intros [= <-]. apply mappingGet_value in Hg. from_values Hg. }
      intros Hp. apply mappingPartial_value in Hp. from_values Hp.
  - repeat split; done.
Qed.

(** ** processVehicle: the write path *)

Lemma Forall2_find_asofix (R : VehicleRow -> VehicleRow -> Prop) l l' a :
  Forall2 R l l' ->
  (forall r r', R r r' -> veh_asofix_id r' = veh_asofix_id r) ->
  match List.find (whereAsofixId a) l with
  | Some r => exists r', List.find (whereAsofixId a) l' = Some r' /\ R r r'
  | None => List.find (whereAsofixId a) l' = None
  end.
Proof.
  intros HF Hkey. induction HF as [|r r' l l' HR _ IH]; simpl; [done|].
  assert (whereAsofixId a r' = whereAsofixId a r) as ->
    by (unfold whereAsofixId; by rewrite (Hkey _ _ HR)).
  destruct (whereAsofixId a r); [by exists r'|exact IH].
Qed.

Lemma Forall2_refl_on {A} (R : A -> A -> Prop) (l : list A) :
  (forall x, R x x) -> Forall2 R l l.
Proof. intros HR. induction l; by constructor. Qed.

Lemma getOrCreateTerm_core env taxonomy termName w :
  coreTables (snd (getOrCreateTerm env taxonomy termName w)) = coreTables w.
Proof. unfold getOrCreateTerm. by repeat case_match. Qed.

Lemma assignTaxonomy_core env vid e w :
  coreTables (assignTaxonomy env vid e w) = coreTables w.
Proof.
  unfold assignTaxonomy. destruct (snd e) as [termName|]; [|done].
  pose proof (getOrCreateTerm_core env (fst e) termName w) as Hc.
  destruct (getOrCreateTerm env (fst e) termName w) as [termId w1]. simpl in Hc.
  destruct (truthyId termId); [|done]. rewrite <- Hc. by case_match.
Qed.

Lemma assignTaxonomies_core env vid v w :
  coreTables (assignTaxonomies env vid v w) = coreTables w.
Proof.
  unfold assignTaxonomies. generalize (taxonomyMap v). intros l. revert w.
  induction l as [|e l IH]; intros w; simpl; [done|].
  by rewrite IH, assignTaxonomy_core.
Qed.

Lemma assignTaxonomies_tables env vid v w :
  vehicles (assignTaxonomies env vid v w) = vehicles w /\
  vehicle_images (assignTaxonomies env vid v w) = vehicle_images w /\
  pending_images (assignTaxonomies env vid v w) = pending_images w /\
  next_vehicle_id (assignTaxonomies env vid v w) = next_vehicle_id w.
Proof.
  pose proof (assignTaxonomies_core env vid v w) as Hc. unfold coreTables in Hc.
  by injection Hc.
Qed.

Lemma savePendingImages_core vid urls w :
  vehicles (savePendingImages vid urls w) = vehicles w /\
  vehicle_images (savePendingImages vid urls w) = vehicle_images w /\
  next_vehicle_id (savePendingImages vid urls w) = next_vehicle_id w /\
  next_image_id (savePendingImages vid urls w) = next_image_id w.
Proof.
  unfold savePendingImages. destruct urls as [|u urls]; [done|].
  change (vehicles w) with (vehicles (deletePendingOfVehicle vid w)).
  change (vehicle_images w) with (vehicle_images (deletePendingOfVehicle vid w)).
  change (next_vehicle_id w) with (next_vehicle_id (deletePendingOfVehicle vid w)).
  change (next_image_id w) with (next_image_id (deletePendingOfVehicle vid w)).
  generalize (deletePendingOfVehicle vid w). generalize (u :: urls). clear.
  intros l. induction l as [|x l IH]; intros w0; simpl; [done|].
  unfold insertPending. destruct (existsb (whereId vid) (vehicles w0)); [|done].
  match goal with |- context [insertPendingLoop vid l ?w1] =>
    destruct (IH w1) as (-> & -> & -> & ->) end.
  by repeat split.
Qed.

Lemma deleteImages_rows vid urls w :
  Forall2 (fun r r' => syncFrame r' = syncFrame r)
    (vehicles w) (vehicles (deleteImages vid urls w)).
Proof.
  unfold deleteImages. simpl. apply Forall2_map_r. intros r _. by case_match.
Qed.

Lemma setVehicleMetadata_rows now vid v w :
  Forall2 (fun r r' => syncFrame r' = syncFrame r)
    (vehicles w) (vehicles (setVehicleMetadata now vid v w)).
Proof.
  unfold setVehicleMetadata.
  repeat case_match; simpl; apply Forall2_map_r; intros r _; by case_match.
Qed.

Lemma setVehicleMetadata_others now vid v w :
  vehicle_images (setVehicleMetadata now vid v w) = vehicle_images w /\
  pending_images (setVehicleMetadata now vid v w) = pending_images w /\
  next_vehicle_id (setVehicleMetadata now vid v w) = next_vehicle_id w.
Proof. unfold setVehicleMetadata. by repeat case_match. Qed.

Lemma findVehicleByAsofixId_Forall2 (R : VehicleRow -> VehicleRow -> Prop) w w' a :
  Forall2 R (vehicles w) (vehicles w') ->
  (forall r r', R r r' -> rowKey r' = rowKey r) ->
  findVehicleByAsofixId w' a = findVehicleByAsofixId w a.
Proof.
  intros HF Hkey. unfold findVehicleByAsofixId.
  pose proof (Forall2_find_asofix R _ _ a HF) as H.
  destruct (List.find (whereAsofixId a) (vehicles w)) as [r|].
  - destruct H as (r' & -> & HR); [intros x y Hxy; by injection (Hkey x y Hxy)|].
    simpl. f_equal. by injection (Hkey r r' HR).
  - rewrite H; [done|]. intros x y Hxy. by injection (Hkey x y Hxy).
Qed.

Lemma reactivateIfArchived_rows now i w :
  Forall2 (fun r r' =>
             rowKey r' = rowKey r /\ veh_version_hash r' = veh_version_hash r /\
             if (veh_id r =? i) &&
                bool_decide (veh_status <$> selectVehicleById w i = Some archived)
             then veh_status r' = published
             else r' = r)
    (vehicles w) (vehicles (reactivateIfArchived now i w)) /\
  vehicle_images (reactivateIfArchived now i w) = vehicle_images w /\
  pending_images (reactivateIfArchived now i w) = pending_images w /\
  next_vehicle_id (reactivateIfArchived now i w) = next_vehicle_id w.
Proof.
  unfold reactivateIfArchived.
  destruct (selectVehicleById w i) as [x|] eqn:Hsel.
  2:{ split; [|done]. apply Forall2_refl_on. intros r. rewrite andb_false_r. done. }
  case_decide as Hst.
  2:{ split; [|done]. apply Forall2_refl_on. intros r.
      rewrite bool_decide_eq_false_2, andb_false_r; [done|]. simpl. by intros [= ?]. }
  split; [|done]. simpl. apply Forall2_map_r. intros r _. unfold whereId.
  rewrite Hst, bool_decide_eq_true_2, andb_true_r by done.
  destruct (veh_id r =? i); done.
Qed.

Lemma processVehicle_update_eq env now v incremental w i :
  api_id v <> "" ->
  omit (shouldOmitVehicle (filterConfig env) v) = false ->
  findVehicleByAsofixId w (api_id v) = Some i -> i <> 0 ->
  incremental &&
    negb (needsUpdate (reactivateIfArchived now i w) (api_id v) (generateVersionHash env v))
    = false ->
  exists msg title_,
    processVehicle env now v incremental w =
      (mkProcessResult true msg (Some i) (Some false) (Some true) None,
       setVehicleMetadata now i v
         (assignTaxonomies env i v
            (let w2 := updateVehicles (whereId i)
                         (setListing title_ (strOr (description v) "")
                            (generateVersionHash env v) (newAdditionalData v) now)
                         (reactivateIfArchived now i w) in
             let newImageUrls := imageUrlsOf v in
             let existingUrls := existingImageUrls w2 i in
             let urlsToDelete :=
               List.filter (fun u => negb (inStrings u newImageUrls)) existingUrls in
             let urlsToAdd :=
               List.filter (fun u => negb (inStrings u existingUrls)) newImageUrls in
             let w3 := match urlsToDelete with
                       | [] => w2
                       | _ => deleteImages i urlsToDelete w2
                       end in
             match urlsToAdd with
             | [] => deletePendingOfVehicle i w3
             | _ => savePendingImages i urlsToAdd w3
             end))).
Proof.
  intros Hid Homit Hfind Hi Hinc.
  assert (findVehicleByAsofixId (reactivateIfArchived now i w) (api_id v) = Some i) as Hfind1.
  { rewrite <- Hfind. destruct (reactivateIfArchived_rows now i w) as [HF _].
    eapply findVehicleByAsofixId_Forall2; [exact HF|]. by intros r r' [? _]. }
  unfold processVehicle.
  apply String.eqb_neq in Hid as Hid'. rewrite Hid', Homit, Hfind. cbv zeta.
  assert (truthyId (Some i) = true) as Ht by (by apply negb_true_iff, Z.eqb_neq).
  rewrite Ht. cbn [default from_option id]. rewrite Hinc, Hfind1, Ht. cbn [negb default from_option id].
  eexists _, _. reflexivity.
Qed.

Lemma processVehicle_create_eq env now v incremental w :
  api_id v <> "" ->
  omit (shouldOmitVehicle (filterConfig env) v) = false ->
  findVehicleByAsofixId w (api_id v) = None ->
  exists msg title_,
    processVehicle env now v incremental w =
      (mkProcessResult true msg (Some (next_vehicle_id w)) (Some true) (Some false) None,
       savePendingImages (next_vehicle_id w) (imageUrlsOf v)
         (setVehicleMetadata now (next_vehicle_id w) v
            (assignTaxonomies env (next_vehicle_id w) v
               (snd (insertVehicle now (api_id v) title_ (strOr (description v) "")
                       (generateVersionHash env v) (newAdditionalData v) w))))).
Proof.
  intros Hid Homit Hfind.
  assert (needsUpdate w (api_id v) (generateVersionHash env v) = true) as Hneeds.
  { unfold needsUpdate. unfold findVehicleByAsofixId in Hfind.
    by destruct (List.find _ _). }
  unfold processVehicle.
  apply String.eqb_neq in Hid as Hid'. rewrite Hid', Homit, Hfind. cbv zeta.
  cbn [truthyId]. rewrite Hneeds, Hfind. cbn [negb andb truthyId]. rewrite andb_false_r.
  eexists _, _. reflexivity.
Qed.

Lemma processVehicle_unchanged_eq env now v w i :
  api_id v <> "" ->
  omit (shouldOmitVehicle (filterConfig env) v) = false ->
  findVehicleByAsofixId w (api_id v) = Some i -> i <> 0 ->
  needsUpdate (reactivateIfArchived now i w) (api_id v) (generateVersionHash env v) = false ->
  processVehicle env now v true w =
    (mkProcessResult true ("Sin cambios para " +:+ api_id v) None (Some false) (Some false) None,
     updateVehicles (whereAsofixId (api_id v)) (setLastSynced now)
       (reactivateIfArchived now i w)).
Proof.
  intros Hid Homit Hfind Hi Hneeds.
  unfold processVehicle.
  apply String.eqb_neq in Hid as Hid'. rewrite Hid', Homit, Hfind. cbv zeta.
  assert (truthyId (Some i) = true) as Ht by (by apply negb_true_iff, Z.eqb_neq).
  rewrite Ht. cbn [default from_option id]. rewrite Hneeds. reflexivity.
Qed.

Lemma update_tail_rows env now i v w1 (f : VehicleRow -> VehicleRow) :
  let w2 := updateVehicles (whereId i) f w1 in
  let newImageUrls := imageUrlsOf v in
  let existingUrls := existingImageUrls w2 i in
  let urlsToDelete :=
    List.filter (fun u => negb (inStrings u newImageUrls)) existingUrls in
  let urlsToAdd :=
    List.filter (fun u => negb (inStrings u existingUrls)) newImageUrls in
  let w3 := match urlsToDelete with
            | [] => w2
            | _ => deleteImages i urlsToDelete w2
            end in
  let w4 := match urlsToAdd with
            | [] => deletePendingOfVehicle i w3
            | _ => savePendingImages i urlsToAdd w3
            end in
  Forall2 (fun r r' => syncFrame r' = syncFrame (if whereId i r then f r else r))
    (vehicles w1) (vehicles (setVehicleMetadata now i v (assignTaxonomies env i v w4))) /\
  next_vehicle_id (setVehicleMetadata now i v (assignTaxonomies env i v w4)) = next_vehicle_id w1.
Proof.
  intros w2 newImageUrls existingUrls urlsToDelete urlsToAdd w3 w4.
  assert (Forall2 (fun r r' => r' = if whereId i r then f r else r)
            (vehicles w1) (vehicles w2)) as H12.
  { unfold w2, updateVehicles. simpl. by apply Forall2_map_r. }
  assert (Forall2 (fun r r' => syncFrame r' = syncFrame r) (vehicles w2) (vehicles w3) /\
          next_vehicle_id w3 = next_vehicle_id w1) as [H23 Hn3].
  { unfold w3. destruct urlsToDelete.
    - split; [by apply Forall2_refl_on|done].
    - split; [apply deleteImages_rows|done]. }
  assert (vehicles w4 = vehicles w3 /\ next_vehicle_id w4 = next_vehicle_id w1) as [H34 Hn4].
  { unfold w4. destruct urlsToAdd as [|u l]; [done|].
    destruct (savePendingImages_core i (u :: l) w3) as (-> & _ & -> & _). done. }
  pose proof (assignTaxonomies_core env i v w4) as Hcore. unfold coreTables in Hcore.
  injection Hcore as Hv _ _ Hn _ _ _ _.
  pose proof (setVehicleMetadata_rows now i v (assignTaxonomies env i v w4)) as H45.
  destruct (setVehicleMetadata_others now i v (assignTaxonomies env i v w4)) as (_ & _ & Hn5).
  rewrite Hv, H34 in H45. split; [|by rewrite Hn5, Hn, Hn4].
  eapply Forall2_trans; [|exact H12|].
  2:{ eapply Forall2_trans; [|exact H23|exact H45].
      intros x y z Hxy Hyz. exact (eq_trans Hyz Hxy). }
  intros x y z -> Hyz. exact Hyz.
Qed.

(** X17. For a store with sound keys and an admissible record with an id,
    processVehicle always succeeds and leaves a vehicle row for the record
    that is not archived, carries the fingerprint of the record and was
    synced now, so that needsUpdate answers false for the same record right
    after. A record without row gets a new published row under the next
    primary key; a known record keeps its row and primary key, an archived
    row comes back as published, and on the write path the row is published
    and its additional_data is replaced by the document built from the
    record. *)
Theorem processVehicle_admissible (env : Env) (now : Z) (v : AsofixVehicle)
    (incremental : bool) (w : World) :
  storeKeysOk w -> api_id v <> "" ->
  omit (shouldOmitVehicle (filterConfig env) v) = false ->
  let '(res, w') := processVehicle env now v incremental w in
  success res = true /\ filtered res = None /\
  exists r',
    List.find (whereAsofixId (api_id v)) (vehicles w') = Some r' /\
    veh_status r' <> archived /\
    veh_version_hash r' = Some (generateVersionHash env v) /\
    veh_last_synced_at r' = Some now /\
    needsUpdate w' (api_id v) (generateVersionHash env v) = false /\
    match List.find (whereAsofixId (api_id v)) (vehicles w) with
    | None =>
        wasNew res = Some true /\ vehicleId res = Some (next_vehicle_id w) /\
        veh_id r' = next_vehicle_id w /\ veh_status r' = published
    | Some r0 =>
        wasNew res = Some false /\ veh_id r' = veh_id r0 /\
        (veh_status r0 = archived -> veh_status r' = published) /\
        (wasUpdated res = Some true ->
           veh_status r' = published /\
           veh_additional_data r' = col_object (newAdditionalData v))
    end.
Proof.
  intros (Hnext & Hnd & Hnda & Hall) Hid Homit.
  assert (forall w' r', List.find (whereAsofixId (api_id v)) (vehicles w') = Some r' ->
            veh_version_hash r' = Some (generateVersionHash env v) ->
            needsUpdate w' (api_id v) (generateVersionHash env v) = false) as Hfresh.
  { intros w' r' Hf Hh. unfold needsUpdate. by rewrite Hf, Hh, String.eqb_refl. }
  destruct (List.find (whereAsofixId (api_id v)) (vehicles w)) as [r0|] eqn:Hf.
  - assert (r0 ∈ vehicles w) as Hin
      by (apply find_some in Hf as [Hin _]; by apply list_elem_of_In).
    assert (findVehicleByAsofixId w (api_id v) = Some (veh_id r0)) as Hfind
      by (unfold findVehicleByAsofixId; by rewrite Hf).
    assert (veh_id r0 <> 0) as Hi.
    { rewrite Forall_forall in Hall. specialize (Hall r0 Hin). lia. }
    pose proof (selectVehicleById_member w r0 Hnd Hin) as Hsel.
    destruct (reactivateIfArchived_rows now (veh_id r0) w) as (HF1 & _).
    pose proof (Forall2_find_asofix _ _ _ (api_id v) HF1) as Hf1.
    rewrite Hf in Hf1. destruct Hf1 as (r1 & Hf1 & Hk1 & Hh1 & Hs1).
    { intros r r' [Hk _]. by injection Hk. }
    rewrite Z.eqb_refl, Hsel in Hs1. simpl in Hs1.
    assert (veh_status r1 <> archived /\ (veh_status r0 = archived -> veh_status r1 = published))
      as [Hna Hpub].
    { case_bool_decide as Hst.
      - rewrite Hs1. done.
      - subst r1. split; [|intros Hs; by rewrite Hs in Hst]. intros Hs. by rewrite Hs in Hst. }
    injection Hk1 as Hid1 Haid1.
    destruct (incremental &&
              negb (needsUpdate (reactivateIfArchived now (veh_id r0) w) (api_id v)
                      (generateVersionHash env v))) eqn:Hinc.
    + apply andb_true_iff in Hinc as [-> Hneeds]. apply negb_true_iff in Hneeds.
      rewrite (processVehicle_unchanged_eq env now v w (veh_id r0)) by done.
      split; [done|]. split; [done|].
      assert (whereAsofixId (api_id v) r1 = true) as Hw1
        by (by apply find_some in Hf1 as [_ ?]).
      pose proof (Forall2_find_asofix
                    (fun r r' => r' = if whereAsofixId (api_id v) r
                                      then setLastSynced now r else r)
                    (vehicles (reactivateIfArchived now (veh_id r0) w))
                    (vehicles (updateVehicles (whereAsofixId (api_id v)) (setLastSynced now)
                                 (reactivateIfArchived now (veh_id r0) w)))
                    (api_id v)) as Hf2.
      rewrite Hf1 in Hf2. destruct Hf2 as (r2 & Hf2 & Hr2).
      { unfold updateVehicles. simpl. by apply Forall2_map_r. }
      { intros r r' ->. destruct (whereAsofixId (api_id v) r); reflexivity. }
      rewrite Hw1 in Hr2. subst r2.
      assert (veh_version_hash r1 = Some (generateVersionHash env v)) as Hh.
      { unfold needsUpdate in Hneeds. rewrite Hf1 in Hneeds.
        destruct (veh_version_hash r1) as [h|]; [|done].
        apply negb_false_iff, String.eqb_eq in Hneeds. by subst. }
      exists (setLastSynced now r1). split; [done|]. simpl.
      split; [done|]. split; [done|]. split; [done|].
      split; [by eapply Hfresh|]. repeat split; done.
    + destruct (processVehicle_update_eq env now v incremental w (veh_id r0))
        as (msg & title_ & ->); try done.
      split; [done|]. split; [done|].
      match goal with |- context [setListing title_ ?c ?h ?ad now] =>
        destruct (update_tail_rows env now (veh_id r0) v (reactivateIfArchived now (veh_id r0) w)
                    (setListing title_ c h ad now)) as [HF2 _] end.
      cbv zeta in HF2.
      pose proof (Forall2_find_asofix _ _ _ (api_id v) HF2) as Hf2.
      rewrite Hf1 in Hf2. destruct Hf2 as (r2 & Hf2 & Hr2).
      { intros r r' Hfr. unfold syncFrame in Hfr. injection Hfr as _ Ha _ _ _ _ _ _.
        rewrite Ha. destruct (whereId (veh_id r0) r); reflexivity. }
      unfold whereId in Hr2. rewrite Hid1, Z.eqb_refl in Hr2.
      unfold syncFrame in Hr2. simpl in Hr2.
      injection Hr2 as Hvid Haid Hst Hh Hls Had Ht Hc.
      exists r2. split; [exact Hf2|]. rewrite Hst, Hh, Hls, Had, Hvid.
      split; [done|]. split; [done|]. split; [done|].
      split; [by eapply Hfresh|]. repeat split; done.
  - assert (findVehicleByAsofixId w (api_id v) = None) as Hfind
      by (unfold findVehicleByAsofixId; by rewrite Hf).
    destruct (processVehicle_create_eq env now v incremental w) as (msg & title_ & ->);
      try done.
    split; [done|]. split; [done|].
    set (w0 := snd (insertVehicle now (api_id v) title_ (strOr (description v) "")
                      (generateVersionHash env v) (newAdditionalData v) w)).
    destruct (savePendingImages_core (next_vehicle_id w) (imageUrlsOf v)
                (setVehicleMetadata now (next_vehicle_id w) v
                   (assignTaxonomies env (next_vehicle_id w) v w0))) as (Hv & _).
    rewrite Hv.
    pose proof (setVehicleMetadata_rows now (next_vehicle_id w) v
                  (assignTaxonomies env (next_vehicle_id w) v w0)) as HF.
    destruct (assignTaxonomies_tables env (next_vehicle_id w) v w0) as (Hv' & _).
    rewrite Hv' in HF. unfold w0 in HF at 1. simpl vehicles in HF at 1.
    pose proof (Forall2_find_asofix _ _ _ (api_id v) HF) as Hf2.
    rewrite (find_snoc_None _ _ _ Hf) in Hf2. unfold whereAsofixId in Hf2 at 1.
    simpl in Hf2. rewrite String.eqb_refl in Hf2.
    destruct Hf2 as (r2 & Hf2 & Hr2).
    { intros r r' Hfr. unfold syncFrame in Hfr. by injection Hfr as _ Ha _ _ _ _ _ _. }
    unfold syncFrame in Hr2. simpl in Hr2.
    injection Hr2 as Hvid Haid Hst Hh Hls Had Ht Hc.
    exists r2. split; [exact Hf2|].
    split; [by rewrite Hst|]. split; [by rewrite Hh|]. split; [by rewrite Hls|].
    split; [apply (Hfresh _ r2); [by rewrite Hv|by rewrite Hh]|].
    rewrite Hst, Hvid. repeat split; done.
Qed.

Lemma processVehicle_admissible_witness :
  storeKeysOk worldArchived /\
  List.map veh_status (vehicles worldArchived) = [archived] /\
  List.map veh_status
    (vehicles (snd (processVehicle envSample 1000 vehicleOk false worldArchived))) = [published].
Proof.
  assert (storeKeysOk worldArchived) as Hok.
  { repeat split; [apply NoDup_singleton|apply NoDup_singleton|].
    repeat constructor; simpl; lia. }
  split; [exact Hok|]. split; [reflexivity|].
  pose proof (processVehicle_admissible envSample 1000 vehicleOk false worldArchived Hok
                ltac:(discriminate) eq_refl) as H.
  destruct (processVehicle envSample 1000 vehicleOk false worldArchived) as [res w'] eqn:E.
  destruct H as (_ & _ & r' & _). injection E as <- <-. vm_compute. reflexivity.
Defined.

(** ** processVehicle: the images of a known record *)

Lemma inStrings_spec u l : inStrings u l = true <-> u ∈ l.
Proof.
  unfold inStrings. rewrite existsb_exists. split.
  - intros (x & Hin & Heq). apply String.eqb_eq in Heq. subst. by apply list_elem_of_In.
  - intros Hin. exists u. split; [by apply list_elem_of_In|apply String.eqb_refl].
Qed.

Lemma filter_all {A} (f : A -> bool) (l : list A) :
  (forall x, x ∈ l -> f x = true) -> List.filter f l = l.
Proof.
  induction l as [|a l IH]; intros H; simpl; [done|].
  rewrite (H a) by by left. f_equal. apply IH. intros x Hx. apply H. by right.
Qed.

Lemma filter_none {A} (f : A -> bool) (l : list A) :
  List.filter f l = [] -> forall x, x ∈ l -> f x = false.
Proof.
  induction l as [|a l IH]; simpl; intros H x Hx; [by apply elem_of_nil in Hx|].
  destruct (f a) eqn:E; [done|]. apply elem_of_cons in Hx as [->|Hx]; [done|by apply IH].
Qed.

Lemma existingImageUrls_spec w i u :
  u ∈ existingImageUrls w i <->
  u <> "" /\ exists r, r ∈ vehicle_images w /\ img_vehicle_id r = i /\ img_image_url r = u.
Proof.
  unfold existingImageUrls. rewrite list_elem_of_In, filter_In, in_map_iff. split.
  - intros [(r & <- & Hr) Hne]. apply filter_In in Hr as [Hin Hv].
    split; [by apply negb_true_iff, String.eqb_neq in Hne|].
    exists r. split; [by apply list_elem_of_In|]. split; [by apply Z.eqb_eq|done].
  - intros (Hne & r & Hin & Hv & <-). split.
    + exists r. split; [done|]. apply filter_In. split; [by apply list_elem_of_In|].
      by apply Z.eqb_eq.
    + by apply negb_true_iff, String.eqb_neq.
Qed.

Lemma deleteImages_obsolete i newImageUrls w :
  let existingUrls := existingImageUrls w i in
  let urlsToDelete := List.filter (fun u => negb (inStrings u newImageUrls)) existingUrls in
  vehicle_images (match urlsToDelete with
                  | [] => w
                  | _ => deleteImages i urlsToDelete w
                  end) =
    List.filter (fun r => negb (img_vehicle_id r =? i) || imageKept newImageUrls r)
      (vehicle_images w) /\
  pending_images (match urlsToDelete with
                  | [] => w
                  | _ => deleteImages i urlsToDelete w
                  end) = pending_images w.
Proof.
  intros existingUrls urlsToDelete.
  assert (forall r, r ∈ vehicle_images w ->
            (img_vehicle_id r =? i) && inStrings (img_image_url r) urlsToDelete =
            negb (negb (img_vehicle_id r =? i) || imageKept newImageUrls r)) as Hgone.
  { intros r Hr. destruct (img_vehicle_id r =? i) eqn:Ev; [|done]. simpl.
    apply Z.eqb_eq in Ev. unfold imageKept.
    apply eq_true_iff_eq. rewrite inStrings_spec, negb_true_iff, orb_false_iff.
    unfold urlsToDelete, existingUrls.
    rewrite list_elem_of_In, filter_In, <- list_elem_of_In, existingImageUrls_spec.
    rewrite negb_true_iff, String.eqb_neq. split.
    - intros [[Hne _] Hnew]. done.
    - intros [Hne Hnew]. split; [|done]. split; [done|]. by exists r. }
  destruct urlsToDelete as [|u0 l0] eqn:Hdel.
  - split; [|done]. symmetry. apply filter_all. intros r Hr.
    specialize (Hgone r Hr). rewrite andb_comm in Hgone. simpl in Hgone.
    by apply negb_false_iff.
  - split; [|done]. unfold deleteImages, updateVehicles, setVehicles, setImages.
    cbn [vehicle_images]. apply List.filter_ext_in. intros r Hr. apply list_elem_of_In in Hr.
    rewrite (Hgone r Hr). by rewrite negb_involutive.
Qed.

Lemma filter_filter_neg {A} (f : A -> bool) (l : list A) :
  List.filter f (List.filter (fun x => negb (f x)) l) = [].
Proof.
  induction l as [|a l IH]; simpl; [done|].
  destruct (f a) eqn:E; simpl; [done|]. by rewrite E.
Qed.

Lemma filter_neg_idemp {A} (f : A -> bool) (l : list A) :
  List.filter (fun x => negb (f x)) (List.filter (fun x => negb (f x)) l) =
  List.filter (fun x => negb (f x)) l.
Proof.
  induction l as [|a l IH]; simpl; [done|].
  destruct (f a) eqn:E; simpl; [done|]. rewrite E. simpl. by f_equal.
Qed.

Lemma existsb_whereId_Forall2 (R : VehicleRow -> VehicleRow -> Prop) l l' i :
  Forall2 R l l' -> (forall r r', R r r' -> veh_id r' = veh_id r) ->
  existsb (whereId i) l' = existsb (whereId i) l.
Proof.
  intros HF HR. induction HF as [|r r' l l' Hr _ IH]; simpl; [done|].
  unfold whereId at 1 3. by rewrite (HR _ _ Hr), IH.
Qed.

Lemma findVehicleByAsofixId_exists w a i :
  findVehicleByAsofixId w a = Some i -> existsb (whereId i) (vehicles w) = true.
Proof.
  unfold findVehicleByAsofixId. destruct (List.find _ _) as [r|] eqn:Hf; [|done].
  intros [= <-]. apply List.find_some in Hf as [Hin _].
  apply existsb_exists. exists r. split; [done|]. apply Z.eqb_refl.
Qed.

Lemma update_tail_images env now i v w1 (f : VehicleRow -> VehicleRow) :
  (forall r, veh_id (f r) = veh_id r) ->
  existsb (whereId i) (vehicles w1) = true ->
  let w2 := updateVehicles (whereId i) f w1 in
  let newImageUrls := imageUrlsOf v in
  let existingUrls := existingImageUrls w2 i in
  let urlsToDelete :=
    List.filter (fun u => negb (inStrings u newImageUrls)) existingUrls in
  let urlsToAdd :=
    List.filter (fun u => negb (inStrings u existingUrls)) newImageUrls in
  let w3 := match urlsToDelete with
            | [] => w2
            | _ => deleteImages i urlsToDelete w2
            end in
  let w4 := match urlsToAdd with
            | [] => deletePendingOfVehicle i w3
            | _ => savePendingImages i urlsToAdd w3
            end in
  let w' := setVehicleMetadata now i v (assignTaxonomies env i v w4) in
  vehicle_images w' =
    List.filter (fun r => negb (img_vehicle_id r =? i) || imageKept newImageUrls r)
      (vehicle_images w1) /\
  List.map pend_image_url (pendingOfVehicle i w') =
    List.filter (fun u => negb (inStrings u (existingImageUrls w1 i))) newImageUrls /\
  pendingOfOthers i w' = pendingOfOthers i w1.
Proof.
  intros Hf Hexists w2 newImageUrls existingUrls urlsToDelete urlsToAdd w3 w4 w'.
  assert (existsb (whereId i) (vehicles w3) = true) as Hexists3.
  { assert (existsb (whereId i) (vehicles w2) = true) as Hexists2.
    { rewrite <- Hexists.
      apply (existsb_whereId_Forall2 (fun r r' => veh_id r' = veh_id r));
        [|by intros r r' Hr].
      unfold w2, updateVehicles. simpl. apply Forall2_map_r. intros r _.
      destruct (whereId i r); [apply Hf|done]. }
    unfold w3. destruct urlsToDelete; [done|]. rewrite <- Hexists2.
    apply (existsb_whereId_Forall2 (fun r r' => syncFrame r' = syncFrame r));
      [apply deleteImages_rows|].
    intros r r' Hs. unfold syncFrame in Hs. congruence. }
  destruct (deleteImages_obsolete i newImageUrls w2) as [Hi3 Hp3].
  fold existingUrls urlsToDelete w3 in Hi3, Hp3. cbv zeta in Hi3, Hp3.
  change (vehicle_images w2) with (vehicle_images w1) in Hi3.
  change (pending_images w2) with (pending_images w1) in Hp3.
  assert (existingUrls = existingImageUrls w1 i) as Hex by reflexivity.
  assert (vehicle_images w4 = vehicle_images w3 /\
          List.map pend_image_url (pendingOfVehicle i w4) = urlsToAdd /\
          pendingOfOthers i w4 = pendingOfOthers i w1) as (Hi4 & Hp4 & Ho4).
  { unfold w4. destruct urlsToAdd as [|u l] eqn:Hadd.
    - split; [done|]. unfold pendingOfVehicle, pendingOfOthers, deletePendingOfVehicle.
      simpl. rewrite Hp3. split.
      + by rewrite (filter_filter_neg (fun r => pend_vehicle_id r =? i)).
      + apply (filter_neg_idemp (fun r => pend_vehicle_id r =? i)).
    - destruct (savePendingImages_core i (u :: l) w3) as (_ & -> & _). split; [done|].
      unfold savePendingImages.
      destruct (insertPendingLoop_accepted i (u :: l) (deletePendingOfVehicle i w3) Hexists3)
        as (H1 & H2 & _).
      cbv zeta in H1, H2. rewrite H1, H2.
      unfold pendingOfVehicle, pendingOfOthers, deletePendingOfVehicle. simpl. rewrite Hp3.
      split.
      + by rewrite (filter_filter_neg (fun r => pend_vehicle_id r =? i)).
      + apply (filter_neg_idemp (fun r => pend_vehicle_id r =? i)). }
  destruct (assignTaxonomies_tables env i v w4) as (_ & Hi5 & Hp5 & _).
  destruct (setVehicleMetadata_others now i v (assignTaxonomies env i v w4)) as (Hi6 & Hp6 & _).
  unfold w'. split; [by rewrite Hi6, Hi5, Hi4, Hi3|].
  unfold pendingOfVehicle, pendingOfOthers in *. rewrite Hp6, Hp5. split; [|done].
  rewrite Hp4. unfold urlsToAdd. by rewrite Hex.
Qed.

(** X18. A full (non-incremental) pass of processVehicle over an admissible
    record of a known vehicle reconciles its images with the URLs of the
    record. Stored rows of the vehicle whose URL is no longer listed are
    deleted; rows of other vehicles and rows without URL stay. The queue of
    the vehicle becomes the listed URLs that are not stored, in the order of
    the record; queues of other vehicles stay. Hence afterwards every listed
    URL is stored or queued, no URL is both, and nothing is stored or queued
    for the vehicle that the record does not list. *)
Theorem processVehicle_reconciles_images (env : Env) (now : Z) (v : AsofixVehicle)
    (w : World) (i : Z) :
  api_id v <> "" ->
  omit (shouldOmitVehicle (filterConfig env) v) = false ->
  findVehicleByAsofixId w (api_id v) = Some i -> i <> 0 ->
  let w' := snd (processVehicle env now v false w) in
  vehicle_images w' =
    List.filter (fun r => negb (img_vehicle_id r =? i) || imageKept (imageUrlsOf v) r)
      (vehicle_images w) /\
  List.map pend_image_url (pendingOfVehicle i w') =
    List.filter (fun u => negb (inStrings u (existingImageUrls w i))) (imageUrlsOf v) /\
  pendingOfOthers i w' = pendingOfOthers i w /\
  (forall u, u ∈ imageUrlsOf v ->
     u ∈ existingImageUrls w' i \/ u ∈ List.map pend_image_url (pendingOfVehicle i w')) /\
  (forall u, u ∈ List.map pend_image_url (pendingOfVehicle i w') ->
     u ∈ imageUrlsOf v /\ ~ u ∈ existingImageUrls w' i) /\
  (forall u, u ∈ existingImageUrls w' i -> u ∈ imageUrlsOf v /\ u ∈ existingImageUrls w i).
Proof.
  intros Hid Homit Hfind Hi.
  destruct (processVehicle_update_eq env now v false w i) as (msg & title_ & Heq); try done.
  cbv zeta. rewrite Heq. cbn [snd].
  match goal with |- context [setListing title_ ?c ?h ?ad now] =>
    pose proof (update_tail_images env now i v (reactivateIfArchived now i w)
                  (setListing title_ c h ad now)) as Ht end.
  destruct (reactivateIfArchived_rows now i w) as (Hrows1 & Hi1 & Hp1 & _).
  specialize (Ht ltac:(done)).
  rewrite (existsb_whereId_Forall2 _ _ _ i Hrows1) in Ht
    by (intros r r' [Hk _]; unfold rowKey in Hk; congruence).
  specialize (Ht (findVehicleByAsofixId_exists _ _ _ Hfind)).
  cbv zeta in Ht. destruct Ht as (Himg & Hpend & Hoth).
  assert (existingImageUrls (reactivateIfArchived now i w) i = existingImageUrls w i) as Hex
    by (unfold existingImageUrls; by rewrite Hi1).
  unfold pendingOfOthers in Hoth at 2. rewrite Hi1 in Himg. rewrite Hex in Hpend.
  rewrite Hp1 in Hoth. fold (pendingOfOthers i w) in Hoth.
  split; [exact Himg|]. split; [exact Hpend|]. split; [exact Hoth|].
  rewrite Hpend.
  match goal with |- context [existingImageUrls ?W i] =>
    match W with
    | w => fail 1
    | _ => set (w' := W) in *
    end end.
  assert (forall u, u ∈ existingImageUrls w' i <->
                    u ∈ existingImageUrls w i /\ u ∈ imageUrlsOf v) as Hstored.
  { intros u. rewrite !existingImageUrls_spec, Himg. split.
    - intros (Hne & r & Hr & Hv & Hu).
      apply list_elem_of_In, filter_In in Hr as [Hr Hk]. apply list_elem_of_In in Hr.
      split; [split; [done|by exists r]|].
      rewrite <- Hv, Z.eqb_refl in Hk. simpl in Hk. unfold imageKept in Hk.
      apply orb_true_iff in Hk as [Hk|Hk].
      + apply String.eqb_eq in Hk. congruence.
      + apply inStrings_spec in Hk. by rewrite <- Hu.
    - intros [(Hne & r & Hr & Hv & Hu) Hnew]. split; [done|]. exists r.
      split; [|done]. apply list_elem_of_In, filter_In. split; [by apply list_elem_of_In|].
      rewrite Hv, Z.eqb_refl. simpl. unfold imageKept. apply orb_true_iff. right.
      apply inStrings_spec. by rewrite Hu. }
  split; [|split].
  - intros u Hu. destruct (inStrings u (existingImageUrls w i)) eqn:E.
    + left. apply Hstored. split; [by apply inStrings_spec|done].
    + right. apply list_elem_of_In, filter_In. split; [by apply list_elem_of_In|].
      by rewrite E.
  - intros u Hu. apply list_elem_of_In, filter_In in Hu as [Hu Hn].
    split; [by apply list_elem_of_In|]. intros [Hs _]%Hstored.
    apply inStrings_spec in Hs. by rewrite Hs in Hn.
  - intros u [Hs Hn]%Hstored. done.
Qed.

Lemma processVehicle_reconciles_images_witness :
  findVehicleByAsofixId worldObsolete (api_id vehicleOk) = Some 7 /\
  List.map img_image_url
    (vehicle_images (snd (processVehicle envSample 1000 vehicleOk false worldObsolete))) =
    ["https://cdn.example/th-a.jpg"] /\
  List.map pend_image_url
    (pendingOfVehicle 7 (snd (processVehicle envSample 1000 vehicleOk false worldObsolete))) =
    ["https://cdn.example/th-b.jpg"].
Proof.
  split; [reflexivity|].
  pose proof (processVehicle_reconciles_images envSample 1000 vehicleOk worldObsolete 7
                ltac:(discriminate) eq_refl eq_refl ltac:(discriminate)) as H.
  cbv zeta in H. destruct H as (H1 & H2 & _).
  rewrite H1, H2. split; reflexivity.
Defined.

(** ** No phase of syncAll removes or re-keys a vehicle *)

Lemma keysGrow_refl w : keysGrow w w.
Proof. intros H. split; [done|]. exists []. by rewrite app_nil_r. Qed.

Lemma keysGrow_trans w1 w2 w3 : keysGrow w1 w2 -> keysGrow w2 w3 -> keysGrow w1 w3.
Proof.
  intros H12 H23 H1. destruct (H12 H1) as (H2 & a & Ha). destruct (H23 H2) as (H3 & b & Hb).
  split; [done|]. exists (a ++ b)%list. by rewrite Hb, Ha, app_assoc.
Qed.

Lemma keysGrow_kept w w' :
  vehicleKeys w' = vehicleKeys w -> next_vehicle_id w' = next_vehicle_id w -> keysGrow w w'.
Proof.
  intros Hk Hn (H1 & H2 & H3 & H4). split; [|exists []; by rewrite app_nil_r].
  assert (List.map veh_id (vehicles w') = List.map veh_id (vehicles w)) as Hids.
  { unfold vehicleKeys in Hk. apply (f_equal (List.map fst)) in Hk.
    by rewrite !List.map_map in Hk. }
  assert (List.map veh_asofix_id (vehicles w') = List.map veh_asofix_id (vehicles w)) as Has.
  { unfold vehicleKeys in Hk. apply (f_equal (List.map snd)) in Hk.
    by rewrite !List.map_map in Hk. }
  unfold storeKeysOk. rewrite Hn, Hids, Has. repeat split; try done.
  apply Forall_forall. intros r Hr.
  assert (veh_id r ∈ List.map veh_id (vehicles w)) as Hin.
  { rewrite <- Hids. apply list_elem_of_In, in_map. by apply list_elem_of_In. }
  apply list_elem_of_In, in_map_iff in Hin as (r0 & Heq & Hr0).
  rewrite Forall_forall in H4. rewrite <- Heq. apply H4. by apply list_elem_of_In.
Qed.

Lemma keysGrow_rows (R : VehicleRow -> VehicleRow -> Prop) w w' :
  Forall2 R (vehicles w) (vehicles w') ->
  (forall r r', R r r' -> rowKey r' = rowKey r) ->
  next_vehicle_id w' = next_vehicle_id w -> keysGrow w w'.
Proof.
  intros HF Hkey Hn. apply keysGrow_kept; [|done].
  unfold vehicleKeys. induction HF as [|r r' l l' HR _ IH]; simpl; [done|].
  by rewrite (Hkey _ _ HR), IH.
Qed.

Lemma keysGrow_update cond f w :
  (forall r, rowKey (f r) = rowKey r) -> keysGrow w (updateVehicles cond f w).
Proof.
  intros Hf. apply (keysGrow_rows (fun r r' => r' = if cond r then f r else r)); [| |done].
  - unfold updateVehicles. simpl. by apply Forall2_map_r.
  - intros r r' ->. by destruct (cond r).
Qed.

Lemma keysGrow_insert now a title_ content_ h ad w :
  findVehicleByAsofixId w a = None ->
  keysGrow w (snd (insertVehicle now a title_ content_ h ad w)).
Proof.
  intros Hfind (H1 & H2 & H3 & H4). simpl. split.
  - unfold storeKeysOk. simpl. rewrite !List.map_app. simpl.
    split; [lia|]. split; [|split].
    + apply NoDup_app. split; [done|]. split; [|apply NoDup_singleton].
      intros x Hx Hx'. apply list_elem_of_singleton in Hx'. subst x.
      apply list_elem_of_In, in_map_iff in Hx as (r & Heq & Hr).
      rewrite Forall_forall in H4. apply list_elem_of_In in Hr. specialize (H4 r Hr). lia.
    + apply NoDup_app. split; [done|]. split; [|apply NoDup_singleton].
      intros x Hx Hx'. apply list_elem_of_singleton in Hx'. subst x.
      apply list_elem_of_In, in_map_iff in Hx as (r & Heq & Hr).
      unfold findVehicleByAsofixId in Hfind.
      destruct (List.find (whereAsofixId a) (vehicles w)) as [x|] eqn:Hf; [done|].
      pose proof (find_none _ _ Hf r Hr) as Hn. unfold whereAsofixId in Hn.
      rewrite Heq, String.eqb_refl in Hn. done.
    + apply Forall_app. split.
      * eapply Forall_impl; [exact H4|]. simpl. intros r Hr. lia.
      * apply Forall_singleton. simpl. lia.
  - unfold vehicleKeys. simpl. rewrite List.map_app. by eexists.
Qed.

Lemma archiveFiltered_keysGrow now i reason_ w : keysGrow w (archiveFiltered now i reason_ w).
Proof. unfold archiveFiltered. by apply keysGrow_update. Qed.

Lemma reactivateIfArchived_keysGrow now i w : keysGrow w (reactivateIfArchived now i w).
Proof.
  destruct (reactivateIfArchived_rows now i w) as (HF & _ & _ & Hn).
  eapply keysGrow_rows; [exact HF| |done]. by intros r r' [? _].
Qed.

Lemma processVehicle_keysGrow env now v incremental w :
  keysGrow w (snd (processVehicle env now v incremental w)).
Proof.
  intros Hok.
  destruct (String.eqb (api_id v) "") eqn:Hid.
  { unfold processVehicle. rewrite Hid. by apply keysGrow_refl. }
  apply String.eqb_neq in Hid.
  destruct (omit (shouldOmitVehicle (filterConfig env) v)) eqn:Homit.
  { unfold processVehicle. apply String.eqb_neq in Hid. rewrite Hid, Homit. simpl.
    destruct (truthyId _); [by apply archiveFiltered_keysGrow|by apply keysGrow_refl]. }
  destruct (findVehicleByAsofixId w (api_id v)) as [i|] eqn:Hfind.
  - assert (i <> 0) as Hi.
    { destruct Hok as (_ & _ & _ & Hall). unfold findVehicleByAsofixId in Hfind.
      destruct (List.find _ _) as [r|] eqn:Hf; [|done]. injection Hfind as <-.
      apply find_some in Hf as [Hin _]. rewrite Forall_forall in Hall.
      apply list_elem_of_In in Hin. specialize (Hall r Hin). lia. }
    destruct (incremental &&
              negb (needsUpdate (reactivateIfArchived now i w) (api_id v)
                      (generateVersionHash env v))) eqn:Hinc.
    + apply andb_true_iff in Hinc as [-> Hneeds]. apply negb_true_iff in Hneeds.
      rewrite (processVehicle_unchanged_eq env now v w i) by done. simpl.
      revert Hok. eapply keysGrow_trans; [apply reactivateIfArchived_keysGrow|].
      by apply keysGrow_update.
    + destruct (processVehicle_update_eq env now v incremental w i)
        as (msg & title_ & ->); try done.
      cbn [snd]. revert Hok.
      eapply keysGrow_trans; [apply reactivateIfArchived_keysGrow|].
      match goal with |- context [setListing title_ ?c ?h ?ad now] =>
        destruct (update_tail_rows env now i v (reactivateIfArchived now i w)
                    (setListing title_ c h ad now)) as [HF Hn] end.
      cbv zeta in HF, Hn. eapply keysGrow_rows; [exact HF| |exact Hn].
      intros r r' Hfr. unfold syncFrame in Hfr. injection Hfr as Hvid Ha _ _ _ _ _ _.
      unfold rowKey. rewrite Hvid, Ha. by destruct (whereId i r).
  - destruct (processVehicle_create_eq env now v incremental w) as (msg & title_ & ->);
      try done.
    cbn [snd]. revert Hok.
    set (w0 := snd (insertVehicle now (api_id v) title_ (strOr (description v) "")
                      (generateVersionHash env v) (newAdditionalData v) w)).
    eapply keysGrow_trans; [by apply keysGrow_insert|].
    destruct (savePendingImages_core (next_vehicle_id w) (imageUrlsOf v)
                (setVehicleMetadata now (next_vehicle_id w) v
                   (assignTaxonomies env (next_vehicle_id w) v w0))) as (Hv & _ & Hn & _).
    destruct (assignTaxonomies_tables env (next_vehicle_id w) v w0) as (Hv' & _ & _ & Hn').
    destruct (setVehicleMetadata_others now (next_vehicle_id w) v
                (assignTaxonomies env (next_vehicle_id w) v w0)) as (_ & _ & Hn'').
    pose proof (setVehicleMetadata_rows now (next_vehicle_id w) v
                  (assignTaxonomies env (next_vehicle_id w) v w0)) as HF.
    rewrite Hv', <- Hv in HF.
    eapply keysGrow_rows; [exact HF| |by rewrite Hn, Hn'', Hn'].
    intros r r' Hfr. unfold syncFrame in Hfr. injection Hfr as Hvid Ha _ _ _ _ _ _.
    unfold rowKey. by rewrite Hvid, Ha.
Qed.

Section ReconcileKeys.
Context (env : Env) (process : Processor).
Hypothesis process_keysGrow :
  forall v incremental w, keysGrow w (snd (process v incremental w)).

Lemma retryLoop_keysGrow incremental v fuel retryCount st :
  keysGrow (world st) (world (retryLoop env process incremental v fuel retryCount st)).
Proof.
  revert retryCount st. induction fuel as [|fuel IH]; intros retryCount st; simpl.
  { apply keysGrow_refl. }
  case_match; [apply keysGrow_refl|].
  pose proof (process_keysGrow v incremental (world st)) as Hp.
  destruct (process v incremental (world st)) as [[result|msg] w]; simpl in Hp.
  - pose proof (afterReturn_counters env v result st w) as Hc. cbv zeta in Hc.
    destruct Hc as (_ & _ & _ & _ & _ & _ & ->). exact Hp.
  - case_match; [exact Hp|].
    eapply keysGrow_trans; [exact Hp|].
    match goal with |- context [retryLoop _ _ _ _ fuel ?n ?s] => exact (IH n s) end.
Qed.

Lemma reconcileBatch_keysGrow incremental limit batch st :
  keysGrow (world st) (world (reconcileBatch env process incremental limit batch st)).
Proof.
  revert st. induction batch as [|v batch IH]; intros st; simpl; [apply keysGrow_refl|].
  case_match; [apply keysGrow_refl|].
  eapply keysGrow_trans; [|apply IH]. apply retryLoop_keysGrow.
Qed.

Lemma reconcileBatches_keysGrow incremental limit batchSize fuel remaining st :
  keysGrow (world st)
    (world (reconcileBatches env process incremental limit batchSize fuel remaining st)).
Proof.
  revert remaining st. induction fuel as [|fuel IH]; intros remaining st; simpl.
  { apply keysGrow_refl. }
  destruct remaining as [|v rest]; [apply keysGrow_refl|].
  eapply keysGrow_trans; [|apply IH]. apply reconcileBatch_keysGrow.
Qed.

End ReconcileKeys.

Lemma processVehicleStep_keysGrow env now v incremental w :
  keysGrow w (snd (processVehicleStep env now v incremental w)).
Proof.
  unfold processVehicleStep.
  pose proof (processVehicle_keysGrow env now v incremental w) as H.
  by destruct (processVehicle env now v incremental w).
Qed.

Lemma reactivateVehicle_keysGrow env lookup dbNow c st :
  keysGrow (world st) (world (reactivateVehicle env lookup dbNow c st)).
Proof.
  unfold reactivateVehicle.
  repeat case_match; try apply keysGrow_refl. simpl. by apply keysGrow_update.
Qed.

Lemma reactivationPhase_keysGrow env lookup dbNow st :
  keysGrow (world st) (world (reactivationPhase env lookup dbNow st)).
Proof.
  unfold reactivationPhase. generalize (archivedToVerify dbNow (world st)). intros l.
  revert st. induction l as [|c l IH]; intros st; simpl; [apply keysGrow_refl|].
  eapply keysGrow_trans; [|apply IH]. apply reactivateVehicle_keysGrow.
Qed.

Lemma cleanupVehicle_keysGrow env lookup dbNow jsNow c st :
  keysGrow (world st) (world (cleanupVehicle env lookup dbNow jsNow c st)).
Proof.
  assert (forall reason_,
            keysGrow (world st) (world (archiveCleanup env dbNow jsNow c reason_ st))) as Ha.
  { intros reason_. unfold archiveCleanup. simpl. by apply keysGrow_update. }
  unfold cleanupVehicle. repeat case_match; try apply Ha; apply keysGrow_refl.
Qed.

Lemma cleanupLoop_keysGrow env lookup dbNow jsNow l st :
  keysGrow (world st)
    (world (List.fold_left (fun acc c => cleanupVehicle env lookup dbNow jsNow c acc) l st)).
Proof.
  revert st. induction l as [|c l IH]; intros st; simpl; [apply keysGrow_refl|].
  eapply keysGrow_trans; [|apply IH]. apply cleanupVehicle_keysGrow.
Qed.

Lemma cleanupPhase_keysGrow env lookup dbNow jsNow st :
  keysGrow (world st) (world (cleanupPhase env lookup dbNow jsNow st)).
Proof.
  unfold cleanupPhase. case_match; [apply cleanupLoop_keysGrow|apply keysGrow_refl].
Qed.

Lemma downloadImage_keysGrow env now imageUrl vehicleId_ w :
  keysGrow w (snd (downloadImage env now imageUrl vehicleId_ w)).
Proof.
  unfold downloadImage.
  destruct (List.find _ _); [by apply keysGrow_kept|].
  destruct (httpGet env _); [|by apply keysGrow_kept].
  cbv zeta. destruct (existsb _ _); [|by apply keysGrow_kept].
  simpl. destruct (Nat.eqb _ 1); [|by apply keysGrow_kept].
  eapply keysGrow_trans; [|apply keysGrow_kept; reflexivity].
  eapply keysGrow_trans; [|by apply keysGrow_update]. by apply keysGrow_kept.
Qed.

Lemma downloadLoop_keysGrow env now jobs c w :
  keysGrow w (snd (downloadLoop env now jobs c w)).
Proof.
  revert c w. induction jobs as [|[vid u] jobs IH]; intros c w; [apply keysGrow_refl|].
  cbn [downloadLoop].
  pose proof (downloadImage_keysGrow env now u vid w) as Hd.
  destruct (downloadImage env now u vid w) as [res w1]. simpl in Hd.
  eapply keysGrow_trans; [exact Hd|apply IH].
Qed.

(** X19. Let the primary keys before the run be positive, below the counter
    and unique, and the asofix_ids unique. Then a whole run of syncAll never
    removes a vehicle and never changes a primary key or an asofix_id: the
    keys of the table after the run are the keys before it, in the same
    order, followed by the keys of the vehicles created; and the keys are
    sound again, both after phase 1 and after the image phase. *)
Theorem syncAll_keeps_vehicles (env : Env) (api : Api) (now : Z) (incremental : bool)
    (limit : Z) (batchSize fuel : nat) (w : World) :
  storeKeysOk w ->
  storeKeysOk (world (fase1 (syncAll env api now incremental limit batchSize fuel w))) /\
  storeKeysOk (final_world (syncAll env api now incremental limit batchSize fuel w)) /\
  exists added,
    vehicleKeys (final_world (syncAll env api now incremental limit batchSize fuel w)) =
      (vehicleKeys w ++ added)%list.
Proof.
  unfold syncAll. destruct (fetchPhase api limit fuel) as [allVehiclesFromAPI fetchErrors].
  set (st0 := mkRunState w ∅ 0 0 0 fetchErrors 0 0).
  set (st1 := reconcileBatches env (processVehicleStep env now) incremental limit batchSize
                (List.length allVehiclesFromAPI) allVehiclesFromAPI st0).
  set (st2 := reactivationPhase env (getVehicleByLicensePlate api) now st1).
  set (st3 := cleanupPhase env (getVehicleByLicensePlate api) now now st2).
  assert (keysGrow w (world st3)) as H3.
  { eapply keysGrow_trans; [|apply cleanupPhase_keysGrow].
    eapply keysGrow_trans; [|apply reactivationPhase_keysGrow].
    apply (reconcileBatches_keysGrow env (processVehicleStep env now)
             (processVehicleStep_keysGrow env now) incremental limit batchSize _ _ st0). }
  assert (keysGrow (world st3)
            (snd (match getPendingImages (world st3) with
                  | [] => (mkImageCounters 0 0 0, world st3)
                  | _ => downloadAllImages env now (world st3)
                  end))) as H4.
  { destruct (getPendingImages (world st3)); [apply keysGrow_refl|].
    apply downloadLoop_keysGrow. }
  intros Hok. destruct (H3 Hok) as [Hok3 _].
  destruct (keysGrow_trans _ _ _ H3 H4 Hok) as [Hok4 Hadd].
  destruct (match getPendingImages (world st3) with
            | [] => _
            | _ => _
            end) as [counters w'].
  simpl. done.
Qed.

Lemma syncAll_keeps_vehicles_witness :
  storeKeysOk worldStale /\
  vehicleKeys (final_world (syncAll envSample apiOnePage laterNow false 0 10 5 worldStale)) =
    [(7, "A-100")] /\
  storeKeysOk (final_world (syncAll envSample apiOnePage laterNow false 0 10 5 worldStale)).
Proof.
  assert (storeKeysOk worldStale) as Hok.
  { repeat split; [apply NoDup_singleton|apply NoDup_singleton|].
    repeat constructor; simpl; lia. }
  destruct (syncAll_keeps_vehicles envSample apiOnePage laterNow false 0 10 5 worldStale Hok)
    as (_ & H & _).
  split; [exact Hok|]. split; [vm_compute; reflexivity|exact H].
Defined.

(** ** The reactivation phase *)

Lemma reactivatedRow_mono env lookup dbNow valid valid' r r' :
  valid ⊆ valid' -> reactivatedRow env lookup dbNow valid r r' ->
  reactivatedRow env lookup dbNow valid' r r'.
Proof.
  intros Hsub [->|(H1 & H2 & H3 & H4 & H5 & H6)]; [by left|right].
  repeat split; try done. by apply Hsub.
Qed.

Lemma Forall2_impl_in {A B} (P Q : A -> B -> Prop) (l : list A) (k : list B) :
  Forall2 P l k -> (forall x y, x ∈ l -> P x y -> Q x y) -> Forall2 Q l k.
Proof.
  induction 1 as [|x y l k HP _ IH]; intros HQ; constructor.
  - apply HQ; [by left|done].
  - apply IH. intros a b Ha. apply HQ. by right.
Qed.

Lemma reactivateVehicle_step env lookup dbNow w0 c st :
  NoDup (List.map veh_id (vehicles w0)) ->
  c ∈ vehicles w0 -> veh_status c = archived ->
  Forall2 (reactivatedRow env lookup dbNow (validVehicleIds st))
    (vehicles w0) (vehicles (world st)) ->
  Forall2 (reactivatedRow env lookup dbNow
             (validVehicleIds (reactivateVehicle env lookup dbNow c st)))
    (vehicles w0) (vehicles (world (reactivateVehicle env lookup dbNow c st))) /\
  validVehicleIds st ⊆ validVehicleIds (reactivateVehicle env lookup dbNow c st) /\
  countersOf (reactivateVehicle env lookup dbNow c st) = countersOf st /\
  vehicle_images (world (reactivateVehicle env lookup dbNow c st)) =
    vehicle_images (world st) /\
  pending_images (world (reactivateVehicle env lookup dbNow c st)) =
    pending_images (world st) /\
  ((forall plate v, lookup plate <> lookup_found v) ->
   reactivateVehicle env lookup dbNow c st = st).
Proof.
  intros Hnd Hc Hst HF. unfold reactivateVehicle.
  destruct (veh_license_plate c) as [plate|] eqn:Hplate; [|by repeat split].
  destruct (String.eqb plate "" || isBlank plate); [by repeat split|].
  destruct (lookup plate) as [apiVehicle| |msg] eqn:Hlook; [|by repeat split|by repeat split].
  destruct (String.eqb (api_id apiVehicle) (veh_asofix_id c) &&
            negb (omit (shouldOmitVehicle (filterConfig env) apiVehicle))) eqn:Hok;
    [|by repeat split].
  apply andb_true_iff in Hok as [Hsame Hadm].
  apply String.eqb_eq in Hsame. apply negb_true_iff in Hadm.
  cbn [world validVehicleIds]. split.
  - unfold updateVehicles. cbn [vehicles setVehicles].
    apply Forall2_fmap_r.
    eapply Forall2_impl_in; [exact HF|]. intros r r' Hr HR. unfold compose.
    destruct (whereId (veh_id c) r') eqn:Hw.
    + right. unfold whereId in Hw. apply Z.eqb_eq in Hw.
      assert (archiveFrame r' = archiveFrame r) as Hfr
        by (destruct HR as [->|(_ & _ & ? & _)]; done).
      assert (r = c) as ->.
      { apply (primary_key_determines_row (vehicles w0)); try done.
        unfold archiveFrame in Hfr. injection Hfr as Hvid _. congruence. }
      split; [done|]. split; [done|]. split; [by rewrite <- Hfr|]. split; [done|].
      split; [apply elem_of_union_l; by apply elem_of_singleton|].
      by exists plate, apiVehicle.
    + eapply reactivatedRow_mono; [|exact HR]. apply union_subseteq_r.
  - split; [apply union_subseteq_r|]. split; [done|]. split; [done|]. split; [done|].
    intros Hnever. by specialize (Hnever plate apiVehicle).
Qed.

Lemma reactivation_fold env lookup dbNow w0 l st :
  NoDup (List.map veh_id (vehicles w0)) ->
  Forall (fun c => c ∈ vehicles w0 /\ veh_status c = archived) l ->
  Forall2 (reactivatedRow env lookup dbNow (validVehicleIds st))
    (vehicles w0) (vehicles (world st)) ->
  let st' := List.fold_left (fun acc c => reactivateVehicle env lookup dbNow c acc) l st in
  Forall2 (reactivatedRow env lookup dbNow (validVehicleIds st'))
    (vehicles w0) (vehicles (world st')) /\
  validVehicleIds st ⊆ validVehicleIds st' /\
  countersOf st' = countersOf st /\
  vehicle_images (world st') = vehicle_images (world st) /\
  pending_images (world st') = pending_images (world st) /\
  ((forall plate v, lookup plate <> lookup_found v) -> st' = st).
Proof.
  intros Hnd Hl. revert st. induction Hl as [|c l [Hc Hst] _ IH]; intros st HF.
  { simpl. repeat split; done. }
  cbn [List.fold_left].
  destruct (reactivateVehicle_step env lookup dbNow w0 c st Hnd Hc Hst HF)
    as (HF1 & Hv1 & Hc1 & Hi1 & Hp1 & Hn1).
  destruct (IH _ HF1) as (HF2 & Hv2 & Hc2 & Hi2 & Hp2 & Hn2). cbv zeta in *.
  split; [done|]. split; [by etrans|]. split; [by rewrite Hc2|].
  split; [by rewrite Hi2|]. split; [by rewrite Hp2|].
  intros Hnever. rewrite (Hn1 Hnever) in Hn2 |- *. by apply Hn2.
Qed.

Lemma archivedToVerify_spec dbNow w :
  Forall (fun c => c ∈ vehicles w /\ veh_status c = archived) (archivedToVerify dbNow w).
Proof.
  apply Forall_forall. intros c Hc. unfold archivedToVerify in Hc.
  apply (subseteq_take 200) in Hc. rewrite merge_sort_Permutation in Hc.
  apply list_elem_of_In, filter_In in Hc as [Hin Hf].
  split; [by apply list_elem_of_In|].
  apply andb_true_iff in Hf as [Hf _]. apply andb_true_iff in Hf as [Hf _].
  by apply bool_decide_eq_true in Hf.
Qed.

(** X20. The reactivation phase only ever publishes archived vehicles: with
    unique primary keys, every row comes out unchanged, or it was archived,
    the lookup of its license plate found a record with the same id that
    passes the filters, and the row is now published with every column
    other than status, additional_data and updated_at unchanged and its id
    in the Valid-Set Tracker. The tracker only grows, the counters, images
    and queue are untouched, and when no lookup finds a record (catalog
    down, or nothing found) the phase changes nothing. *)
Theorem reactivationPhase_only_reactivates (env : Env) (lookup : string -> LookupOutcome)
    (dbNow : Z) (st : RunState) :
  NoDup (List.map veh_id (vehicles (world st))) ->
  Forall2 (reactivatedRow env lookup dbNow
             (validVehicleIds (reactivationPhase env lookup dbNow st)))
    (vehicles (world st)) (vehicles (world (reactivationPhase env lookup dbNow st))) /\
  validVehicleIds st ⊆ validVehicleIds (reactivationPhase env lookup dbNow st) /\
  countersOf (reactivationPhase env lookup dbNow st) = countersOf st /\
  vehicle_images (world (reactivationPhase env lookup dbNow st)) =
    vehicle_images (world st) /\
  pending_images (world (reactivationPhase env lookup dbNow st)) =
    pending_images (world st) /\
  ((forall plate v, lookup plate <> lookup_found v) ->
   reactivationPhase env lookup dbNow st = st).
Proof.
  intros Hnd. unfold reactivationPhase.
  apply (reactivation_fold env lookup dbNow (world st)); [done| |].
  - apply archivedToVerify_spec.
  - apply Forall2_refl_on. intros r. by left.
Qed.

Lemma reactivationPhase_only_reactivates_witness :
  NoDup (List.map veh_id (vehicles worldArchived)) /\
  List.map veh_status
    (vehicles (world (reactivationPhase envSample lookupOk 1000 (runStateOf worldArchived ∅))))
    = [published] /\
  reactivationPhase envSample lookupNull 1000 (runStateOf worldArchived ∅) =
    runStateOf worldArchived ∅.
Proof.
  assert (NoDup (List.map veh_id (vehicles worldArchived))) as Hnd by apply NoDup_singleton.
  split; [exact Hnd|]. split; [vm_compute; reflexivity|].
  destruct (reactivationPhase_only_reactivates envSample lookupNull 1000
              (runStateOf worldArchived ∅) Hnd) as (_ & _ & _ & _ & _ & H).
  apply H. intros plate v. discriminate.
Defined.

(** ** Admissible records and the cleanup phase *)

Lemma processVehicle_filtered_flag env now v incremental w :
  omit (shouldOmitVehicle (filterConfig env) v) = false ->
  filtered (fst (processVehicle env now v incremental w)) = None.
Proof.
  intros Homit. unfold processVehicle.
  destruct (String.eqb (api_id v) ""); [done|]. rewrite Homit. cbv zeta.
  repeat case_match; done.
Qed.

Lemma reconcileVehicle_tracks env now incremental v st :
  omit (shouldOmitVehicle (filterConfig env) v) = false ->
  api_id v <> "" -> api_id v <> "ID_DESCONOCIDO" ->
  api_id v ∈ validVehicleIds
               (reconcileVehicle env (processVehicleStep env now) incremental v st).
Proof.
  intros Homit Hid Hknown. destruct (asofixIdOf_known v Hid Hknown) as [Ha Hk].
  unfold reconcileVehicle, processVehicleStep. simpl.
  pose proof (processVehicle_filtered_flag env now v incremental (world st) Homit) as Hf.
  destruct (processVehicle env now v incremental (world st)) as [res w']. simpl in Hf.
  unfold afterReturn. rewrite Hf, Hk, Ha. cbn [isTrue default from_option id negb andb].
  rewrite !andb_true_r. destruct (success res); simpl.
  - case_match; simpl; apply elem_of_union_l; by apply elem_of_singleton.
  - by apply addIfAdmissible_adds.
Qed.

Lemma reconcileBatch_tracks env now incremental batch st v :
  v ∈ batch ->
  omit (shouldOmitVehicle (filterConfig env) v) = false ->
  api_id v <> "" -> api_id v <> "ID_DESCONOCIDO" ->
  api_id v ∈ validVehicleIds
               (reconcileBatch env (processVehicleStep env now) incremental 0 batch st).
Proof.
  intros Hin Homit Hid Hknown. revert st.
  induction batch as [|x batch IH]; intros st; [by apply elem_of_nil in Hin|].
  cbn [reconcileBatch]. change ((0 <? 0) && (0 <=? fase1Processed st)) with false. cbv iota.
  apply elem_of_cons in Hin as [->|Hin].
  - apply reconcileBatch_mono. by apply reconcileVehicle_tracks.
  - by apply IH.
Qed.

Lemma reconcileBatches_tracks env now incremental batchSize fuel remaining st v :
  (0 < batchSize)%nat -> (List.length remaining <= fuel)%nat ->
  v ∈ remaining ->
  omit (shouldOmitVehicle (filterConfig env) v) = false ->
  api_id v <> "" -> api_id v <> "ID_DESCONOCIDO" ->
  api_id v ∈ validVehicleIds
               (reconcileBatches env (processVehicleStep env now) incremental 0 batchSize fuel
                  remaining st).
Proof.
  intros Hbs Hfuel Hin Homit Hid Hknown. revert remaining st Hfuel Hin.
  induction fuel as [|fuel IH]; intros remaining st Hfuel Hin.
  { destruct remaining; [by apply elem_of_nil in Hin|simpl in Hfuel; lia]. }
  destruct remaining as [|x rest]; [by apply elem_of_nil in Hin|].
  cbn [reconcileBatches].
  rewrite <- (List.firstn_skipn batchSize (x :: rest)) in Hin.
  apply elem_of_app in Hin as [Hin|Hin].
  - apply reconcileBatches_mono. by apply reconcileBatch_tracks.
  - apply IH; [|done]. rewrite List.length_skipn. simpl in *. lia.
Qed.

Lemma reactivationPhase_mono env lookup dbNow st :
  validVehicleIds st ⊆ validVehicleIds (reactivationPhase env lookup dbNow st).
Proof.
  unfold reactivationPhase. generalize (archivedToVerify dbNow (world st)). intros l.
  revert st. induction l as [|c l IH]; intros st; simpl; [done|].
  etrans; [|apply IH]. unfold reactivateVehicle.
  repeat case_match; try done. simpl. apply union_subseteq_r.
Qed.

(** X21. In a run without SYNC_LIMIT, every record of the fetched list that
    passes the filters and has a known id is in the Valid-Set Tracker when
    the reconcile loop ends, whatever processVehicle did with it (created,
    updated, unchanged or failed), and it is still there after the
    reactivation phase. So the SELECT of the cleanup phase never returns a
    vehicle whose asofix_id is the id of such a record. *)
Theorem admissible_records_escape_cleanup (env : Env) (now dbNow : Z) (incremental : bool)
    (batchSize fuel : nat) (records : list AsofixVehicle) (lookup : string -> LookupOutcome)
    (st : RunState) (v : AsofixVehicle) :
  (0 < batchSize)%nat -> (List.length records <= fuel)%nat ->
  v ∈ records ->
  omit (shouldOmitVehicle (filterConfig env) v) = false ->
  api_id v <> "" -> api_id v <> "ID_DESCONOCIDO" ->
  let st1 := reconcileBatches env (processVehicleStep env now) incremental 0 batchSize fuel
               records st in
  let st2 := reactivationPhase env lookup dbNow st1 in
  api_id v ∈ validVehicleIds st1 /\
  api_id v ∈ validVehicleIds st2 /\
  Forall (fun c => veh_asofix_id c <> api_id v)
    (cleanupCandidates dbNow (validVehicleIds st2) (world st2)).
Proof.
  intros Hbs Hfuel Hin Homit Hid Hknown st1 st2.
  assert (api_id v ∈ validVehicleIds st1) as H1 by by apply reconcileBatches_tracks.
  assert (api_id v ∈ validVehicleIds st2) as H2 by by apply reactivationPhase_mono.
  split; [done|]. split; [done|].
  apply Forall_forall. intros c Hc Heq. unfold cleanupCandidates in Hc.
  apply subseteq_take in Hc. apply list_elem_of_In, filter_In in Hc as [_ Hc].
  apply andb_true_iff in Hc as [Hc _]. apply andb_true_iff in Hc as [_ Hc].
  apply negb_true_iff, bool_decide_eq_false in Hc. apply Hc. by rewrite Heq.
Qed.

Lemma admissible_records_escape_cleanup_witness :
  cleanupCandidates laterNow
    (validVehicleIds
       (reactivationPhase envSample lookupNull laterNow
          (reconcileBatches envSample (processVehicleStep envSample 1000) true 0 10 1
             [vehicleOk] (runStateOf worldStale ∅))))
    (world
       (reactivationPhase envSample lookupNull laterNow
          (reconcileBatches envSample (processVehicleStep envSample 1000) true 0 10 1
             [vehicleOk] (runStateOf worldStale ∅)))) = [] /\
  List.length (cleanupCandidates laterNow {["B-200"]} worldStale) = 1%nat.
Proof.
  pose proof (admissible_records_escape_cleanup envSample 1000 laterNow true 10 1 [vehicleOk]
                lookupNull (runStateOf worldStale ∅) vehicleOk ltac:(lia) ltac:(simpl; lia)
                ltac:(by left) eq_refl ltac:(discriminate) ltac:(discriminate)) as H.
  cbv zeta in H. destruct H as (_ & _ & H).
  split; vm_compute; reflexivity.
Defined.

(** ** syncAll when the catalog cannot be read *)

Lemma searchPages_all_fail api plate fuel page searched errors :
  (forall p n, exists msg, getVehiclesPage api p n = page_throws msg) ->
  searchPages api plate fuel page searched errors = None.
Proof.
  intros Hfail. revert page searched errors.
  induction fuel as [|fuel IH]; intros page searched errors; simpl; [done|].
  case_match; [done|]. destruct (Hfail page 100) as [msg ->].
  case_match; [done|apply IH].
Qed.

Lemma catalogDown_lookup api plate v :
  catalogDown api -> getVehicleByLicensePlate api plate <> lookup_found v.
Proof.
  intros Hdown. unfold getVehicleByLicensePlate.
  destruct (String.eqb (apiKey api) "") eqn:Hk; [done|].
  destruct (String.eqb plate "" || isBlank plate); [done|].
  destruct Hdown as [Hkey|Hfail]; [by apply String.eqb_neq in Hk|].
  by rewrite searchPages_all_fail.
Qed.

Lemma catalogDown_fetch api limit fuel :
  catalogDown api -> (0 < fuel)%nat -> 0 <= limit -> fetchPhase api limit fuel = ([], 1).
Proof.
  intros Hdown Hfuel Hlimit. unfold fetchPhase. destruct fuel as [|fuel]; [lia|].
  cbn [fetchLoop]. change (Z.of_nat (List.length [])) with 0.
  assert ((limit =? 0) || (0 <? limit) = true) as ->.
  { destruct (limit =? 0) eqn:E; [done|]. apply Z.eqb_neq in E. simpl.
    apply Z.ltb_lt. lia. }
  assert (exists msg, syncPage api 1 = syncPage_throws msg) as [msg ->]; [|done].
  unfold syncPage, requestPage. destruct (String.eqb (apiKey api) "") eqn:Hk; [by eexists|].
  destruct Hdown as [Hkey|Hfail]; [by apply String.eqb_neq in Hk|].
  destruct (Hfail 1 10) as [msg ->]. by eexists.
Qed.

Lemma reactivationPhase_not_found env lookup dbNow st :
  (forall plate v, lookup plate <> lookup_found v) ->
  reactivationPhase env lookup dbNow st = st.
Proof.
  intros Hnever. unfold reactivationPhase.
  generalize (archivedToVerify dbNow (world st)). intros l.
  induction l as [|c l IH]; simpl; [done|].
  assert (reactivateVehicle env lookup dbNow c st = st) as ->; [|done].
  unfold reactivateVehicle. repeat case_match; try done.
  by match goal with H : lookup _ = lookup_found _ |- _ => apply Hnever in H end.
Qed.

Lemma downloadImage_rows env now imageUrl vehicleId_ w :
  Forall2 (fun r r' => syncFrame r' = syncFrame r)
    (vehicles w) (vehicles (snd (downloadImage env now imageUrl vehicleId_ w))).
Proof.
  unfold downloadImage.
  destruct (List.find _ _); [by apply Forall2_refl_on|].
  destruct (httpGet env _); [|by apply Forall2_refl_on].
  cbv zeta. destruct (existsb _ _); [|by apply Forall2_refl_on].
  simpl. destruct (Nat.eqb _ 1); [|by apply Forall2_refl_on].
  simpl. apply Forall2_map_r. intros r _. by destruct (whereId vehicleId_ r).
Qed.

Lemma downloadLoop_rows env now jobs c w :
  Forall2 (fun r r' => syncFrame r' = syncFrame r)
    (vehicles w) (vehicles (snd (downloadLoop env now jobs c w))).
Proof.
  revert c w. induction jobs as [|[vid u] jobs IH]; intros c w.
  { by apply Forall2_refl_on. }
  cbn [downloadLoop].
  pose proof (downloadImage_rows env now u vid w) as Hd.
  destruct (downloadImage env now u vid w) as [res w1]. simpl in Hd.
  eapply Forall2_trans; [|exact Hd|apply IH].
  intros x y z Hxy Hyz. exact (eq_trans Hyz Hxy).
Qed.

(** X22. When the catalog cannot be read (no API key, or every page request
    fails), SYNC_LIMIT is not negative and the page loop may run at least
    one round, syncAll leaves the vehicles as they are: phase 1 ends with the
    store it started with, one error counted, nothing processed, filtered or
    archived and an empty tracker, so the cleanup phase is skipped. The image
    phase that follows still runs on the queue, but it changes no status,
    title, fingerprint or additional_data of a vehicle. *)
Theorem syncAll_catalog_down (env : Env) (api : Api) (now : Z) (incremental : bool)
    (limit : Z) (batchSize fuel : nat) (w : World) :
  catalogDown api -> (0 < fuel)%nat -> 0 <= limit ->
  fase1 (syncAll env api now incremental limit batchSize fuel w) =
    mkRunState w ∅ 0 0 0 1 0 0 /\
  Forall2 (fun r r' => syncFrame r' = syncFrame r)
    (vehicles w) (vehicles (final_world (syncAll env api now incremental limit batchSize fuel w))).
Proof.
  intros Hdown Hfuel Hlimit. unfold syncAll.
  rewrite (catalogDown_fetch api limit fuel Hdown Hfuel Hlimit).
  cbn [List.length reconcileBatches].
  rewrite reactivationPhase_not_found by (intros plate v; by apply catalogDown_lookup).
  assert (cleanupPhase env (getVehicleByLicensePlate api) now now (mkRunState w ∅ 0 0 0 1 0 0) =
          mkRunState w ∅ 0 0 0 1 0 0) as ->.
  { unfold cleanupPhase. cbn [validVehicleIds]. by rewrite size_empty. }
  cbn [world].
  destruct (getPendingImages w) as [|j jobs] eqn:Hjobs.
  - simpl. split; [done|]. by apply Forall2_refl_on.
  - pose proof (downloadLoop_rows env now (getPendingImages w) (mkImageCounters 0 0 0) w) as Hd.
    unfold downloadAllImages.
    destruct (downloadLoop env now (getPendingImages w) (mkImageCounters 0 0 0) w)
      as [counters w'].
    simpl. split; [done|exact Hd].
Qed.

Lemma syncAll_catalog_down_witness :
  catalogDown apiFailing /\
  world (fase1 (syncAll envSample apiFailing laterNow false 0 10 5 worldStale)) = worldStale /\
  fase1Errors (fase1 (syncAll envSample apiFailing laterNow false 0 10 5 worldStale)) = 1.
Proof.
  assert (catalogDown apiFailing) as Hdown by (right; intros p n; by eexists).
  split; [exact Hdown|].
  destruct (syncAll_catalog_down envSample apiFailing laterNow false 0 10 5 worldStale Hdown
              ltac:(lia) ltac:(lia)) as [H _].
  rewrite H. split; reflexivity.
Defined.

(** ** assignTaxonomies *)

Lemma getOrCreateTerm_spec env taxonomy termName w :
  termIdsOk w ->
  termIdsOk (snd (getOrCreateTerm env taxonomy termName w)) /\
  (exists added, taxonomy_terms (snd (getOrCreateTerm env taxonomy termName w)) =
                 (taxonomy_terms w ++ added)%list) /\
  vehicle_taxonomies (snd (getOrCreateTerm env taxonomy termName w)) = vehicle_taxonomies w /\
  next_vt_id (snd (getOrCreateTerm env taxonomy termName w)) = next_vt_id w /\
  vehicles (snd (getOrCreateTerm env taxonomy termName w)) = vehicles w /\
  if String.eqb (trim termName) "" then fst (getOrCreateTerm env taxonomy termName w) = None
  else exists term,
         fst (getOrCreateTerm env taxonomy termName w) = Some (term_id term) /\
         term_id term <> 0 /\
         term ∈ taxonomy_terms (snd (getOrCreateTerm env taxonomy termName w)) /\
         sameText env (term_taxonomy term) taxonomy = true /\
         sameText env (term_name term) (trim termName) = true.
Proof.
  intros [Hnext Hall]. unfold getOrCreateTerm.
  destruct (String.eqb termName "") eqn:E1.
  { apply String.eqb_eq in E1. subst termName. simpl.
    split; [done|]. split; [exists []; by rewrite app_nil_r|]. done. }
  simpl. destruct (String.eqb (trim termName) "") eqn:E2.
  { simpl. split; [done|]. split; [exists []; by rewrite app_nil_r|]. done. }
  destruct (List.find _ (taxonomy_terms w)) as [t|] eqn:Hf; simpl.
  - split; [done|]. split; [exists []; by rewrite app_nil_r|]. split; [done|]. split; [done|].
    split; [done|].
    apply find_some in Hf as [Hin Hk]. apply andb_true_iff in Hk as [Hk1 Hk2].
    apply list_elem_of_In in Hin.
    exists t. rewrite Forall_forall in Hall. repeat split; try done. by apply Hall.
  - split; [|split; [by eexists|split; [done|split; [done|split; [done|]]]]].
    + unfold termIdsOk. simpl. split; [lia|]. apply Forall_app. split; [done|].
      apply Forall_singleton. simpl. lia.
    + exists (mkTermRow (next_term_id w) taxonomy (trim termName)). simpl.
      split; [done|]. split; [lia|]. split; [apply elem_of_app; right; by left|].
      split; apply sameText_refl.
Qed.

Lemma taxonomyRows_snoc env vid t l n (row : VehicleTaxonomyRow) w :
  taxonomyRows env vid t (setVehicleTaxonomies w (l ++ [row]) n) =
  (List.filter (fun r => (vt_vehicle_id r =? vid) && sameText env (vt_taxonomy r) t) l ++
   if (vt_vehicle_id row =? vid) && sameText env (vt_taxonomy row) t then [row] else [])%list.
Proof. unfold taxonomyRows. simpl. rewrite List.filter_app. simpl. by case_match. Qed.

Lemma taxonomyRows_other_deleted env vid k vid' t (l : list VehicleTaxonomyRow) :
  vid' <> vid \/ sameText env t k = false ->
  List.filter (fun r => (vt_vehicle_id r =? vid') && sameText env (vt_taxonomy r) t)
    (List.filter (fun r => negb ((vt_vehicle_id r =? vid) && sameText env (vt_taxonomy r) k))
       l) =
  List.filter (fun r => (vt_vehicle_id r =? vid') && sameText env (vt_taxonomy r) t) l.
Proof.
  intros Hneq. induction l as [|r rs IH]; simpl; [done|].
  destruct ((vt_vehicle_id r =? vid) && sameText env (vt_taxonomy r) k) eqn:E1; simpl.
  - apply andb_true_iff in E1 as [E1 E2]. apply Z.eqb_eq in E1.
    assert ((vt_vehicle_id r =? vid') && sameText env (vt_taxonomy r) t = false) as ->.
    { apply andb_false_iff. destruct (Z.eqb_spec (vt_vehicle_id r) vid') as [E3|]; [|by left].
      right. destruct Hneq as [Hneq|Hneq]; [congruence|].
      destruct (sameText env (vt_taxonomy r) t) eqn:E4; [|done].
      apply sameText_eq in E2, E4. unfold sameText in Hneq.
      rewrite <- E4, E2, String.eqb_refl in Hneq. done. }
    exact IH.
  - rewrite IH. done.
Qed.

Lemma assignTaxonomy_spec env vid k x w vid' t :
  termIdsOk w ->
  let w' := assignTaxonomy env vid (k, x) w in
  termIdsOk w' /\
  (exists added, taxonomy_terms w' = (taxonomy_terms w ++ added)%list) /\
  vehicles w' = vehicles w /\
  (vid' <> vid \/ sameText env t k = false ->
   taxonomyRows env vid' t w' = taxonomyRows env vid' t w) /\
  match x with
  | Some name =>
      if String.eqb (trim name) "" then vehicle_taxonomies w' = vehicle_taxonomies w
      else if existsb (whereId vid) (vehicles w)
           then assignedTo env vid k (trim name) w'
           else taxonomyRows env vid k w' = []
  | None => w' = w
  end.
Proof.
  intros Hok. cbv zeta. unfold assignTaxonomy. cbn [fst snd].
  destruct x as [name|].
  2:{ split; [done|]. split; [exists []; by rewrite app_nil_r|]. done. }
  pose proof (getOrCreateTerm_spec env k name w Hok) as Hg.
  destruct (getOrCreateTerm env k name w) as [termId w1]. cbn [fst snd] in Hg.
  destruct Hg as (Hok1 & Hadd & Hvt & Hn & Hveh & Hres).
  destruct (String.eqb (trim name) "") eqn:E.
  { subst termId. simpl. split; [done|]. split; [done|]. split; [done|]. split; [|done].
    intros _. unfold taxonomyRows. by rewrite Hvt. }
  destruct Hres as (term & -> & Hne & Hin & Htax & Hname).
  assert (truthyId (Some (term_id term)) = true) as ->
    by (by apply negb_true_iff, Z.eqb_neq).
  cbn [default from_option id].
  assert (existsb (fun t0 => term_id t0 =? term_id term) (taxonomy_terms w1) = true) as ->.
  { apply existsb_exists. exists term. split; [by apply list_elem_of_In|apply Z.eqb_refl]. }
  rewrite andb_true_r, Hveh.
  destruct (existsb (whereId vid) (vehicles w)).
  - split; [done|]. split; [done|]. split; [done|]. split.
    + intros Hneq. rewrite taxonomyRows_snoc. cbn [vt_vehicle_id vt_taxonomy].
      assert ((vid =? vid') && sameText env k t = false) as ->.
      { apply andb_false_iff. destruct (Z.eqb_spec vid vid') as [->|]; [|by left]. right.
        destruct Hneq as [?|Hneq]; [done|]. unfold sameText in *.
        rewrite <- Hneq. apply String.eqb_sym. }
      rewrite app_nil_r. unfold taxonomyRows. rewrite Hvt.
      by apply taxonomyRows_other_deleted.
    + exists (mkVehicleTaxonomyRow (next_vt_id w1) vid k (term_id term)), term.
      rewrite taxonomyRows_snoc. cbn [vt_vehicle_id vt_taxonomy vt_term_id].
      rewrite Z.eqb_refl, sameText_refl. simpl.
      rewrite (filter_filter_neg
                 (fun r => (vt_vehicle_id r =? vid) && sameText env (vt_taxonomy r) k)).
      repeat split; done.
  - split; [done|]. split; [done|]. split; [done|]. split.
    + intros Hneq. unfold taxonomyRows. cbn [vehicle_taxonomies setVehicleTaxonomies].
      rewrite Hvt. by apply taxonomyRows_other_deleted.
    + unfold taxonomyRows. cbn [vehicle_taxonomies setVehicleTaxonomies].
      apply (filter_filter_neg
               (fun r => (vt_vehicle_id r =? vid) && sameText env (vt_taxonomy r) k)).
Qed.

Lemma assignedTo_kept env vid t name w w' :
  assignedTo env vid t name w ->
  taxonomyRows env vid t w' = taxonomyRows env vid t w ->
  (exists added, taxonomy_terms w' = (taxonomy_terms w ++ added)%list) ->
  assignedTo env vid t name w'.
Proof.
  intros (row & term & H1 & H2 & H3 & H4 & H5) Hrows [added Hadd].
  exists row, term. rewrite Hrows, Hadd. repeat split; try done.
  apply elem_of_app. by left.
Qed.

Lemma assignTaxonomies_fold env vid l w :
  termIdsOk w -> NoDup (List.map (fun e => collationKey env (fst e)) l) ->
  termIdsOk (List.fold_left (fun acc e => assignTaxonomy env vid e acc) l w) /\
  (exists added,
     taxonomy_terms (List.fold_left (fun acc e => assignTaxonomy env vid e acc) l w) =
     (taxonomy_terms w ++ added)%list) /\
  (forall vid' t',
     vid' <> vid \/ (forall e, e ∈ l -> sameText env t' (fst e) = false) ->
     taxonomyRows env vid' t' (List.fold_left (fun acc e => assignTaxonomy env vid e acc) l w) =
     taxonomyRows env vid' t' w) /\
  (forall t x, (t, x) ∈ l ->
     entryHandled env vid t x w
       (List.fold_left (fun acc e => assignTaxonomy env vid e acc) l w)).
Proof.
  intros Hok Hnd. revert w Hok. induction l as [|[k y] l IH]; intros w Hok.
  { simpl. split; [done|]. split; [exists []; by rewrite app_nil_r|]. split; [done|].
    intros t x Hin. by apply elem_of_nil in Hin. }
  simpl in Hnd. apply NoDup_cons in Hnd as [Hk Hnd].
  cbn [List.fold_left].
  assert (forall e, e ∈ l -> sameText env (fst e) k = false) as Hfresh.
  { intros e He. destruct (sameText env (fst e) k) eqn:E; [|done]. exfalso. apply Hk.
    apply sameText_eq in E. rewrite <- E.
    apply list_elem_of_In, (List.in_map (fun e => collationKey env (fst e))).
    by apply list_elem_of_In. }
  assert (forall vid' t', vid' <> vid \/ sameText env t' k = false ->
            taxonomyRows env vid' t' (assignTaxonomy env vid (k, y) w) =
            taxonomyRows env vid' t' w) as Hother.
  { intros vid' t'.
    by destruct (assignTaxonomy_spec env vid k y w vid' t' Hok) as (_ & _ & _ & ? & _). }
  destruct (assignTaxonomy_spec env vid k y w vid k Hok)
    as (Hok1 & [a1 Ha1] & Hveh1 & _ & Hstep).
  cbv zeta in Hstep.
  destruct (IH Hnd (assignTaxonomy env vid (k, y) w) Hok1) as (Hok2 & [a2 Ha2] & Hrest & Hin2).
  split; [done|]. split; [exists (a1 ++ a2)%list; by rewrite Ha2, Ha1, app_assoc|].
  split.
  - intros vid' t' Hcase. rewrite Hrest.
    + apply Hother. destruct Hcase as [?|Hn]; [by left|]. right.
      apply (Hn (k, y)). by left.
    + destruct Hcase as [?|Hn]; [by left|]. right. intros e He. apply Hn. by right.
  - intros t x Hin. apply elem_of_cons in Hin as [[= -> ->]|Hin].
    + assert (taxonomyRows env vid k
                (List.fold_left (fun acc e => assignTaxonomy env vid e acc) l
                   (assignTaxonomy env vid (k, y) w)) =
              taxonomyRows env vid k (assignTaxonomy env vid (k, y) w)) as Hkeep.
      { apply Hrest. right. intros e He. unfold sameText. rewrite String.eqb_sym.
        by apply Hfresh. }
      unfold entryHandled. destruct y as [name|].
      * destruct (String.eqb (trim name) "").
        -- rewrite Hkeep. unfold taxonomyRows. by rewrite Hstep.
        -- destruct (existsb (whereId vid) (vehicles w)).
           ++ eapply assignedTo_kept; [exact Hstep|exact Hkeep|by exists a2].
           ++ by rewrite Hkeep.
      * rewrite Hkeep. by rewrite Hstep.
    + assert (taxonomyRows env vid t (assignTaxonomy env vid (k, y) w) =
              taxonomyRows env vid t w) as Hsame.
      { apply Hother. right. apply (Hfresh (t, x) Hin). }
      specialize (Hin2 t x Hin). unfold entryHandled in *. rewrite Hveh1 in Hin2.
      destruct x as [name|].
      * destruct (String.eqb (trim name) ""); [by rewrite Hin2|].
        destruct (existsb (whereId vid) (vehicles w)); done.
      * by rewrite Hin2.
Qed.

Lemma taxonomyMap_keys v : List.map fst (taxonomyMap v) = taxonomyNames.
Proof. reflexivity. Qed.

(** X23. Let the collation tell the seven taxonomy names apart, and let term
    ids be nonzero. If the vehicle has a row: assignTaxonomies replaces, for
    each taxonomy for which the record names a term, the assignments of the
    vehicle in that taxonomy by exactly one row, which points to a term
    whose taxonomy and name equal that taxonomy and the trimmed name under
    the collation (found or created); in particular the condition taxonomy
    is always assigned, to 0KM for a new car and to Usado otherwise. If no
    vehicle row has the id, the foreign key rejects every INSERT after its
    DELETE has run: the id ends with no assignment in those taxonomies. In
    both cases, for a taxonomy for which the record has no value, or a
    blank one, the earlier assignments of the id are kept as they are;
    assignments of other vehicles and the vehicles table are untouched and
    no term is removed. *)
Theorem assignTaxonomies_assigns (env : Env) (vid : Z) (v : AsofixVehicle) (w : World) :
  termIdsOk w ->
  NoDup (List.map (collationKey env) taxonomyNames) ->
  (forall t x, (t, x) ∈ taxonomyMap v ->
     match x with
     | Some name =>
         if String.eqb (trim name) ""
         then taxonomyRows env vid t (assignTaxonomies env vid v w) = taxonomyRows env vid t w
         else if existsb (whereId vid) (vehicles w)
              then assignedTo env vid t (trim name) (assignTaxonomies env vid v w)
              else taxonomyRows env vid t (assignTaxonomies env vid v w) = []
     | None => taxonomyRows env vid t (assignTaxonomies env vid v w) = taxonomyRows env vid t w
     end) /\
  (existsb (whereId vid) (vehicles w) = true ->
   assignedTo env vid "condition"
     (match car_condition v with Some cond_new => "0KM" | _ => "Usado" end)
     (assignTaxonomies env vid v w)) /\
  (existsb (whereId vid) (vehicles w) = false ->
   taxonomyRows env vid "condition" (assignTaxonomies env vid v w) = []) /\
  (forall vid' t', vid' <> vid ->
     taxonomyRows env vid' t' (assignTaxonomies env vid v w) = taxonomyRows env vid' t' w) /\
  (forall t', (forall k, k ∈ taxonomyNames -> sameText env t' k = false) ->
     taxonomyRows env vid t' (assignTaxonomies env vid v w) = taxonomyRows env vid t' w) /\
  (exists added,
     taxonomy_terms (assignTaxonomies env vid v w) = (taxonomy_terms w ++ added)%list) /\
  vehicles (assignTaxonomies env vid v w) = vehicles w.
Proof.
  intros Hok Hnames.
  assert (NoDup (List.map (fun e => collationKey env (fst e)) (taxonomyMap v))) as Hnd.
  { rewrite <- (List.map_map fst (collationKey env)). by rewrite taxonomyMap_keys. }
  destruct (assignTaxonomies_tables env vid v w) as (Hveh & _).
  unfold assignTaxonomies in *.
  destruct (assignTaxonomies_fold env vid (taxonomyMap v) w Hok Hnd)
    as (_ & Hadd & Hother & Hin).
  assert (entryHandled env vid "condition"
            (Some (match car_condition v with Some cond_new => "0KM" | _ => "Usado" end)) w
            (List.fold_left (fun acc e => assignTaxonomy env vid e acc) (taxonomyMap v) w))
    as Hcond.
  { apply Hin. unfold taxonomyMap. do 2 right. by left. }
  unfold entryHandled in Hcond.
  assert (String.eqb
            (trim (match car_condition v with Some cond_new => "0KM" | _ => "Usado" end)) ""
          = false /\
          trim (match car_condition v with Some cond_new => "0KM" | _ => "Usado" end) =
          match car_condition v with Some cond_new => "0KM" | _ => "Usado" end) as [Hc1 Hc2]
    by (by destruct (car_condition v) as [[|]|]).
  rewrite Hc1, Hc2 in Hcond.
  split; [exact Hin|]. split; [|split; [|split; [|split; [|split; [exact Hadd|exact Hveh]]]]].
  - intros Hex. by rewrite Hex in Hcond.
  - intros Hex. by rewrite Hex in Hcond.
  - intros vid' t' Hne. apply Hother. by left.
  - intros t' Hfresh. apply Hother. right. intros e He. apply Hfresh.
    rewrite <- (taxonomyMap_keys v). apply list_elem_of_In, List.in_map.
    by apply list_elem_of_In.
Qed.

Lemma assignTaxonomies_assigns_witness :
  termIdsOk worldStale /\
  NoDup (List.map (collationKey envSample) taxonomyNames) /\
  existsb (whereId 7) (vehicles worldStale) = true /\
  assignedTo envSample 7 "condition" "Usado" (assignTaxonomies envSample 7 vehicleOk worldStale) /\
  List.map term_name (taxonomy_terms (assignTaxonomies envSample 7 vehicleOk worldStale)) =
    ["Toyota"; "Corolla"; "Usado"; "Manual"; "Nafta"; "Blanco"; "Sedan"] /\
  List.map vt_taxonomy (vehicle_taxonomies (assignTaxonomies envSample 7 vehicleOk worldStale)) =
    taxonomyNames /\
  vehicle_taxonomies (assignTaxonomies envSample 9 vehicleOk worldStale) = [].
Proof.
  assert (termIdsOk worldStale) as Hok by (split; [reflexivity|constructor]).
  assert (NoDup (List.map (collationKey envSample) taxonomyNames)) as Hnames.
  { apply (bool_decide_unpack _). vm_compute. exact I. }
  split; [exact Hok|]. split; [exact Hnames|]. split; [reflexivity|].
  destruct (assignTaxonomies_assigns envSample 7 vehicleOk worldStale Hok Hnames)
    as (_ & H & _).
  split; [exact (H eq_refl)|]. repeat split; reflexivity.
Defined.
